(** * LousyBatchRetarget: a shallow embedding of the batch FBX retargeting script

    The script drives Autodesk Maya through [maya.cmds], [maya.mel] and
    [os].  The embedding keeps the Python functions of
    [LousyBatchRetarget.py] as they are written and runs them in a state and
    exception monad over an explicit model of what the script can observe of
    its host: the scene (DAG nodes with their animation curves), the key
    clipboard, the selection, the file system, the FBX plug-in flag, the
    module-level list [imported_joint_uuids] and the script-editor output.

    Of the window code, [populate_root_joints] is embedded, with an option
    menu as the list of its item labels.  [show_fbx_batch_processor_ui] and
    [set_folder] build and read widgets, and [execute_batch_process] checks
    that four fields are filled in, prints them and calls
    [batch_process_fbx]; they are not part of the embedding. *)

From Stdlib Require Import ZArith Lia Ascii String.
From stdpp Require Import base option list gmap strings pretty.

(** ** Python string operations used by the script *)

Module PyStr.

(** [s.split(sep)] for a one-character separator. *)
Fixpoint split (sep : ascii) (s : string) : list string :=
  match s with
  | EmptyString => [EmptyString]
  | String c r =>
      if Ascii.eqb c sep then EmptyString :: split sep r
      else match split sep r with
           | [] => [String c EmptyString]
           | h :: t => String c h :: t
           end
  end.

(** [xs[-1]] on the result of a split (which is never empty). *)
Definition last_item (xs : list string) : string := default "" (last xs).

Fixpoint contains (c : ascii) (s : string) : bool :=
  match s with
  | EmptyString => false
  | String d r => Ascii.eqb d c || contains c r
  end.

Definition chars (s : string) : list ascii := String.list_ascii_of_string s.

Definition startswith (p s : string) : bool := String.prefix p s.

Definition endswith (suf s : string) : bool :=
  bool_decide (chars suf `suffix_of` chars s).

Definition lower_char (c : ascii) : ascii :=
  let n := Ascii.nat_of_ascii c in
  if (65 <=? n)%nat && (n <=? 90)%nat then Ascii.ascii_of_nat (n + 32) else c.

Fixpoint lower (s : string) : string :=
  match s with
  | EmptyString => EmptyString
  | String c r => String (lower_char c) (lower r)
  end.

(** [s.replace(a, b)] for one-character [a] and [b]. *)
Fixpoint replace (a b : ascii) (s : string) : string :=
  match s with
  | EmptyString => EmptyString
  | String c r => String (if Ascii.eqb c a then b else c) (replace a b r)
  end.

Fixpoint all_dots (s : string) : bool :=
  match s with
  | EmptyString => true
  | String c r => Ascii.eqb c "." && all_dots r
  end.

(** [rsplit_dot s] cuts [s] at its last dot: [Some (root, ext)] with
    [s = root ++ ext] and [ext] starting with that dot. *)
Fixpoint rsplit_dot (s : string) : option (string * string) :=
  match s with
  | EmptyString => None
  | String c r =>
      match rsplit_dot r with
      | Some (root, ext) => Some (String c root, ext)
      | None => if Ascii.eqb c "." then Some (EmptyString, s) else None
      end
  end.

(** [os.path.splitext] on a name without directory separators: the
    extension starts at the last dot, unless only dots precede it. *)
Definition splitext (p : string) : string * string :=
  match rsplit_dot p with
  | Some (root, ext) => if all_dots root then (p, EmptyString) else (root, ext)
  | None => (p, EmptyString)
  end.

End PyStr.

(** ** The host: scene, clipboard, file system *)

(** A key is a (time, value) sample; the script only counts and copies keys. *)
Definition key : Type := Z * Z.
Abbreviation curve := (list key).
Abbreviation curves := (gmap string (list key)).

(** A DAG node.  [n_path] is the chain of names from the world down to the
    node, so the last element is the node's local name (with its namespace
    qualifier, as in [ns1:Hand]).  [n_readonly] marks a node that Maya refuses
    to delete with a warning only (a referenced or default node). *)
Record node := Node {
  n_path : list string;
  n_joint : bool;
  n_uuid : string;
  n_locked : bool;
  n_readonly : bool;
  n_curves : curves }.

Definition with_curves (n : node) (m : curves) : node :=
  Node (n_path n) (n_joint n) (n_uuid n) (n_locked n) (n_readonly n) m.

Definition with_locked (n : node) (b : bool) : node :=
  Node (n_path n) (n_joint n) (n_uuid n) b (n_readonly n) (n_curves n).

Definition local_name (n : node) : string := default "" (last (n_path n)).

(** The long name [|a|b|c] of a path. *)
Definition render (p : list string) : string :=
  foldr (λ seg acc, "|" +:+ seg +:+ acc) "" p.

Definition full (n : node) : string := render (n_path n).

Definition curve_at (n : node) (a : string) : curve := default [] (n_curves n !! a).

Inductive exn :=
  | ValueError (msg : string)
  | RuntimeError (msg : string)
  | IndexError
  | OSError (msg : string).

Inductive output := Stdout (s : string) | Warn (s : string).

(** Options set through the FBX plug-in's MEL commands. *)
Inductive fbx_option :=
  | FBXImportMode (mode : string)
  | FBXExportConstraints (b : bool)
  | FBXExportSkeletonDefinitions (b : bool)
  | FBXExportSkins (b : bool)
  | FBXExportAnimationOnly (b : bool)
  | FBXExportBakeComplexAnimation (b : bool)
  | FBXExportBakeComplexStart (t : Z)
  | FBXExportBakeComplexEnd (t : Z)
  | FBXExportBakeComplexStep (n : Z).

(** Directories by path, files by path with their FBX payload ([None] for a
    file the importer cannot read), and the paths the process may not create
    or write. *)
Record filesystem := Fs {
  fs_dirs : list string;
  fs_files : list (string * option (list node));
  fs_denied : list string }.

Record world := World {
  w_scene : list node;
  w_clipboard : curves;
  w_selection : list string;
  w_fs : filesystem;
  w_fbx_loaded : bool;
  w_fbx_available : bool;
  w_fbx_options : list fbx_option;
  w_playback : Z * Z;
  imported_joint_uuids : list string;
  w_out : list output }.

Definition set_scene (s : list node) (w : world) : world :=
  World s (w_clipboard w) (w_selection w) (w_fs w) (w_fbx_loaded w)
    (w_fbx_available w) (w_fbx_options w) (w_playback w) (imported_joint_uuids w) (w_out w).
Definition set_clipboard (c : curves) (w : world) : world :=
  World (w_scene w) c (w_selection w) (w_fs w) (w_fbx_loaded w)
    (w_fbx_available w) (w_fbx_options w) (w_playback w) (imported_joint_uuids w) (w_out w).
Definition set_selection (l : list string) (w : world) : world :=
  World (w_scene w) (w_clipboard w) l (w_fs w) (w_fbx_loaded w)
    (w_fbx_available w) (w_fbx_options w) (w_playback w) (imported_joint_uuids w) (w_out w).
Definition set_fs (f : filesystem) (w : world) : world :=
  World (w_scene w) (w_clipboard w) (w_selection w) f (w_fbx_loaded w)
    (w_fbx_available w) (w_fbx_options w) (w_playback w) (imported_joint_uuids w) (w_out w).
Definition set_fbx_loaded (b : bool) (w : world) : world :=
  World (w_scene w) (w_clipboard w) (w_selection w) (w_fs w) b
    (w_fbx_available w) (w_fbx_options w) (w_playback w) (imported_joint_uuids w) (w_out w).
Definition set_fbx_options (o : list fbx_option) (w : world) : world :=
  World (w_scene w) (w_clipboard w) (w_selection w) (w_fs w) (w_fbx_loaded w)
    (w_fbx_available w) o (w_playback w) (imported_joint_uuids w) (w_out w).
Definition set_uuids (l : list string) (w : world) : world :=
  World (w_scene w) (w_clipboard w) (w_selection w) (w_fs w) (w_fbx_loaded w)
    (w_fbx_available w) (w_fbx_options w) (w_playback w) l (w_out w).
(** The script-editor output, newest line first. *)
Definition emit (o : output) (w : world) : world :=
  World (w_scene w) (w_clipboard w) (w_selection w) (w_fs w) (w_fbx_loaded w)
    (w_fbx_available w) (w_fbx_options w) (w_playback w) (imported_joint_uuids w) (o :: w_out w).

(** What the script takes from its host without fixing it: the effect of
    [pasteKey(..., option="replace")] on one curve (clipboard curve, then the
    destination's curve), the order in which Python iterates over a set of
    strings, and [os.path.abspath]. *)
Class Host := {
  paste_replace : curve → curve → curve;
  set_order : list string → list string;
  abspath : string → string }.

(** ** State and exception monad *)

Inductive res (A : Type) := Ok (a : A) | Raise (e : exn).
Arguments Ok {A} a.
Arguments Raise {A} e.

Definition M (A : Type) : Type := world → res A * world.

Definition ret {A} (a : A) : M A := λ w, (Ok a, w).
Definition bind {A B} (m : M A) (k : A → M B) : M B :=
  λ w, match m w with
       | (Ok a, w') => k a w'
       | (Raise e, w') => (Raise e, w')
       end.
Definition raise {A} (e : exn) : M A := λ w, (Raise e, w).
Definition lift {A} (r : res A) : M A := λ w, (r, w).
Definition gets {A} (f : world → A) : M A := λ w, (Ok (f w), w).
Definition modify (f : world → world) : M unit := λ w, (Ok tt, f w).

(** [try: m  except Exception as e: h e] *)
Definition try_except {A} (m : M A) (h : exn → M A) : M A :=
  λ w, match m w with
       | (Ok a, w') => (Ok a, w')
       | (Raise e, w') => h e w'
       end.

Notation "x <- m ;; k" := (bind m (λ x, k))
  (at level 100, m at next level, right associativity, only parsing).
Notation "m ;;; k" := (bind m (λ _, k))
  (at level 100, right associativity, only parsing).

(** [for x in l: body x] *)
Fixpoint for_ {A} (l : list A) (body : A → M unit) : M unit :=
  match l with
  | [] => ret tt
  | x :: r => body x ;;; for_ r body
  end.

(** A [for] loop that carries a counter. *)
Fixpoint for_count {A} (l : list A) (body : A → M nat) (acc : nat) : M nat :=
  match l with
  | [] => ret acc
  | x :: r => k <- body x ;; for_count r body (acc + k)
  end.

Fixpoint mapM {A B} (f : A → M B) (l : list A) : M (list B) :=
  match l with
  | [] => ret []
  | x :: r => y <- f x ;; ys <- mapM f r ;; ret (y :: ys)
  end.

Definition print (s : string) : M unit := modify (emit (Stdout s)).
Definition cmds_warning (s : string) : M unit := modify (emit (Warn s)).

(** ** maya.cmds, as far as the script uses it *)

Module cmds.

(** Name resolution.  A name that starts with [|] is a long name and has to
    equal the node's; any other name is a partial path, matching every node
    whose long name ends with it at a name boundary.  The script hands the
    strings listed by [ls(uuid=True)] to [lockNode], [delete] and
    [objExists], so a node also answers to its UUID. *)
Definition matches (name : string) (n : node) : bool :=
  if PyStr.startswith "|" name then bool_decide (name = full n)
  else PyStr.endswith ("|" +:+ name) (full n) || bool_decide (name = n_uuid n).

Fixpoint matching_from (i : nat) (s : list node) (name : string) : list nat :=
  match s with
  | [] => []
  | n :: r => (if matches name n then [i] else []) ++ matching_from (S i) r name
  end.

(** Indices of the nodes a name denotes. *)
Definition matching (s : list node) (name : string) : list nat :=
  matching_from 0 s name.

Definition matching_nodes (s : list node) (name : string) : list node :=
  omap (λ i, s !! i) (matching s name).

(** A command that needs exactly one node fails on no match and on an
    ambiguous name. *)
Definition resolve (s : list node) (name : string) : res nat :=
  match matching s name with
  | [i] => Ok i
  | [] => Raise (ValueError ("No object matches name: " +:+ name))
  | _ => Raise (ValueError ("More than one object matches name: " +:+ name))
  end.

Definition node_named (name : string) : M (nat * node) :=
  λ w, match resolve (w_scene w) name with
       | Ok i => match w_scene w !! i with
                 | Some n => (Ok (i, n), w)
                 | None => (Raise (ValueError ("No object matches name: " +:+ name)), w)
                 end
       | Raise e => (Raise e, w)
       end.

Definition objExists (name : string) : M bool :=
  gets (λ w, bool_decide (matching (w_scene w) name ≠ [])).

(** Strictly below [r] in the DAG. *)
Definition is_descendant (r n : node) : bool :=
  bool_decide (n_path r `prefix_of` n_path n) && negb (bool_decide (n_path r = n_path n)).

(** The name [ls] prints for a node: its shortest partial path that denotes
    one node only, the long name failing that. *)
Definition partial_names (p : list string) : list string :=
  (λ k, match render (drop (length p - k) p) with
        | String _ r => r
        | EmptyString => EmptyString
        end) <$> seq 1 (length p).

Definition short_name (s : list node) (n : node) : string :=
  default (full n)
    (head (filter (λ c, length (matching s c) = 1) (partial_names (n_path n)))).

(** [cmds.ls(type="joint")] *)
Definition ls_type_joint : M (list string) :=
  gets (λ w, short_name (w_scene w) <$> filter (λ n, n_joint n = true) (w_scene w)).

(** [cmds.ls(name, long=True)] *)
Definition ls_long (name : string) : M (list string) :=
  gets (λ w, full <$> matching_nodes (w_scene w) name).

(** [cmds.ls(name, dag=True, type="joint")]: the node first, then the joints
    below it. *)
Definition ls_dag_joints (name : string) : M (list string) :=
  gets (λ w,
    let s := w_scene w in
    short_name s <$>
      (r ← matching_nodes s name;
       (if n_joint r then [r] else []) ++
       filter (λ n, n_joint n = true ∧ is_descendant r n = true) s)).

(** [cmds.ls(uuid=True)] and [cmds.ls(name, uuid=True)] *)
Definition ls_uuid : M (list string) := gets (λ w, n_uuid <$> w_scene w).
Definition ls_uuid_of (name : string) : M (list string) :=
  gets (λ w, n_uuid <$> matching_nodes (w_scene w) name).

(** [cmds.listRelatives(name, parent=True)]: [None] for a node directly
    under the world. *)
Definition listRelatives_parent (name : string) : M (option (list string)) :=
  x <- node_named name ;; let n := x.2 in
  match n_path n with
  | [] | [_] => ret None
  | p => ret (Some [render (removelast p)])
  end.

(** [cmds.listRelatives(name, allDescendents=True, type="joint", fullPath=True)]:
    [None] when there is no joint below. *)
Definition listRelatives_allDescendents (name : string) : M (option (list string)) :=
  x <- node_named name ;; let r := x.2 in
  s <- gets w_scene ;;
  match full <$> filter (λ n, n_joint n = true ∧ is_descendant r n = true) s with
  | [] => ret None
  | l => ret (Some l)
  end.

Definition count_all (n : node) : nat :=
  sum_list (length <$> (map_to_list (n_curves n)).*2).

(** [cmds.keyframe(name, [attribute=a,] query=True, keyframeCount=True)] *)
Definition keyframe_count (name : string) (attribute : option string) : M nat :=
  x <- node_named name ;; let n := x.2 in
  match attribute with
  | Some a => ret (length (curve_at n a))
  | None => ret (count_all n)
  end.

(** [cmds.copyKey(name[, attribute=a])]: the keyed curves go to the clipboard. *)
Definition copyKey (name : string) (attribute : option string) : M unit :=
  x <- node_named name ;; let n := x.2 in
  let keyed : curves := filter (λ kv, kv.2 ≠ []) (n_curves n) in
  match attribute with
  | Some a => modify (set_clipboard (filter (λ kv, kv.1 = a) keyed))
  | None => modify (set_clipboard keyed)
  end.

Definition set_node (i : nat) (n : node) : M unit :=
  modify (λ w, set_scene (<[i := n]> (w_scene w)) w).

(** Every clipboard curve is pasted on the attribute of the same name. *)
Definition paste_all `{Host} (clip dst : curves) : curves :=
  merge (λ c d, match c with
                | Some c => Some (paste_replace c (default [] d))
                | None => d
                end) clip dst.

(** [cmds.pasteKey(name[, attribute=a], option="replace")] *)
Definition pasteKey `{Host} (name : string) (attribute : option string) : M unit :=
  x <- node_named name ;; let i := x.1 in let n := x.2 in
  clip <- gets w_clipboard ;;
  let clip : curves :=
    match attribute with
    | Some a => filter (λ kv, kv.1 = a) clip
    | None => clip
    end in
  if decide (clip = ∅) then raise (RuntimeError "Nothing to paste from")
  else set_node i (with_curves n (paste_all clip (n_curves n))).

(** [cmds.lockNode(name, query=True, lock=True)] *)
Definition lockNode_query (name : string) : M (list bool) :=
  x <- node_named name ;; let n := x.2 in
  ret [n_locked n].

(** [cmds.lockNode(name, lock=b)] *)
Definition lockNode (name : string) (b : bool) : M unit :=
  x <- node_named name ;; let i := x.1 in let n := x.2 in
  set_node i (with_locked n b).

(** [cmds.delete(name)]: the node goes with everything below it; a locked
    node is an error, a read-only node is left in place with a warning. *)
Definition delete (name : string) : M unit :=
  x <- node_named name ;; let n := x.2 in
  if n_locked n then raise (RuntimeError ("Cannot delete locked node: " +:+ name))
  else if n_readonly n then cmds_warning ("Non-deletable node cannot be deleted: " +:+ name)
  else modify (λ w, set_scene (filter (λ m, ¬ n_path n `prefix_of` n_path m) (w_scene w)) w).

(** [cmds.select(names, replace=True)] *)
Definition select (names : list string) : M unit :=
  for_ names (λ x, node_named x ;;; ret tt) ;;;
  modify (set_selection names).

(** [cmds.pluginInfo("fbxmaya", query=True, loaded=True)], [cmds.loadPlugin] *)
Definition pluginInfo_loaded : M bool := gets w_fbx_loaded.
Definition loadPlugin : M unit :=
  a <- gets w_fbx_available ;;
  if a then modify (set_fbx_loaded true)
  else raise (RuntimeError "Plug-in, fbxmaya, was not found on MAYA_PLUG_IN_PATH").

(** [cmds.playbackOptions(query=True, minTime=True)] and [maxTime] *)
Definition playbackOptions_minTime : M Z := gets (λ w, (w_playback w).1).
Definition playbackOptions_maxTime : M Z := gets (λ w, (w_playback w).2).

End cmds.

(** [om.MSelectionList().add(joint)], [getDependNode(0)], [MFnDependencyNode(obj).uuid()] *)
Definition om_uuid (joint : string) : M string :=
  x <- cmds.node_named joint ;; let n := x.2 in
  ret (n_uuid n).

(** ** maya.mel: the FBX plug-in's commands *)

Module mel.

Definition need_plugin : M unit :=
  l <- gets w_fbx_loaded ;;
  if l then ret tt else raise (RuntimeError "Cannot find procedure").

Definition set_option (o : fbx_option) : M unit :=
  need_plugin ;;;
  modify (λ w, set_fbx_options (o :: w_fbx_options w) w).

Definition lookup_file (fs : filesystem) (p : string) : option (option (list node)) :=
  snd <$> list_find (λ e, e.1 = p) (fs_files fs) ≫= λ e, Some e.2.

(** [FBXImport -f file]: the file's nodes are added to the scene. *)
Definition FBXImport (file : string) : M unit :=
  need_plugin ;;;
  fs <- gets w_fs ;;
  match lookup_file fs file with
  | Some (Some nodes) => modify (λ w, set_scene (w_scene w ++ nodes) w)
  | _ => raise (RuntimeError ("Could not read file: " +:+ file))
  end.

(** [FBXExport -f file -s]: the selected nodes are written to [file]. *)
Definition FBXExport (file : string) : M unit :=
  need_plugin ;;;
  fs <- gets w_fs ;;
  if decide (file ∈ fs_denied fs) then raise (RuntimeError ("Could not write file: " +:+ file))
  else
    modify (λ w,
      let payload := w_selection w ≫= cmds.matching_nodes (w_scene w) in
      set_fs (Fs (fs_dirs fs)
                 ((file, Some payload) :: filter (λ e, e.1 ≠ file) (fs_files fs))
                 (fs_denied fs)) w).

End mel.

(** ** os and os.path (POSIX flavour) *)

Module os.

Definition path_exists (p : string) : M bool :=
  gets (λ w, bool_decide (p ∈ fs_dirs (w_fs w) ∨ p ∈ (fs_files (w_fs w)).*1)).

Definition path_join (a b : string) : string :=
  if PyStr.startswith "/" b then b
  else if bool_decide (a = "") || PyStr.endswith "/" a then a +:+ b
  else a +:+ "/" +:+ b.

Fixpoint strip_prefix (p s : string) : option string :=
  match p with
  | EmptyString => Some s
  | String a p' =>
      match s with
      | String b s' => if Ascii.eqb a b then strip_prefix p' s' else None
      | EmptyString => None
      end
  end.

(** Names of the entries of directory [d] among [paths]. *)
Definition entries (d : string) (paths : list string) : list string :=
  omap (λ p, match strip_prefix (path_join d "") p with
             | Some name =>
                 if bool_decide (name = "") || PyStr.contains "/" name then None
                 else Some name
             | None => None
             end) paths.

Definition listdir (d : string) : M (list string) :=
  fs <- gets w_fs ;;
  if decide (d ∈ fs_dirs fs) then ret (entries d (fs_dirs fs ++ (fs_files fs).*1))
  else raise (OSError ("Not a directory: " +:+ d)).

(** Proper ancestors of a path, outermost first. *)
Fixpoint ancestors_from (seen rest : string) : list string :=
  match rest with
  | EmptyString => []
  | String c r =>
      (if Ascii.eqb c "/" && negb (bool_decide (seen = "")) then [seen] else []) ++
      ancestors_from (seen +:+ String c EmptyString) r
  end.
Definition ancestors (p : string) : list string := ancestors_from "" p.

(** [os.makedirs(p)]: creates [p] and every missing ancestor. *)
Definition makedirs (p : string) : M unit :=
  fs <- gets w_fs ;;
  let missing := filter (λ d, d ∉ fs_dirs fs) (ancestors p) in
  if decide (p ∈ fs_dirs fs ∨ p ∈ (fs_files fs).*1) then raise (OSError ("File exists: " +:+ p))
  else if decide (Exists (λ d, d ∈ fs_denied fs) (missing ++ [p])) then
    raise (OSError ("Permission denied: " +:+ p))
  else modify (set_fs (Fs (fs_dirs fs ++ missing ++ [p]) (fs_files fs) (fs_denied fs))).

End os.

(** ** Python values *)

Definition exn_str (e : exn) : string :=
  match e with
  | ValueError m | RuntimeError m | OSError m => m
  | IndexError => "list index out of range"
  end.

(** Truth value of a name that may be [None]. *)
Definition truthy (o : option string) : bool :=
  match o with
  | Some s => negb (bool_decide (s = ""))
  | None => false
  end.

(** [x or []] *)
Definition or_empty {A} (o : option (list A)) : list A := default [] o.

(** A [dict] with string keys: insertion-ordered, one entry per key. *)
Definition dict : Type := list (string * string).

Fixpoint dict_set (k v : string) (d : dict) : dict :=
  match d with
  | [] => [(k, v)]
  | (k', v') :: r => if decide (k = k') then (k, v) :: r else (k', v') :: dict_set k v r
  end.

Fixpoint dict_get (k : string) (d : dict) : option string :=
  match d with
  | [] => None
  | (k', v) :: r => if decide (k = k') then Some v else dict_get k r
  end.

(** [{key: value for ... in ...}] over the (key, value) pairs in order. *)
Definition dict_of (kvs : list (string * string)) : dict :=
  foldl (λ d kv, dict_set kv.1 kv.2 d) [] kvs.

(** ** LousyBatchRetarget.py *)

Section Script.
Context `{Host}.

(** *** IMPORT ANIMATION *)

(** The loop of [get_new_root_joint] over the new joints. *)
Fixpoint first_parentless (new_joints : list string) : M (option string) :=
  match new_joints with
  | [] =>
      cmds_warning "No valid root joint found in new joints!" ;;;
      ret None
  | joint :: rest =>
      p <- cmds.listRelatives_parent joint ;;
      if bool_decide (or_empty p = []) then
        print ("Detected imported root joint: " +:+ joint) ;;;
        ret (Some joint)
      else first_parentless rest
  end.

Definition get_new_root_joint (before_import : list string) : M (option string) :=
  after_import <- cmds.ls_type_joint ;;
  let new_joints := set_order (list_difference (remove_dups after_import) before_import) in
  if bool_decide (new_joints = []) then
    cmds_warning "No new joints detected after import!" ;;;
    ret None
  else first_parentless new_joints.

Definition import_fbx_animation (fbx_file : string) : M (option string) :=
  modify (set_uuids []) ;;;
  e <- os.path_exists fbx_file ;;
  if negb e then
    cmds_warning ("FBX file does not exist: " +:+ fbx_file) ;;;
    ret None
  else
    joints_before <- cmds.ls_type_joint ;;
    mel.set_option (FBXImportMode "add") ;;;
    mel.FBXImport fbx_file ;;;
    print ("Animation successfully imported from: " +:+ fbx_file) ;;;
    imported_root_joint <- get_new_root_joint joints_before ;;
    imported_joints <-
      (if truthy imported_root_joint
       then cmds.ls_dag_joints (default "" imported_root_joint)
       else ret []) ;;
    for_ imported_joints (λ joint,
      try_except
        (uuid <- om_uuid joint ;;
         modify (λ w, set_uuids (imported_joint_uuids w ++ [uuid]) w))
        (λ _, cmds_warning ("Failed to get UUID for: " +:+ joint))) ;;;
    uuids <- gets imported_joint_uuids ;;
    print ("Imported Joint UUIDs: " +:+ String.concat ", " uuids) ;;;
    ret imported_root_joint.

(** *** TRANSFER ANIMATION *)

Definition tracked : list string :=
  ["translateX"; "translateY"; "translateZ"; "rotateX"; "rotateY"; "rotateZ"].

(** The body of the inner loop of both transfers: one attribute of one
    matched pair; it returns 1 when the attribute was pasted. *)
Definition transfer_channel (imported_joint rig_joint attr : string) : M nat :=
  c <- cmds.keyframe_count imported_joint (Some attr) ;;
  if (0 <? c)%nat then
    cmds.copyKey imported_joint (Some attr) ;;;
    cmds.pasteKey rig_joint (Some attr) ;;;
    ret 1%nat
  else ret 0%nat.

(** The inner loop, over the six tracked attributes of one matched pair; it
    returns how many attributes were pasted. *)
Definition transfer_channels (imported_joint rig_joint : string) : M nat :=
  for_count tracked (transfer_channel imported_joint rig_joint) 0.

(** [cmds.ls(j, long=True)[0].split("|")[-1]] *)
Definition long_key (j : string) : M string :=
  l <- cmds.ls_long j ;;
  match l with
  | [] => raise IndexError
  | x :: _ => ret (PyStr.last_item (PyStr.split "|" x))
  end.

Definition long_dict (joints : list string) : M dict :=
  keys <- mapM long_key joints ;;
  ret (dict_of (zip keys joints)).

Definition transfer_animation (imported_root rig_root : string) : M unit :=
  e1 <- cmds.objExists imported_root ;;
  e2 <- cmds.objExists rig_root ;;
  if negb e1 || negb e2 then
    cmds_warning "Imported or rig root not found. Skipping transfer."
  else
    d1 <- cmds.listRelatives_allDescendents imported_root ;;
    d2 <- cmds.listRelatives_allDescendents rig_root ;;
    let imported_joints := or_empty d1 ++ [imported_root] in
    let rig_joints := or_empty d2 ++ [rig_root] in
    print ("Imported skeleton has " +:+ pretty (length imported_joints) +:+ " joints.") ;;;
    print ("Target rig has " +:+ pretty (length rig_joints) +:+ " joints.") ;;;
    imported_dict <- long_dict imported_joints ;;
    rig_dict <- long_dict rig_joints ;;
    c <- cmds.keyframe_count imported_root None ;;
    (if (0 <? c)%nat then
       print "Transferring root motion..." ;;;
       cmds.copyKey imported_root None ;;;
       cmds.pasteKey rig_root None
     else ret tt) ;;;
    matched_count <-
      for_count imported_dict (λ kv,
        match dict_get kv.1 rig_dict with
        | Some rig_joint => transfer_channels kv.2 rig_joint
        | None => ret 0%nat
        end) 0 ;;
    print ("Successfully transferred animation for " +:+ pretty matched_count +:+ " joints.").

Definition remove_namespace (joint_name : string) : string :=
  PyStr.last_item (PyStr.split ":" joint_name).

Definition namespace_dict (joints : list string) : dict :=
  dict_of ((λ j, (remove_namespace j, j)) <$> joints).

Definition transfer_animation_ignore_namespace (source_root target_root : string) : M unit :=
  d1 <- cmds.listRelatives_allDescendents source_root ;;
  d2 <- cmds.listRelatives_allDescendents target_root ;;
  let imported_joints := or_empty d1 ++ [source_root] in
  let rig_joints := or_empty d2 ++ [target_root] in
  let imported_dict := namespace_dict imported_joints in
  let rig_dict := namespace_dict rig_joints in
  for_ imported_dict (λ kv,
    match dict_get kv.1 rig_dict with
    | Some rig_joint => transfer_channels kv.2 rig_joint ;;; ret tt
    | None => ret tt
    end) ;;;
  print "Animation successfully transferred to target rig!".

(** *** EXPORT *)

(** The end of [export_fbx_animation], from the plug-in check on: the export
    options and the guarded [FBXExport] call. *)
Definition export_selection (output_fbx : string) : M unit :=
  l <- cmds.pluginInfo_loaded ;;
  (if negb l then cmds.loadPlugin else ret tt) ;;;
  start_frame <- cmds.playbackOptions_minTime ;;
  end_frame <- cmds.playbackOptions_maxTime ;;
  mel.set_option (FBXExportConstraints false) ;;;
  mel.set_option (FBXExportSkeletonDefinitions true) ;;;
  mel.set_option (FBXExportSkins true) ;;;
  mel.set_option (FBXExportAnimationOnly false) ;;;
  mel.set_option (FBXExportBakeComplexAnimation true) ;;;
  mel.set_option (FBXExportBakeComplexStart start_frame) ;;;
  mel.set_option (FBXExportBakeComplexEnd end_frame) ;;;
  mel.set_option (FBXExportBakeComplexStep 1) ;;;
  try_except
    (mel.FBXExport output_fbx ;;;
     print ("Successfully exported: " +:+ output_fbx))
    (λ e, cmds_warning ("FBX Export Failed: " +:+ exn_str e)).

(** [<folder>/<prefix><animation_name><suffix>.fbx] with slashes only. *)
Definition output_path (output_fbx_folder animation_name prefix suffix : string) : string :=
  PyStr.replace "\" "/"
    (os.path_join output_fbx_folder (prefix +:+ animation_name +:+ suffix +:+ ".fbx")).

Definition export_fbx_animation (rig_root output_fbx_folder animation_name : string)
    (prefix suffix : option string) : M unit :=
  let prefix := default "" prefix in
  let suffix := default "" suffix in
  e <- cmds.objExists rig_root ;;
  if negb e then cmds_warning ("Rig root '" +:+ rig_root +:+ "' not found in the scene!")
  else
    export_joints <- cmds.ls_dag_joints rig_root ;;
    if bool_decide (export_joints = []) then
      cmds_warning ("No joints found under '" +:+ rig_root +:+ "'!")
    else
      cmds.select export_joints ;;;
      let output_fbx_folder := abspath output_fbx_folder in
      e <- os.path_exists output_fbx_folder ;;
      made <-
        (if negb e then
           try_except (os.makedirs output_fbx_folder ;;; ret true)
             (λ e, cmds_warning ("Failed to create export folder: " +:+ exn_str e) ;;;
                   ret false)
         else ret true) ;;
      if negb made then ret tt
      else
        let rig_name := PyStr.replace ":" "_" rig_root in
        let output_fbx := output_path output_fbx_folder animation_name prefix suffix in
        print ("Exporting: " +:+ output_fbx) ;;;
        export_selection output_fbx.

(** *** DELETE *)

(** The scan for the node that carries [root_uuid]. *)
Fixpoint find_by_uuid (root_uuid : string) (node_name_list : list string) : M (option string) :=
  match node_name_list with
  | [] => ret None
  | node :: rest =>
      l <- cmds.ls_uuid_of node ;;
      match l with
      | [] => raise IndexError
      | u :: _ => if decide (u = root_uuid) then ret (Some node)
                  else find_by_uuid root_uuid rest
      end
  end.

(** The body of the [try] block; [true] stands for the [return] taken when
    no node carries the root id. *)
Definition delete_root (root_uuid : string) : M bool :=
  node_name_list <- cmds.ls_uuid ;;
  root_joint <- find_by_uuid root_uuid node_name_list ;;
  if negb (truthy root_joint) then
    print ("No root joint found for UUID " +:+ root_uuid) ;;;
    ret true
  else
    let root_joint := default "" root_joint in
    print ("Root joint identified: " +:+ root_joint) ;;;
    locked <- cmds.lockNode_query root_joint ;;
    (match locked with
     | [] => raise IndexError
     | true :: _ =>
         print ("Unlocking " +:+ root_joint +:+ "...") ;;;
         cmds.lockNode root_joint false
     | false :: _ => ret tt
     end) ;;;
    print ("Deleting " +:+ root_joint +:+ " (this will remove all child joints too)...") ;;;
    cmds.delete root_joint ;;;
    e <- cmds.objExists root_joint ;;
    (if e then print ("Failed to delete: " +:+ root_joint)
     else print "Successfully deleted the skeleton!") ;;;
    ret false.

Definition delete_imported_skeleton : M unit :=
  print "Starting delete_imported_skeleton()..." ;;;
  uuids <- gets imported_joint_uuids ;;
  match uuids with
  | [] => cmds_warning "No imported joints found to delete!"
  | root_uuid :: _ =>
      print ("Found " +:+ pretty (length uuids) +:+ " UUIDs to process.") ;;;
      print ("Processing only the root joint UUID: " +:+ root_uuid) ;;;
      returned <-
        try_except (delete_root root_uuid)
          (λ e, cmds_warning ("Failed to delete skeleton. Error: " +:+ exn_str e) ;;;
                ret false) ;;
      if returned then ret tt
      else
        modify (set_uuids []) ;;;
        print "Finished delete_imported_skeleton()."
  end.

(** *** BATCH *)

(** The body of the loop of [batch_process_fbx] for one file name. *)
Definition process_file (source_folder export_folder source_rig_root target_rig_root
    prefix suffix fbx_file : string) : M unit :=
  let fbx_file_path := PyStr.replace "\" "/" (os.path_join source_folder fbx_file) in
  let animation_name := (PyStr.splitext fbx_file).1 in
  print ("Processing: " +:+ fbx_file_path) ;;;
  imported_root_joint <- import_fbx_animation fbx_file_path ;;
  if truthy imported_root_joint then
    transfer_animation (default "" imported_root_joint) source_rig_root ;;;
    transfer_animation_ignore_namespace source_rig_root target_rig_root ;;;
    export_fbx_animation target_rig_root export_folder animation_name (Some prefix) (Some suffix) ;;;
    delete_imported_skeleton
  else print ("Skipping " +:+ fbx_file +:+ ": No imported skeleton found.").

Definition batch_process_fbx (source_folder export_folder source_rig_root target_rig_root : string)
    (prefix suffix : option string) : M unit :=
  let prefix := default "Anim_" prefix in
  let suffix := default "_Final" suffix in
  e <- os.path_exists source_folder ;;
  if negb e then print ("Source folder does not exist: " +:+ source_folder)
  else
    names <- os.listdir source_folder ;;
    let fbx_files := filter (λ f, PyStr.endswith ".fbx" (PyStr.lower f) = true) names in
    if bool_decide (fbx_files = []) then print "No FBX files found in the source folder."
    else
      for_ fbx_files
        (process_file source_folder export_folder source_rig_root target_rig_root prefix suffix) ;;;
      print "Batch processing complete!".

End Script.

(** ** The window: [populate_root_joints] *)

(** The comprehension of [populate_root_joints]: the listed joints for which
    [listRelatives(jnt, parent=True)] is empty. *)
Fixpoint parentless (joints : list string) : M (list string) :=
  match joints with
  | [] => ret []
  | jnt :: rest =>
      p <- cmds.listRelatives_parent jnt ;;
      found <- parentless rest ;;
      ret (if bool_decide (or_empty p = []) then jnt :: found else found)
  end.

(** An option menu is the list of the labels of its items: [deleteAllItems]
    empties it and [menuItem(label=l, parent=dropdown)] appends [l].  The
    function returns the menu it leaves. *)
Definition populate_root_joints (dropdown : list string) : M (list string) :=
  let dropdown : list string := [] in
  joints <- cmds.ls_type_joint ;;
  root_joints <- parentless joints ;;
  if bool_decide (root_joints = []) then ret (dropdown ++ ["No root joints found"])
  else ret (foldl (λ items joint, items ++ [joint]) dropdown root_joints).

(** ** The match key in the words of the specification *)

(** A name without its leading namespace segment: what follows the first
    separator, the name itself when there is none. *)
Definition strip_leading_namespace (name : string) : string :=
  match PyStr.split ":" name with
  | _ :: (_ :: _) as rest => String.concat ":" rest
  | _ => name
  end.

(** The bare local name, or the local name with its leading namespace segment
    stripped. *)
Definition spec_match_key (normalize_namespace : bool) (n : node) : string :=
  if normalize_namespace then strip_leading_namespace (local_name n) else local_name n.

(** ** Sample scenes *)

(** A host whose paste overwrites the destination curve, whose sets iterate in
    insertion order and whose paths are absolute already. *)
Definition sample_host : Host :=
  {| paste_replace := λ c _, c; set_order := λ l, l; abspath := λ p, p |}.

Definition joint (p : list string) (uuid : string) (cs : list (string * curve)) : node :=
  Node p true uuid false false (list_to_map cs).

Definition two_keys : curve := [(1, 10); (2, 20)]%Z.

(** The skeleton stored in [/in/Walk.fbx]. *)
Definition walk_skeleton : list node :=
  [ joint ["Root"] "i0" [("translateX", two_keys); ("scaleX", two_keys)];
    joint ["Root"; "Spine"] "i1" [("translateX", two_keys)];
    joint ["Root"; "Spine"; "Hand"] "i2" [("translateX", two_keys)] ].

Definition rig_a : list node :=
  [ joint ["A:Root"] "a0" [];
    joint ["A:Root"; "A:Spine"] "a1" [];
    joint ["A:Root"; "A:Spine"; "A:Hand"] "a2" [("translateX", two_keys)] ].

Definition rig_b : list node :=
  [ joint ["B:Root"] "b0" [];
    joint ["B:Root"; "B:Spine"] "b1" [];
    joint ["B:Root"; "B:Spine"; "B:Hand"] "b2" [("rotateZ", [(5, 5)]%Z)] ].

Definition sample_fs : filesystem :=
  Fs ["/in"] [("/in/Walk.fbx", Some walk_skeleton); ("/in/Run.fbx", Some walk_skeleton)] [].

Definition world_of (s : list node) : world :=
  World s ∅ [] sample_fs true true [] (0, 24)%Z [] [].

Definition sample_world : world := world_of (rig_a ++ rig_b).

(** Two rigs whose joints carry no namespace. *)
Definition plain_rigs : list node :=
  [ joint ["RigA"] "p0" [];
    joint ["RigA"; "Hand"] "p1" [("translateX", two_keys)];
    joint ["RigB"] "q0" [];
    joint ["RigB"; "Hand"] "q1" [] ].

(** ** Notions used in the statements *)

(** A node after the curve [c] was pasted on its attribute [a]. *)
Definition pasted `{Host} (a : string) (c : curve) (dst : node) : node :=
  with_curves dst (<[a := paste_replace c (curve_at dst a)]> (n_curves dst)).

(** What name resolution and the listing commands see of a scene. *)
Definition shape (s : list node) : list (list string * string * bool) :=
  (λ n, (n_path n, n_uuid n, n_joint n)) <$> s.

(** The curve of attribute [a] on the [i]-th node of the scene. *)
Definition chan (w : world) (i : nat) (a : string) : curve :=
  from_option (λ n, curve_at n a) [] (w_scene w !! i).

(** Scene shape and the curve of attribute [a] on every node are the same. *)
Definition keeps (a : string) (w w' : world) : Prop :=
  shape (w_scene w') = shape (w_scene w) ∧ ∀ i, chan w' i a = chan w i a.

(** Every run of [m] relates the world before to the world after. *)
Definition frames {A} (R : world → world → Prop) (m : M A) : Prop :=
  ∀ w r w', m w = (r, w') → R w w'.

(** A node after all keyed curves of [src] were pasted on it. *)
Definition root_pasted `{Host} (src dst : node) : node :=
  with_curves dst
    (cmds.paste_all (filter (λ kv : string * curve, kv.2 ≠ []) (n_curves src)) (n_curves dst)).

(** The destination node after the step of the inner loop for attribute [a]. *)
Definition paste_attr `{Host} (src : node) (dst : node) (a : string) : node :=
  if decide (curve_at src a = []) then dst else pasted a (curve_at src a) dst.

(** The destination node after the inner loop over the tracked attributes. *)
Definition pair_node `{Host} (src dst : node) : node :=
  foldl (paste_attr src) dst tracked.

(** The scene after the inner loop ran for the pair of nodes [p]. *)
Definition apply_pair `{Host} (s : list node) (p : nat * nat) : list node :=
  match s !! p.1, s !! p.2 with
  | Some n, Some nr => <[p.2 := pair_node n nr]> s
  | _, _ => s
  end.

(** The scene after the inner loop ran for each pair of [ps] in turn. *)
Definition apply_pairs `{Host} (ps : list (nat * nat)) (s : list node) : list node :=
  foldl apply_pair s ps.

(** Every node at or below [source_root] in scene [s] is the same node in
    scene [s']: the source hierarchy was left as it was. *)
Definition source_unchanged (s s' : list node) (source_root : string) : Prop :=
  ∀ i_s n_s i m,
    cmds.resolve s source_root = Ok i_s → s !! i_s = Some n_s →
    s !! i = Some m → n_path n_s `prefix_of` n_path m → s' !! i = Some m.

(** The matched pairs of two indices, in the order of the first. *)
Definition matched_pairs (imported_dict rig_dict : dict) : list (string * string) :=
  omap (λ kv, (λ rig_joint, (kv.2, rig_joint)) <$> dict_get kv.1 rig_dict) imported_dict.

(** Names and the node indices they stand for. *)
Definition resolves (s : list node) (sp : string * string) (p : nat * nat) : Prop :=
  cmds.resolve s sp.1 = Ok p.1 ∧ cmds.resolve s sp.2 = Ok p.2 ∧
  is_Some (s !! p.1) ∧ is_Some (s !! p.2).

(** The long names [listRelatives] returns for the joints below [r]. *)
Definition descendant_names (s : list node) (r : node) : list string :=
  full <$> filter (λ n, n_joint n = true ∧ cmds.is_descendant r n = true) s.

(** [x] is a name of the traversal from [root_name] and denotes node [j]. *)
Definition in_traversal (s : list node) (root_name : string) (r : node)
    (x : string) (j : nat) : Prop :=
  cmds.resolve s x = Ok j ∧
  ∃ m, s !! j = Some m ∧ n_path r `prefix_of` n_path m ∧
       ((x = root_name ∧ m = r) ∨ (x = full m ∧ cmds.is_descendant r m = true)).


(** ** Well-formed scenes and what a run keeps *)

(** A path of names as Maya forms them: at least one name, no empty name and
    no bar inside a name. *)
Definition path_ok (p : list string) : Prop :=
  p ≠ [] ∧ Forall (λ seg, seg ≠ "" ∧ PyStr.contains "|" seg = false) p.

(** A scene whose long names are distinct and well formed. *)
Definition scene_ok (s : list node) : Prop :=
  NoDup (full <$> s) ∧ Forall (λ n, path_ok (n_path n)) s.

(** Every id is a name for its node and for no other, and is not empty. *)
Definition ids_ok (s : list node) : Prop :=
  ∀ m, m ∈ s → n_uuid m ≠ "" ∧ cmds.matching_nodes s (n_uuid m) = [m].

(** No node lies at or below both [r1] and [r2]. *)
Definition apart (s : list node) (r1 r2 : node) : Prop :=
  ∀ m, m ∈ s → n_path r1 `prefix_of` n_path m → n_path r2 `prefix_of` n_path m → False.

(** The joints directly under the world. *)
Definition root_joints_of (s : list node) : list node :=
  filter (λ n, n_joint n = true ∧ length (n_path n) = 1) s.

(** The nodes of a scene without their curves. *)
Definition skeleton (s : list node) : list node := (λ n, with_curves n ∅) <$> s.

(** Nothing but keys, the clipboard and the output differs between [w] and [w']. *)
Definition keys_only (w w' : world) : Prop :=
  skeleton (w_scene w') = skeleton (w_scene w) ∧ w_fs w' = w_fs w ∧
  w_selection w' = w_selection w ∧ imported_joint_uuids w' = imported_joint_uuids w ∧
  w_fbx_loaded w' = w_fbx_loaded w ∧ w_fbx_options w' = w_fbx_options w.

(** The scene, the clipboard and the id list are the same, and so is every
    file but [out]. *)
Definition scene_kept (out : string) (w w' : world) : Prop :=
  w_scene w' = w_scene w ∧ w_clipboard w' = w_clipboard w ∧
  imported_joint_uuids w' = imported_joint_uuids w ∧
  filter (λ e, e.1 ≠ out) (fs_files (w_fs w')) = filter (λ e, e.1 ≠ out) (fs_files (w_fs w)) ∧
  fs_dirs (w_fs w) ⊆ fs_dirs (w_fs w').

(** * Properties *)

(** ** Strings *)

Example split_path : PyStr.split "|" "|Root|Spine" = [""; "Root"; "Spine"].
Proof. reflexivity. Qed.

Example splitext_walk : PyStr.splitext "Walk.fbx" = ("Walk", ".fbx").
Proof. reflexivity. Qed.

Example splitext_hidden : PyStr.splitext ".fbx" = (".fbx", "").
Proof. reflexivity. Qed.

Example endswith_fbx : PyStr.endswith ".fbx" (PyStr.lower "Run.FBX") = true.
Proof. reflexivity. Qed.

(** ** Running the monad *)

Lemma bind_ok {A B} (m : M A) (k : A → M B) w a w' :
  m w = (Ok a, w') → bind m k w = k a w'.
Proof. unfold bind. by intros ->. Qed.

Lemma bind_raise {A B} (m : M A) (k : A → M B) w e w' :
  m w = (Raise e, w') → bind m k w = (Raise e, w').
Proof. unfold bind. by intros ->. Qed.


Lemma bind_print {B} s (k : unit → M B) w : bind (print s) k w = k tt (emit (Stdout s) w).
Proof. done. Qed.
Lemma bind_warning {B} s (k : unit → M B) w : bind (cmds_warning s) k w = k tt (emit (Warn s) w).
Proof. done. Qed.
Lemma bind_gets {A B} (f : world → A) (k : A → M B) w : bind (gets f) k w = k (f w) w.
Proof. done. Qed.
Lemma bind_modify {B} f (k : unit → M B) w : bind (modify f) k w = k tt (f w).
Proof. done. Qed.
Lemma bind_ret {A B} (a : A) (k : A → M B) w : bind (ret a) k w = k a w.
Proof. done. Qed.

(** ** Dictionaries *)

Lemma dict_get_set k k' v d :
  dict_get k (dict_set k' v d) = if decide (k = k') then Some v else dict_get k d.
Proof.
  induction d as [|[k0 v0] d IH]; simpl.
  - repeat case_decide; congruence.
  - destruct (decide (k' = k0)); simpl; repeat case_decide; try congruence.
Qed.

Lemma dict_set_keys k v d :
  (dict_set k v d).*1 = if decide (k ∈ d.*1) then d.*1 else d.*1 ++ [k].
Proof.
  induction d as [|[k0 v0] d IH].
  - rewrite decide_False; [done | apply not_elem_of_nil].
  - cbn [dict_set]. destruct (decide (k = k0)) as [->|Hne]; rewrite !fmap_cons; cbn [fst].
    + rewrite decide_True; [done | left].
    + rewrite IH. destruct (decide (k ∈ d.*1)).
      * rewrite decide_True; [done | by right].
      * rewrite decide_False; [done |].
        intros Hin. apply elem_of_cons in Hin as [?|?]; done.
Qed.

Lemma dict_of_snoc kvs kv : dict_of (kvs ++ [kv]) = dict_set kv.1 kv.2 (dict_of kvs).
Proof. unfold dict_of. by rewrite foldl_snoc. Qed.

Lemma dict_of_NoDup kvs : NoDup (dict_of kvs).*1.
Proof.
  induction kvs as [|kv kvs IH] using rev_ind; [constructor|].
  rewrite dict_of_snoc, dict_set_keys. case_decide; [done|].
  apply NoDup_app. split_and!; [done | | apply NoDup_singleton].
  intros x Hx Hx'. apply list_elem_of_singleton in Hx'. by subst.
Qed.

Lemma dict_of_get kvs k :
  dict_get k (dict_of kvs) = snd <$> last (filter (λ kv, kv.1 = k) kvs).
Proof.
  induction kvs as [|kv kvs IH] using rev_ind; [done|].
  rewrite dict_of_snoc, dict_get_set, filter_app, IH. simpl.
  rewrite filter_cons, filter_nil. repeat case_decide; try congruence.
  - by rewrite last_snoc.
  - by rewrite app_nil_r.
Qed.

Lemma namespace_dict_get joints k :
  dict_get k (namespace_dict joints) = last (filter (λ j, remove_namespace j = k) joints).
Proof.
  unfold namespace_dict. rewrite dict_of_get.
  induction joints as [|j joints IH] using rev_ind; [done|].
  rewrite fmap_app, !filter_app. simpl. rewrite !filter_cons, !filter_nil. simpl.
  case_decide.
  - by rewrite !last_snoc.
  - by rewrite !app_nil_r.
Qed.

Lemma dict_set_entry (P : string → string → Prop) k v d :
  P k v → (∀ k' v', (k', v') ∈ d → P k' v') →
  ∀ k' v', (k', v') ∈ dict_set k v d → P k' v'.
Proof.
  intros Hkv. induction d as [|[k0 v0] d IH]; simpl; intros Hd k' v' Hin.
  - apply list_elem_of_singleton in Hin. by inversion Hin; subst.
  - case_decide.
    + apply elem_of_cons in Hin as [Hin|Hin].
      * by inversion Hin; subst.
      * apply Hd. by right.
    + apply elem_of_cons in Hin as [Hin|Hin].
      * inversion Hin; subst. apply Hd. by left.
      * apply IH; [|done]. intros k1 v1 H1. apply Hd. by right.
Qed.

(** Every entry of a namespace index is keyed by the stripped form of its own
    value, and its value is one of the indexed joints. *)
Lemma namespace_dict_entry joints k v :
  (k, v) ∈ namespace_dict joints → k = remove_namespace v ∧ v ∈ joints.
Proof.
  unfold namespace_dict. revert k v.
  induction joints as [|j joints IH] using rev_ind; intros k v.
  - intros Hin. by apply elem_of_nil in Hin.
  - rewrite fmap_app. simpl. rewrite dict_of_snoc. simpl.
    apply (dict_set_entry (λ k v, k = remove_namespace v ∧ v ∈ joints ++ [j])).
    + split; [done|]. apply elem_of_app. right. by left.
    + intros k' v' Hin. destruct (IH k' v' Hin) as [-> ?]. split; [done|].
      apply elem_of_app. by left.
Qed.

(** C9.  Within one hierarchy index every match key has exactly one entry; the
    joint stored under a key is the last joint of the traversal that resolves
    to that key; building the index never fails because of a collision: the
    namespace-insensitive index is a total function of the traversal, and the
    long-name index fails only where a key lookup itself fails. *)
Theorem index_last_write_wins (joints : list string) :
  (NoDup (namespace_dict joints).*1 ∧
   ∀ k, dict_get k (namespace_dict joints)
        = last (filter (λ j, remove_namespace j = k) joints)) ∧
  (∀ w, long_dict joints w =
        match mapM long_key joints w with
        | (Ok keys, w') => (Ok (dict_of (zip keys joints)), w')
        | (Raise e, w') => (Raise e, w')
        end) ∧
  (∀ kvs : list (string * string),
     NoDup (dict_of kvs).*1 ∧
     ∀ k, dict_get k (dict_of kvs) = snd <$> last (filter (λ kv, kv.1 = k) kvs)).
Proof.
  split_and!.
  - apply dict_of_NoDup.
  - apply namespace_dict_get.
  - intros w. unfold long_dict, bind. by destruct (mapM long_key joints w) as [[keys|e] w'].
  - intros kvs. split; [apply dict_of_NoDup | apply dict_of_get].
Qed.

(** ** Scene queries leave the world alone *)

Lemma node_named_pure name w r w' : cmds.node_named name w = (r, w') → w' = w.
Proof.
  unfold cmds.node_named. destruct (cmds.resolve _ _); [destruct (_ !! _)|]; congruence.
Qed.

Lemma node_named_missing name w :
  cmds.matching (w_scene w) name = [] → ∃ e, cmds.node_named name w = (Raise e, w).
Proof. unfold cmds.node_named, cmds.resolve. intros ->. eauto. Qed.

Lemma objExists_run name w :
  cmds.objExists name w = (Ok (bool_decide (cmds.matching (w_scene w) name ≠ [])), w).
Proof. done. Qed.

Lemma listRelatives_allDescendents_pure name w r w' :
  cmds.listRelatives_allDescendents name w = (r, w') → w' = w.
Proof.
  unfold cmds.listRelatives_allDescendents, bind.
  destruct (cmds.node_named name w) as [[x|e] w1] eqn:Hn;
    apply node_named_pure in Hn as ->; [|congruence].
  unfold gets. simpl. destruct (_ <$> _); unfold ret; congruence.
Qed.

Lemma listRelatives_allDescendents_missing name w :
  cmds.matching (w_scene w) name = [] →
  ∃ e, cmds.listRelatives_allDescendents name w = (Raise e, w).
Proof.
  intros Hm. destruct (node_named_missing name w Hm) as [e He].
  exists e. unfold cmds.listRelatives_allDescendents. by apply bind_raise.
Qed.

Lemma listRelatives_parent_pure name w r w' :
  cmds.listRelatives_parent name w = (r, w') → w' = w.
Proof.
  unfold cmds.listRelatives_parent, bind.
  destruct (cmds.node_named name w) as [[x|e] w1] eqn:Hn;
    apply node_named_pure in Hn as ->; [|congruence].
  destruct (n_path x.2) as [|? [|? ?]]; unfold ret; congruence.
Qed.

(** ** The existence guard of the first transfer *)

(** C10.  When the imported root or the rig root is absent from the scene,
    [transfer_animation] prints its warning and returns with the world
    otherwise untouched, so no animation channel of any joint changes.
    [transfer_animation_ignore_namespace] has no such guard: with an absent
    root it prints no warning and leaves through the exception that
    [listRelatives] raises. *)
Theorem transfer_guard `{Host} (w : world) (root_a root_b : string) :
  cmds.objExists root_a w = (Ok false, w) ∨ cmds.objExists root_b w = (Ok false, w) →
  transfer_animation root_a root_b w
    = (Ok tt, emit (Warn "Imported or rig root not found. Skipping transfer.") w) ∧
  w_scene (transfer_animation root_a root_b w).2 = w_scene w ∧
  ∃ e, transfer_animation_ignore_namespace root_a root_b w = (Raise e, w).
Proof.
  rewrite !objExists_run. intros Hmiss.
  assert (Hguard : negb (bool_decide (cmds.matching (w_scene w) root_a ≠ []))
                   || negb (bool_decide (cmds.matching (w_scene w) root_b ≠ [])) = true).
  { destruct Hmiss as [Hm|Hm]; inversion Hm as [Hb]; rewrite Hb; simpl; [done|].
    apply orb_true_r. }
  assert (Hrun : transfer_animation root_a root_b w
    = (Ok tt, emit (Warn "Imported or rig root not found. Skipping transfer.") w)).
  { unfold transfer_animation.
    rewrite (bind_ok _ _ _ _ _ (objExists_run root_a w)).
    rewrite (bind_ok _ _ _ _ _ (objExists_run root_b w)).
    by rewrite Hguard. }
  split_and!; [done | by rewrite Hrun |].
  unfold transfer_animation_ignore_namespace.
  destruct (cmds.listRelatives_allDescendents root_a w) as [[d1|e] w1] eqn:H1;
    pose proof (listRelatives_allDescendents_pure _ _ _ _ H1) as ->.
  - rewrite (bind_ok _ _ _ _ _ H1).
    destruct Hmiss as [Hm|Hm]; inversion Hm as [Hb]; apply bool_decide_eq_false in Hb;
      apply dec_stable in Hb;
      destruct (listRelatives_allDescendents_missing _ _ Hb) as [e He].
    + congruence.
    + exists e. by apply bind_raise.
  - exists e. by apply bind_raise.
Qed.

Lemma transfer_guard_witness :
  (cmds.objExists "Ghost" sample_world = (Ok false, sample_world) ∨
   cmds.objExists "A:Root" sample_world = (Ok false, sample_world)) ∧
  transfer_animation (H := sample_host) "Ghost" "A:Root" sample_world
    = (Ok tt, emit (Warn "Imported or rig root not found. Skipping transfer.") sample_world) ∧
  w_scene (transfer_animation (H := sample_host) "Ghost" "A:Root" sample_world).2
    = w_scene sample_world ∧
  ∃ e, transfer_animation_ignore_namespace (H := sample_host) "Ghost" "A:Root" sample_world
       = (Raise e, sample_world).
Proof.
  split; [left; reflexivity|].
  apply (transfer_guard (H := sample_host)). left. reflexivity.
Defined.

(** ** Match keys *)

Example key_with_namespace :
  remove_namespace "|ns1:Root|ns1:Hand" = "Hand" ∧
  remove_namespace "|ns2:Root|ns2:Hand" = "Hand" ∧
  (long_key "|A:Root|A:Spine|A:Hand" sample_world).1 = Ok "A:Hand".
Proof. by vm_compute. Qed.

(** C2 (the code departs from it).  The namespace-insensitive transfer takes
    its key from the long name that [listRelatives(fullPath=True)] returns, not
    from the local name: for a joint without namespace the key is the whole
    long name, where the specification has the local name.  The joints [Hand]
    of two rigs without namespaces therefore do not match, and the keys of
    [|RigA|Hand] do not reach [|RigB|Hand]. *)
Theorem plain_joint_key_is_long_name :
  remove_namespace "|RigA|Hand" = "|RigA|Hand" ∧
  spec_match_key true (joint ["RigA"; "Hand"] "p1" []) = "Hand" ∧
  spec_match_key true (joint ["RigB"; "Hand"] "q1" []) = "Hand" ∧
  let w' := (transfer_animation_ignore_namespace (H := sample_host) "RigA" "RigB"
               (world_of plain_rigs)).2 in
  chan (world_of plain_rigs) 1 "translateX" = two_keys ∧
  chan w' 3 "translateX" = [].
Proof. by vm_compute. Qed.

(** ** Detecting the imported root *)

Lemma listRelatives_parent_shape name w p :
  cmds.listRelatives_parent name w = (Ok p, w) → p = None ∨ ∃ x, p = Some [x].
Proof.
  unfold cmds.listRelatives_parent, bind.
  destruct (cmds.node_named name w) as [[x|e] w1]; [|done].
  destruct (n_path x.2) as [|? [|? ?]]; unfold ret; intros [= <-]; eauto.
Qed.

Lemma first_parentless_found l w r w' :
  first_parentless l w = (Ok (Some r), w') →
  r ∈ l ∧ cmds.listRelatives_parent r w = (Ok None, w).
Proof.
  induction l as [|j l IH]; simpl; [done|].
  unfold bind at 1.
  destruct (cmds.listRelatives_parent j w) as [[p|e] w1] eqn:Hp; [|done].
  pose proof (listRelatives_parent_pure _ _ _ _ Hp) as ->.
  destruct (listRelatives_parent_shape _ _ _ Hp) as [->|[x ->]]; simpl.
  - intros [= <- _]. split; [left | done].
  - intros Hr. destruct (IH Hr). split; [by right | done].
Qed.

Lemma first_parentless_none l w :
  (∀ j, j ∈ l → ∃ p, cmds.listRelatives_parent j w = (Ok (Some [p]), w)) →
  first_parentless l w
    = (Ok None, emit (Warn "No valid root joint found in new joints!") w).
Proof.
  induction l as [|j l IH]; intros Hall; simpl; [done|].
  destruct (Hall j) as [p Hp]; [left|].
  rewrite (bind_ok _ _ _ _ _ Hp). simpl. apply IH.
  intros j' Hj'. apply Hall. by right.
Qed.

(** ** Nodes by name *)

Lemma node_named_ok name w i n :
  cmds.resolve (w_scene w) name = Ok i → w_scene w !! i = Some n →
  cmds.node_named name w = (Ok (i, n), w).
Proof. unfold cmds.node_named. by intros -> ->. Qed.

Lemma matches_same name n n' :
  n_path n' = n_path n → n_uuid n' = n_uuid n → cmds.matches name n' = cmds.matches name n.
Proof. unfold cmds.matches, full. by intros -> ->. Qed.

Lemma matching_from_insert k s i n n' name :
  s !! i = Some n → cmds.matches name n' = cmds.matches name n →
  cmds.matching_from k (<[i:=n']> s) name = cmds.matching_from k s name.
Proof.
  revert k i. induction s as [|m s IH]; intros k [|i] Hi Hm; simpl in *; try done.
  - injection Hi as ->. by rewrite Hm.
  - by rewrite (IH _ _ Hi Hm).
Qed.

Lemma resolve_insert s i n n' name :
  s !! i = Some n → n_path n' = n_path n → n_uuid n' = n_uuid n →
  cmds.resolve (<[i:=n']> s) name = cmds.resolve s name.
Proof.
  intros Hi Hp Hu. unfold cmds.resolve, cmds.matching.
  by rewrite (matching_from_insert _ _ _ _ _ _ Hi (matches_same name _ _ Hp Hu)).
Qed.

Lemma filter_insert_drop (P : node → Prop) `{∀ x, Decision (P x)} (s : list node) i n n' :
  s !! i = Some n → ¬ P n → ¬ P n' → filter P (<[i:=n']> s) = filter P s.
Proof.
  revert i. induction s as [|m s IH]; intros [|i] Hi Hn Hn'; simpl in *; try done.
  - injection Hi as ->. by rewrite !filter_cons, !decide_False.
  - rewrite !filter_cons. by rewrite (IH _ Hi Hn Hn').
Qed.

Lemma with_locked_id n : n_locked n = false → with_locked n false = n.
Proof. destruct n; simpl. by intros ->. Qed.

Lemma lockNode_query_ok x w i n :
  cmds.node_named x w = (Ok (i, n), w) → cmds.lockNode_query x w = (Ok [n_locked n], w).
Proof. intros Hn. unfold cmds.lockNode_query. by rewrite (bind_ok _ _ _ _ _ Hn). Qed.

Lemma lockNode_ok x w i n b :
  cmds.node_named x w = (Ok (i, n), w) →
  cmds.lockNode x b w = (Ok tt, set_scene (<[i := with_locked n b]> (w_scene w)) w).
Proof. intros Hn. unfold cmds.lockNode. by rewrite (bind_ok _ _ _ _ _ Hn). Qed.

Lemma delete_ok x w i n :
  cmds.node_named x w = (Ok (i, n), w) → n_locked n = false →
  cmds.delete x w =
    if n_readonly n
    then (Ok tt, emit (Warn ("Non-deletable node cannot be deleted: " +:+ x)) w)
    else (Ok tt, set_scene (filter (λ m, ¬ n_path n `prefix_of` n_path m) (w_scene w)) w).
Proof.
  intros Hn Hl. unfold cmds.delete. rewrite (bind_ok _ _ _ _ _ Hn). cbn [snd].
  rewrite Hl. by destruct (n_readonly n).
Qed.

Lemma delete_root_found w u x i n :
  find_by_uuid u (n_uuid <$> w_scene w) w = (Ok (Some x), w) → x ≠ "" →
  cmds.resolve (w_scene w) x = Ok i → w_scene w !! i = Some n →
  ∃ w1, delete_root u w = (Ok false, w1) ∧
    imported_joint_uuids w1 = imported_joint_uuids w ∧
    (n_readonly n = false →
       w_scene w1 = filter (λ m, ¬ n_path n `prefix_of` n_path m) (w_scene w)) ∧
    (n_readonly n = true →
       w_scene w1 = <[i := with_locked n false]> (w_scene w) ∧
       Stdout ("Failed to delete: " +:+ x) ∈ w_out w1).
Proof.
  intros Hfind Hx Hres Hi.
  unfold delete_root, cmds.ls_uuid. rewrite bind_gets.
  rewrite (bind_ok _ _ _ _ _ Hfind).
  assert (Ht : truthy (Some x) = true) by (simpl; by rewrite bool_decide_eq_false_2).
  rewrite Ht. cbn [negb]. change (default "" (Some x)) with x. rewrite bind_print.
  set (w0 := emit _ w).
  assert (Hn0 : cmds.node_named x w0 = (Ok (i, n), w0)) by by apply node_named_ok.
  rewrite (bind_ok _ _ _ _ _ (lockNode_query_ok _ _ _ _ Hn0)).
  (* the world in which the delete runs, with the node unlocked *)
  assert (Hunlock : ∃ w2,
    (match n_locked n with
     | true => bind (print ("Unlocking " +:+ x +:+ "...")) (λ _, cmds.lockNode x false)
     | false => ret tt
     end) w0 = (Ok tt, w2) ∧
    w_scene w2 = <[i := with_locked n false]> (w_scene w) ∧
    imported_joint_uuids w2 = imported_joint_uuids w).
  { destruct (n_locked n) eqn:Hl.
    - rewrite bind_print. eexists. split; [apply lockNode_ok; by apply node_named_ok|]. done.
    - exists w0. split_and!; [done | | done]. simpl.
      rewrite (with_locked_id n Hl). symmetry. by apply list_insert_id. }
  destruct Hunlock as (w2 & Hrun2 & Hs2 & Hu2).
  rewrite (bind_ok _ _ _ _ _ Hrun2), bind_print.
  set (w3 := emit _ w2).
  assert (Hn3 : cmds.node_named x w3 = (Ok (i, with_locked n false), w3)).
  { apply node_named_ok; simpl; rewrite Hs2.
    - by rewrite (resolve_insert _ _ _ _ _ Hi).
    - apply list_lookup_insert_eq. by eapply lookup_lt_Some. }
  pose proof (delete_ok _ _ _ _ Hn3 eq_refl) as Hd.
  cbn [n_readonly with_locked n_path] in Hd.
  destruct (n_readonly n) eqn:Hro; rewrite (bind_ok _ _ _ _ _ Hd).
  - rewrite (bind_ok _ _ _ _ _ (objExists_run _ _)).
    rewrite bool_decide_eq_true_2.
    + rewrite bind_print. unfold ret. eexists. split; [done|].
      split_and!; [done | done |]. intros _. split; [done|]. simpl. left.
    + simpl. rewrite Hs2. unfold cmds.matching.
      rewrite (matching_from_insert _ _ _ _ (with_locked n false) x Hi
                 (matches_same x n (with_locked n false) eq_refl eq_refl)).
      unfold cmds.resolve, cmds.matching in Hres.
      destruct (cmds.matching_from 0 (w_scene w) x); done.
  - rewrite (bind_ok _ _ _ _ _ (objExists_run _ _)).
    assert (Hs : w_scene (set_scene (filter (λ m, ¬ n_path n `prefix_of` n_path m) (w_scene w3)) w3)
                 = filter (λ m, ¬ n_path n `prefix_of` n_path m) (w_scene w)).
    { simpl. rewrite Hs2. apply (filter_insert_drop _ _ _ _ _ Hi); simpl; by intros []. }
    destruct (bool_decide _); rewrite bind_print; unfold ret; eexists; (split; [done|]);
      (split_and!; [done | by intros _ | done]).
Qed.


Lemma find_by_uuid_scene u l w r w' :
  find_by_uuid u l w = (r, w') →
  w' = w ∧ ∀ w2, w_scene w2 = w_scene w → find_by_uuid u l w2 = (r, w2).
Proof.
  induction l as [|x l IH]; simpl.
  - intros [= <- <-]. done.
  - unfold cmds.ls_uuid_of. rewrite bind_gets.
    destruct (n_uuid <$> cmds.matching_nodes (w_scene w) x) as [|v vs] eqn:Hm.
    + intros [= <- <-]. split; [done|]. intros w2 Hw2. by rewrite bind_gets, Hw2, Hm.
    + case_decide.
      * intros [= <- <-]. split; [done|]. intros w2 Hw2.
        by rewrite bind_gets, Hw2, Hm, decide_True.
      * intros Hr. destruct (IH Hr) as [-> IH']. split; [done|]. intros w2 Hw2.
        rewrite bind_gets, Hw2, Hm, decide_False by done. by apply IH'.
Qed.

Lemma find_by_uuid_carries u l w x w' :
  find_by_uuid u l w = (Ok (Some x), w') →
  head (n_uuid <$> cmds.matching_nodes (w_scene w) x) = Some u.
Proof.
  induction l as [|y l IH]; simpl; [done|].
  unfold cmds.ls_uuid_of. rewrite bind_gets.
  destruct (n_uuid <$> cmds.matching_nodes (w_scene w) y) as [|v vs] eqn:Hm; [done|].
  case_decide.
  - intros [= <- <-]. by rewrite Hm; subst.
  - done.
Qed.

(** ** Cleanup *)

Lemma try_except_ok {A} (m : M A) h w a w' :
  m w = (Ok a, w') → try_except m h w = (Ok a, w').
Proof. unfold try_except. by intros ->. Qed.

Lemma delete_imported_skeleton_ok w : (delete_imported_skeleton w).1 = Ok tt.
Proof.
  unfold delete_imported_skeleton. rewrite bind_print, bind_gets.
  cbn [imported_joint_uuids emit].
  destruct (imported_joint_uuids w) as [|u rest]; [done|].
  rewrite !bind_print. unfold bind, try_except.
  destruct (delete_root u _) as [[[]|e] w1]; done.
Qed.

(** C5 (as the code has it).  [delete_imported_skeleton] never raises.  It
    looks up the first captured id only.  When that id leads to a live node,
    the node's lock is cleared and the node is deleted together with
    everything below it; a node that is still there afterwards is reported
    with "Failed to delete" and nothing is raised; the id list is empty
    afterwards.  When no live node carries the id, the function returns before
    the list is cleared: scene and id list stay as they were. *)
Theorem cleanup_by_root_id (w : world) :
  (delete_imported_skeleton w).1 = Ok tt ∧
  ∀ u rest, imported_joint_uuids w = u :: rest →
    let w' := (delete_imported_skeleton w).2 in
    (∀ x i n,
       find_by_uuid u (n_uuid <$> w_scene w) w = (Ok (Some x), w) → x ≠ "" →
       cmds.resolve (w_scene w) x = Ok i → w_scene w !! i = Some n →
       n_uuid n = u ∧
       imported_joint_uuids w' = [] ∧
       (n_readonly n = false →
          w_scene w' = filter (λ m, ¬ n_path n `prefix_of` n_path m) (w_scene w)) ∧
       (n_readonly n = true →
          w_scene w' = <[i := with_locked n false]> (w_scene w) ∧
          Stdout ("Failed to delete: " +:+ x) ∈ w_out w')) ∧
    (find_by_uuid u (n_uuid <$> w_scene w) w = (Ok None, w) →
       w_scene w' = w_scene w ∧ imported_joint_uuids w' = u :: rest).
Proof.
  split; [apply delete_imported_skeleton_ok|].
  intros u rest Hu w'. subst w'.
  unfold delete_imported_skeleton. rewrite bind_print, bind_gets.
  cbn [imported_joint_uuids emit]. rewrite Hu, !bind_print.
  set (w0 := emit _ (emit _ (emit _ w))).
  split.
  - intros x i n Hfind Hx Hres Hi.
    pose proof (find_by_uuid_carries _ _ _ _ _ Hfind) as Hc.
    apply find_by_uuid_scene in Hfind as [_ Hfind].
    destruct (delete_root_found w0 u x i n (Hfind w0 eq_refl) Hx Hres Hi)
      as (w1 & Hrun & Hu1 & Hdel & Hkeep).
    split.
    { unfold cmds.matching_nodes, cmds.resolve in *.
      destruct (cmds.matching (w_scene w) x) as [|j [|]]; try done.
      injection Hres as ->. simpl in Hc. rewrite Hi in Hc. simpl in Hc. congruence. }
    rewrite (bind_ok _ _ _ _ _ (try_except_ok _ _ _ _ _ Hrun)).
    rewrite bind_modify. unfold print, modify. simpl.
    split_and!; [done | intros Hro; by rewrite (Hdel Hro) | intros Hro].
    destruct (Hkeep Hro) as [-> Hout]. split; [done | by right].
  - intros Hfind. apply find_by_uuid_scene in Hfind as [_ Hfind].
    assert (Hrun : delete_root u w0
      = (Ok true, emit (Stdout ("No root joint found for UUID " +:+ u)) w0)).
    { unfold delete_root, cmds.ls_uuid. rewrite bind_gets.
      by rewrite (bind_ok _ _ _ _ _ (Hfind w0 eq_refl)). }
    rewrite (bind_ok _ _ _ _ _ (try_except_ok _ _ _ _ _ Hrun)). done.
Qed.

Lemma cleanup_by_root_id_witness :
  let w := set_uuids ["i0"; "i1"; "i2"] (world_of (rig_a ++ walk_skeleton)) in
  let w' := (delete_imported_skeleton w).2 in
  imported_joint_uuids w = "i0" :: ["i1"; "i2"] ∧
  find_by_uuid "i0" (n_uuid <$> w_scene w) w = (Ok (Some "i0"), w) ∧
  "i0" ≠ "" ∧
  cmds.resolve (w_scene w) "i0" = Ok 3 ∧
  (∃ n, w_scene w !! 3 = Some n ∧ n_readonly n = false ∧
        w_scene w' = filter (λ m, ¬ n_path n `prefix_of` n_path m) (w_scene w)) ∧
  imported_joint_uuids w' = [] ∧
  w_scene w' = rig_a.
Proof.
  intros w w'.
  assert (Hu : imported_joint_uuids w = "i0" :: ["i1"; "i2"]) by reflexivity.
  assert (Hfind : find_by_uuid "i0" (n_uuid <$> w_scene w) w = (Ok (Some "i0"), w))
    by reflexivity.
  assert (Hx : "i0" ≠ "") by discriminate.
  assert (Hres : cmds.resolve (w_scene w) "i0" = Ok 3) by reflexivity.
  destruct (cleanup_by_root_id w) as [_ Hc].
  destruct (Hc _ _ Hu) as [Hfound _].
  destruct (Hfound "i0" 3 _ Hfind Hx Hres eq_refl) as (_ & Hnil & Hdel & _).
  split_and!; [done | done | done | done | | done |].
  - eexists. split_and!; [reflexivity | reflexivity | exact (Hdel eq_refl)].
  - subst w'. rewrite (Hdel eq_refl). reflexivity.
Defined.

(** The id list survives a cleanup whose root id leads to no live node. *)
Lemma stale_id_is_kept :
  let w := set_uuids ["gone"; "i1"] sample_world in
  (delete_imported_skeleton w).1 = Ok tt ∧
  imported_joint_uuids (delete_imported_skeleton w).2 = ["gone"; "i1"] ∧
  imported_joint_uuids (delete_imported_skeleton w).2 ≠ [].
Proof. by vm_compute. Qed.

(** ** Export *)

Lemma need_plugin_ok w : w_fbx_loaded w = true → mel.need_plugin w = (Ok tt, w).
Proof. intros Hl. unfold mel.need_plugin. by rewrite bind_gets, Hl. Qed.

Lemma set_option_ok o w :
  w_fbx_loaded w = true →
  mel.set_option o w = (Ok tt, set_fbx_options (o :: w_fbx_options w) w).
Proof.
  intros Hl. unfold mel.set_option. by rewrite (bind_ok _ _ _ _ _ (need_plugin_ok _ Hl)).
Qed.

Lemma makedirs_run p w :
  let fs := w_fs w in
  let missing := filter (λ d, d ∉ fs_dirs fs) (os.ancestors p) in
  os.makedirs p w =
    if decide (p ∈ fs_dirs fs ∨ p ∈ (fs_files fs).*1)
    then (Raise (OSError ("File exists: " +:+ p)), w)
    else if decide (Exists (λ d, d ∈ fs_denied fs) (missing ++ [p]))
    then (Raise (OSError ("Permission denied: " +:+ p)), w)
    else (Ok tt, set_fs (Fs (fs_dirs fs ++ missing ++ [p]) (fs_files fs) (fs_denied fs)) w).
Proof.
  intros fs missing. unfold os.makedirs. rewrite bind_gets. fold fs. fold missing.
  repeat case_decide; done.
Qed.

Lemma FBXExport_run file w :
  w_fbx_loaded w = true →
  mel.FBXExport file w =
    if decide (file ∈ fs_denied (w_fs w))
    then (Raise (RuntimeError ("Could not write file: " +:+ file)), w)
    else (Ok tt,
          set_fs (Fs (fs_dirs (w_fs w))
                     ((file, Some (w_selection w ≫= cmds.matching_nodes (w_scene w)))
                        :: filter (λ e, e.1 ≠ file) (fs_files (w_fs w)))
                     (fs_denied (w_fs w))) w).
Proof.
  intros Hl. unfold mel.FBXExport. rewrite (bind_ok _ _ _ _ _ (need_plugin_ok _ Hl)).
  rewrite bind_gets. by case_decide.
Qed.

Lemma export_selection_run (out : string) w :
  w_fbx_loaded w = true ∨ w_fbx_available w = true →
  ∃ opts,
  export_selection out w
  = let w1 := set_fbx_options opts (set_fbx_loaded true w) in
    if decide (out ∈ fs_denied (w_fs w))
    then (Ok tt, emit (Warn ("FBX Export Failed: " +:+ "Could not write file: " +:+ out)) w1)
    else (Ok tt, emit (Stdout ("Successfully exported: " +:+ out))
           (set_fs (Fs (fs_dirs (w_fs w))
                     ((out, Some (w_selection w ≫= cmds.matching_nodes (w_scene w)))
                        :: filter (λ e, e.1 ≠ out) (fs_files (w_fs w)))
                     (fs_denied (w_fs w))) w1)).
Proof.
  intros Hplug. eexists. unfold export_selection.
  unfold cmds.pluginInfo_loaded. rewrite bind_gets.
  assert (Hload : ∃ w0, (if negb (w_fbx_loaded w) then cmds.loadPlugin else ret tt) w = (Ok tt, w0)
            ∧ w0 = set_fbx_loaded true w).
  { destruct (w_fbx_loaded w) eqn:Hl; simpl.
    - exists w. split; [done|]. destruct w; simpl in *. by subst.
    - destruct Hplug as [?|Ha]; [done|]. eexists. split; [|done].
      unfold cmds.loadPlugin. by rewrite bind_gets, Ha. }
  destruct Hload as (w0 & Hload & ->).
  rewrite (bind_ok _ _ _ _ _ Hload).
  unfold cmds.playbackOptions_minTime, cmds.playbackOptions_maxTime. rewrite !bind_gets.
  do 8 (erewrite bind_ok; [|apply set_option_ok; reflexivity]).
  unfold try_except, bind.
  rewrite FBXExport_run by done. cbn [w_fs set_fbx_options set_fbx_loaded w_selection w_scene].
  case_decide; reflexivity.
Qed.

Lemma export_selected `{Host} w rig_root folder name prefix suffix js :
  cmds.matching (w_scene w) rig_root ≠ [] →
  cmds.ls_dag_joints rig_root w = (Ok js, w) → js ≠ [] →
  cmds.select js w = (Ok tt, set_selection js w) →
  let dir := abspath folder in
  let out := output_path dir name (default "" prefix) (default "" suffix) in
  export_fbx_animation rig_root folder name prefix suffix w =
  (made <-
     (if negb (bool_decide (dir ∈ fs_dirs (w_fs w) ∨ dir ∈ (fs_files (w_fs w)).*1)) then
        try_except (os.makedirs dir ;;; ret true)
          (λ e, cmds_warning ("Failed to create export folder: " +:+ exn_str e) ;;;
                ret false)
      else ret true) ;;
   if negb made then ret tt
   else print ("Exporting: " +:+ out) ;;; export_selection out) (set_selection js w).
Proof.
  intros Hroot Hjs Hne Hsel dir out.
  unfold export_fbx_animation.
  rewrite (bind_ok _ _ _ _ _ (objExists_run _ _)).
  rewrite bool_decide_eq_true_2 by done. cbn [negb].
  rewrite (bind_ok _ _ _ _ _ Hjs).
  rewrite bool_decide_eq_false_2 by done.
  rewrite (bind_ok _ _ _ _ _ Hsel).
  unfold os.path_exists. rewrite bind_gets. done.
Qed.

Lemma select_run js w :
  cmds.select js w = (Ok tt, set_selection js w) ∨ ∃ e, cmds.select js w = (Raise e, w).
Proof.
  unfold cmds.select.
  assert (Hfor : for_ js (λ x, bind (cmds.node_named x) (λ _, ret tt)) w = (Ok tt, w)
                 ∨ ∃ e, for_ js (λ x, bind (cmds.node_named x) (λ _, ret tt)) w = (Raise e, w)).
  { induction js as [|j js IH]; simpl; [by left|].
    destruct (cmds.node_named j w) as [[x|e] w1] eqn:Hn;
      pose proof (node_named_pure _ _ _ _ Hn) as ->.
    - rewrite (bind_ok _ _ _ _ _ (bind_ok _ _ _ _ _ Hn)). exact IH.
    - right. exists e. apply bind_raise. by apply bind_raise. }
  destruct Hfor as [Hok|[e He]].
  - left. by rewrite (bind_ok _ _ _ _ _ Hok).
  - right. exists e. by apply bind_raise.
Qed.

Lemma try_except_raise {A} (m : M A) h w e w' :
  m w = (Raise e, w') → try_except m h w = h e w'.
Proof. unfold try_except. by intros ->. Qed.

Lemma rsplit_dot_none s : PyStr.contains "." s = false → PyStr.rsplit_dot s = None.
Proof.
  induction s as [|c s IH]; simpl; [done|].
  intros Hc. apply orb_false_iff in Hc as [Hc1 Hc2]. by rewrite (IH Hc2), Hc1.
Qed.

Lemma splitext_stem stem ext :
  PyStr.all_dots stem = false → PyStr.contains "." ext = false →
  PyStr.splitext (stem +:+ "." +:+ ext) = (stem, "." +:+ ext).
Proof.
  intros Hd He. unfold PyStr.splitext.
  change ("." +:+ ext) with (String "." ext).
  assert (Hr : PyStr.rsplit_dot (stem +:+ String "." ext) = Some (stem, String "." ext)).
  { clear Hd. induction stem as [|c stem IH].
    - change ("" +:+ String "." ext) with (String "." ext). simpl.
      by rewrite (rsplit_dot_none _ He).
    - change (String c stem +:+ String "." ext) with (String c (stem +:+ String "." ext)).
      simpl. by rewrite IH. }
  by rewrite Hr, Hd.
Qed.

Lemma path_join_plain dir file :
  dir ≠ "" → PyStr.endswith "/" dir = false → PyStr.startswith "/" file = false →
  os.path_join dir file = dir +:+ "/" +:+ file.
Proof.
  intros Hd He Hs. unfold os.path_join. rewrite Hs, He.
  by rewrite bool_decide_eq_false_2.
Qed.

(** C8 (as the code has it).  When the target rig root is in the scene and has
    joints that can be selected, the FBX plug-in is loaded or can be loaded,
    the export folder exists or can be created and the output path is
    writable, [export_fbx_animation] writes exactly one file, at
    [abspath(output_folder)] joined with [<prefix><animation_name><suffix>.fbx]
    (backslashes turned into slashes), leaves every other file alone, and has
    created the folder with its missing ancestors when it did not exist.  With
    a rig root that is not in the scene, or one without joints, it only warns
    and changes nothing; when the folder cannot be created, or the [FBXExport]
    call fails, it warns and returns with the files as they were.  The
    join is [<folder>/<file>] for a folder without trailing slash;
    [animation_name] is the file name cut at its last dot; the prefix and
    suffix default to [Anim_] and [_Final] in [batch_process_fbx]. *)
Theorem export_writes_one_file `{Host} (w : world) (rig_root folder name : string)
    (prefix suffix : option string) :
  let fs := w_fs w in
  let dir := abspath folder in
  let missing := filter (λ d, d ∉ fs_dirs fs) (os.ancestors dir) in
  let out := output_path dir name (default "" prefix) (default "" suffix) in
  let r := export_fbx_animation rig_root folder name prefix suffix w in
  (∀ js,
     cmds.matching (w_scene w) rig_root ≠ [] →
     cmds.ls_dag_joints rig_root w = (Ok js, w) → js ≠ [] →
     cmds.select js w = (Ok tt, set_selection js w) →
     w_fbx_loaded w = true ∨ w_fbx_available w = true →
     (dir ∈ fs_dirs fs ∨ dir ∈ (fs_files fs).*1) ∨
       ¬ Exists (λ d, d ∈ fs_denied fs) (missing ++ [dir]) →
     out ∉ fs_denied fs →
     r.1 = Ok tt ∧
     fs_files (w_fs r.2)
       = (out, Some (js ≫= cmds.matching_nodes (w_scene w)))
           :: filter (λ e, e.1 ≠ out) (fs_files fs) ∧
     fs_dirs (w_fs r.2)
       = (if decide (dir ∈ fs_dirs fs ∨ dir ∈ (fs_files fs).*1) then fs_dirs fs
          else fs_dirs fs ++ missing ++ [dir])) ∧
  (cmds.matching (w_scene w) rig_root = [] →
     r = (Ok tt, emit (Warn ("Rig root '" +:+ rig_root +:+ "' not found in the scene!")) w)) ∧
  (cmds.matching (w_scene w) rig_root ≠ [] →
   cmds.ls_dag_joints rig_root w = (Ok [], w) →
     r = (Ok tt, emit (Warn ("No joints found under '" +:+ rig_root +:+ "'!")) w)) ∧
  (∀ js,
     cmds.matching (w_scene w) rig_root ≠ [] →
     cmds.ls_dag_joints rig_root w = (Ok js, w) → js ≠ [] →
     cmds.select js w = (Ok tt, set_selection js w) →
     dir ∉ fs_dirs fs → dir ∉ (fs_files fs).*1 →
     Exists (λ d, d ∈ fs_denied fs) (missing ++ [dir]) →
     r = (Ok tt,
          emit (Warn ("Failed to create export folder: " +:+ "Permission denied: " +:+ dir))
            (set_selection js w))) ∧
  (∀ js,
     cmds.matching (w_scene w) rig_root ≠ [] →
     cmds.ls_dag_joints rig_root w = (Ok js, w) → js ≠ [] →
     cmds.select js w = (Ok tt, set_selection js w) →
     w_fbx_loaded w = true ∨ w_fbx_available w = true →
     (dir ∈ fs_dirs fs ∨ dir ∈ (fs_files fs).*1) ∨
       ¬ Exists (λ d, d ∈ fs_denied fs) (missing ++ [dir]) →
     out ∈ fs_denied fs →
     r.1 = Ok tt ∧
     fs_files (w_fs r.2) = fs_files fs ∧
     head (w_out r.2)
       = Some (Warn ("FBX Export Failed: " +:+ "Could not write file: " +:+ out))) ∧
  (dir ≠ "" → PyStr.endswith "/" dir = false →
   PyStr.startswith "/" (default "" prefix +:+ name +:+ default "" suffix +:+ ".fbx") = false →
   os.path_join dir (default "" prefix +:+ name +:+ default "" suffix +:+ ".fbx")
   = dir +:+ "/" +:+ default "" prefix +:+ name +:+ default "" suffix +:+ ".fbx") ∧
  (∀ stem ext, PyStr.all_dots stem = false → PyStr.contains "." ext = false →
     (PyStr.splitext (stem +:+ "." +:+ ext)).1 = stem) ∧
  (∀ source_folder export_folder source_rig_root target_rig_root,
     batch_process_fbx source_folder export_folder source_rig_root target_rig_root None None
     = batch_process_fbx source_folder export_folder source_rig_root target_rig_root
         (Some "Anim_") (Some "_Final")).
Proof.
  intros fs dir missing out r. split_and!.
  - intros js Hroot Hjs Hne Hsel Hplug Hdir Hout. subst r.
    rewrite (export_selected _ _ _ _ _ _ _ Hroot Hjs Hne Hsel).
    fold dir. fold out.
    destruct (export_selection_run out (emit (Stdout ("Exporting: " +:+ out)) (set_selection js w)) Hplug)
      as [opts1 Hrun1].
    case_bool_decide as Hex; cbn [negb].
    + rewrite bind_ret. cbn [negb]. rewrite bind_print, Hrun1.
      cbn [w_fs emit set_selection]. rewrite decide_False by done.
      rewrite decide_True by done. done.
    + destruct Hdir as [?|Hdir]; [done|].
      pose proof (makedirs_run dir (set_selection js w)) as Hmk.
      cbn [w_fs set_selection] in Hmk. fold fs in Hmk. fold missing in Hmk.
      rewrite decide_False in Hmk by done. rewrite decide_False in Hmk by done.
      rewrite (bind_ok _ _ _ _ _ (try_except_ok _ _ _ _ _ (bind_ok _ _ _ _ _ Hmk))).
      cbn [negb]. rewrite bind_print.
      destruct (export_selection_run out
        (emit (Stdout ("Exporting: " +:+ out))
           (set_fs (Fs (fs_dirs fs ++ missing ++ [dir]) (fs_files fs) (fs_denied fs))
              (set_selection js w))) Hplug) as [opts2 Hrun2].
      rewrite Hrun2. cbn [w_fs emit set_selection set_fs fs_denied].
      rewrite decide_False by done. rewrite decide_False by done. done.
  - intros Hroot. subst r. unfold export_fbx_animation.
    rewrite (bind_ok _ _ _ _ _ (objExists_run _ _)).
    rewrite bool_decide_eq_false_2; [done|]. by intros [].
  - intros Hroot Hjs. subst r. unfold export_fbx_animation.
    rewrite (bind_ok _ _ _ _ _ (objExists_run _ _)).
    rewrite bool_decide_eq_true_2 by done. cbn [negb].
    by rewrite (bind_ok _ _ _ _ _ Hjs).
  - intros js Hroot Hjs Hne Hsel Hd1 Hd2 Hden. subst r.
    rewrite (export_selected _ _ _ _ _ _ _ Hroot Hjs Hne Hsel).
    fold dir. fold out.
    rewrite bool_decide_eq_false_2 by (by intros [?|?]). cbn [negb].
    pose proof (makedirs_run dir (set_selection js w)) as Hmk.
    cbn [w_fs set_selection] in Hmk. fold fs in Hmk. fold missing in Hmk.
    rewrite decide_False in Hmk by (by intros [?|?]). rewrite decide_True in Hmk by done.
    unfold bind at 1.
    by rewrite (try_except_raise _ _ _ _ _ (bind_raise _ _ _ _ _ Hmk)).
  - intros js Hroot Hjs Hne Hsel Hplug Hdir Hout. subst r.
    rewrite (export_selected _ _ _ _ _ _ _ Hroot Hjs Hne Hsel).
    fold dir. fold out.
    destruct (export_selection_run out (emit (Stdout ("Exporting: " +:+ out)) (set_selection js w)) Hplug)
      as [opts1 Hrun1].
    case_bool_decide as Hex; cbn [negb].
    + rewrite bind_ret. cbn [negb]. rewrite bind_print, Hrun1.
      cbn [w_fs emit set_selection]. by rewrite decide_True by done.
    + destruct Hdir as [?|Hdir]; [done|].
      pose proof (makedirs_run dir (set_selection js w)) as Hmk.
      cbn [w_fs set_selection] in Hmk. fold fs in Hmk. fold missing in Hmk.
      rewrite decide_False in Hmk by done. rewrite decide_False in Hmk by done.
      rewrite (bind_ok _ _ _ _ _ (try_except_ok _ _ _ _ _ (bind_ok _ _ _ _ _ Hmk))).
      cbn [negb]. rewrite bind_print.
      destruct (export_selection_run out
        (emit (Stdout ("Exporting: " +:+ out))
           (set_fs (Fs (fs_dirs fs ++ missing ++ [dir]) (fs_files fs) (fs_denied fs))
              (set_selection js w))) Hplug) as [opts2 Hrun2].
      rewrite Hrun2. cbn [w_fs emit set_selection set_fs fs_denied].
      by rewrite decide_True by done.
  - apply path_join_plain.
  - intros stem ext Hd He. by rewrite splitext_stem.
  - done.
Qed.

Lemma export_writes_one_file_witness :
  let w := sample_world in
  let js := ["B:Root"; "B:Spine"; "B:Hand"] in
  let r := export_fbx_animation (H := sample_host) "B:Root" "/out/x" "Walk"
             (Some "Anim_") (Some "_Final") w in
  let w_folder := set_fs (Fs ["/in"] [("/in/Walk.fbx", Some walk_skeleton)] ["/out"]) w in
  let r_folder := export_fbx_animation (H := sample_host) "B:Root" "/out/x" "Walk"
                    (Some "Anim_") (Some "_Final") w_folder in
  let w_file := set_fs (Fs ["/in"] [("/in/Walk.fbx", Some walk_skeleton)]
                          ["/out/x/Anim_Walk_Final.fbx"]) w in
  let r_file := export_fbx_animation (H := sample_host) "B:Root" "/out/x" "Walk"
                  (Some "Anim_") (Some "_Final") w_file in
  let w_group := world_of [Node ["grp"] false "g0" false false ∅] in
  let r_group := export_fbx_animation (H := sample_host) "grp" "/out/x" "Walk"
                   (Some "Anim_") (Some "_Final") w_group in
  cmds.matching (w_scene w) "B:Root" ≠ [] ∧
  cmds.ls_dag_joints "B:Root" w = (Ok js, w) ∧
  js ≠ [] ∧
  cmds.select js w = (Ok tt, set_selection js w) ∧
  (w_fbx_loaded w = true ∨ w_fbx_available w = true) ∧
  ¬ Exists (λ d, d ∈ fs_denied (w_fs w))
      (filter (λ d, d ∉ fs_dirs (w_fs w)) (os.ancestors "/out/x") ++ ["/out/x"]) ∧
  ("/out/x/Anim_Walk_Final.fbx" ∉ fs_denied (w_fs w)) ∧
  r.1 = Ok tt ∧
  (fs_files (w_fs r.2)).*1 = ["/out/x/Anim_Walk_Final.fbx"; "/in/Walk.fbx"; "/in/Run.fbx"] ∧
  fs_dirs (w_fs r.2) = ["/in"; "/out"; "/out/x"] ∧
  (r_folder.1 = Ok tt ∧ w_fs r_folder.2 = w_fs w_folder ∧
   head (w_out r_folder.2)
     = Some (Warn "Failed to create export folder: Permission denied: /out/x")) ∧
  (r_file.1 = Ok tt ∧ fs_files (w_fs r_file.2) = fs_files (w_fs w_file) ∧
   head (w_out r_file.2)
     = Some (Warn "FBX Export Failed: Could not write file: /out/x/Anim_Walk_Final.fbx")) ∧
  r_group = (Ok tt, emit (Warn "No joints found under 'grp'!") w_group).
Proof.
  intros w js r w_folder r_folder w_file r_file w_group r_group.
  assert (H1 : cmds.matching (w_scene w) "B:Root" ≠ []) by (vm_compute; discriminate).
  assert (H2 : cmds.ls_dag_joints "B:Root" w = (Ok js, w)) by reflexivity.
  assert (H3 : js ≠ []) by discriminate.
  assert (H4 : cmds.select js w = (Ok tt, set_selection js w)) by reflexivity.
  assert (H5 : w_fbx_loaded w = true ∨ w_fbx_available w = true) by (left; reflexivity).
  assert (H6 : ¬ Exists (λ d, d ∈ fs_denied (w_fs w))
      (filter (λ d, d ∉ fs_dirs (w_fs w)) (os.ancestors "/out/x") ++ ["/out/x"])).
  { intros Hex. apply Exists_exists in Hex as (d & _ & Hd). by apply elem_of_nil in Hd. }
  assert (H7 : "/out/x/Anim_Walk_Final.fbx" ∉ fs_denied (w_fs w)) by apply not_elem_of_nil.
  destruct (export_writes_one_file (H := sample_host) w "B:Root" "/out/x" "Walk"
              (Some "Anim_") (Some "_Final")) as (Hwrite & _).
  destruct (Hwrite js H1 H2 H3 H4 H5 (or_intror H6) H7) as (Hok & Hfiles & Hdirs).
  (* the folder cannot be created *)
  destruct (export_writes_one_file (H := sample_host) w_folder "B:Root" "/out/x" "Walk"
              (Some "Anim_") (Some "_Final")) as (_ & _ & _ & Hfolder & _).
  assert (Hrf : r_folder
                = (Ok tt, emit (Warn "Failed to create export folder: Permission denied: /out/x")
                            (set_selection js w_folder))).
  { apply (Hfolder js); [by vm_compute | reflexivity | discriminate | reflexivity | | |].
    - apply (bool_decide_unpack _). by vm_compute.
    - apply (bool_decide_unpack _). by vm_compute.
    - apply Exists_cons_hd. apply (bool_decide_unpack _). by vm_compute. }
  (* the file cannot be written *)
  destruct (export_writes_one_file (H := sample_host) w_file "B:Root" "/out/x" "Walk"
              (Some "Anim_") (Some "_Final")) as (_ & _ & _ & _ & Hfile & _).
  assert (Hrw : r_file.1 = Ok tt ∧ fs_files (w_fs r_file.2) = fs_files (w_fs w_file) ∧
                head (w_out r_file.2)
                = Some (Warn "FBX Export Failed: Could not write file: /out/x/Anim_Walk_Final.fbx")).
  { apply (Hfile js); [by vm_compute | reflexivity | discriminate | reflexivity
                       | left; reflexivity | | ].
    - right. intros Hex. apply Exists_exists in Hex as (d & Hd & Hden).
      apply list_elem_of_singleton in Hden as ->.
      revert Hd. apply (bool_decide_unpack _). by vm_compute.
    - apply (bool_decide_unpack _). by vm_compute. }
  (* a rig root without joints *)
  destruct (export_writes_one_file (H := sample_host) w_group "grp" "/out/x" "Walk"
              (Some "Anim_") (Some "_Final")) as (_ & _ & Hgroup & _).
  assert (Hrg : r_group = (Ok tt, emit (Warn "No joints found under 'grp'!") w_group)).
  { apply Hgroup; [by vm_compute | reflexivity]. }
  destruct Hrw as (Hrw1 & Hrw2 & Hrw3).
  split_and!; [done | done | done | done | done | done | done | done | | |
               by rewrite Hrf | by rewrite Hrf | by rewrite Hrf | done | done | done | done].
  - subst r. rewrite Hfiles. reflexivity.
  - subst r. rewrite Hdirs. reflexivity.
Defined.

(** An export folder that cannot be created: the job ends without a file. *)
Lemma denied_folder_no_file :
  let w := set_fs (Fs ["/in"] [("/in/Walk.fbx", Some walk_skeleton)] ["/out"]) sample_world in
  let r := batch_process_fbx (H := sample_host) "/in" "/out" "A:Root" "B:Root" None None w in
  r.1 = Ok tt ∧
  (fs_files (w_fs r.2)).*1 = ["/in/Walk.fbx"] ∧
  Warn "Failed to create export folder: Permission denied: /out" ∈ w_out r.2.
Proof. vm_compute. split_and!; [done | done |]. repeat constructor. Qed.

(** Creating the export folder never raises past its handler. *)
Lemma make_folder_run dir (e : bool) w :
  ∃ b w1,
    (if negb e then
       try_except (os.makedirs dir ;;; ret true)
         (λ e, cmds_warning ("Failed to create export folder: " +:+ exn_str e) ;;;
               ret false)
     else ret true) w = (Ok b, w1) ∧
    w_fbx_loaded w1 = w_fbx_loaded w ∧ w_fbx_available w1 = w_fbx_available w.
Proof.
  destruct e; cbn [negb]; [by exists true, w|].
  pose proof (makedirs_run dir w) as Hmk. cbv zeta in Hmk.
  repeat case_decide.
  - exists false. eexists.
    split; [rewrite (try_except_raise _ _ _ _ _ (bind_raise _ _ _ _ _ Hmk)); reflexivity|done].
  - exists false. eexists.
    split; [rewrite (try_except_raise _ _ _ _ _ (bind_raise _ _ _ _ _ Hmk)); reflexivity|done].
  - exists true. eexists.
    split; [rewrite (try_except_ok _ _ _ _ _ (bind_ok _ _ _ _ _ Hmk)); reflexivity|done].
Qed.

(** ** The batch loop *)

Lemma export_catches `{Host} w rig_root folder name prefix suffix :
  w_fbx_loaded w = true ∨ w_fbx_available w = true →
  (∀ js, cmds.ls_dag_joints rig_root w = (Ok js, w) → (cmds.select js w).1 = Ok tt) →
  (export_fbx_animation rig_root folder name prefix suffix w).1 = Ok tt.
Proof.
  intros Hplug Hsel.
  destruct (decide (cmds.matching (w_scene w) rig_root = [])) as [Hroot|Hroot].
  { unfold export_fbx_animation.
    rewrite (bind_ok _ _ _ _ _ (objExists_run _ _)).
    rewrite bool_decide_eq_false_2; [done|]. by intros []. }
  assert (Hjs : ∃ js, cmds.ls_dag_joints rig_root w = (Ok js, w)) by (eexists; reflexivity).
  destruct Hjs as [js Hjs].
  destruct (decide (js = [])) as [Hnil|Hne].
  { unfold export_fbx_animation.
    rewrite (bind_ok _ _ _ _ _ (objExists_run _ _)).
    rewrite bool_decide_eq_true_2 by done. cbn [negb].
    rewrite (bind_ok _ _ _ _ _ Hjs). by rewrite bool_decide_eq_true_2. }
  specialize (Hsel js Hjs).
  destruct (select_run js w) as [Hs|[e He]]; [|by rewrite He in Hsel].
  rewrite (export_selected _ _ _ _ _ _ _ Hroot Hjs Hne Hs).
  set (out := output_path _ _ _ _).
  destruct (make_folder_run (abspath folder)
              (bool_decide (abspath folder ∈ fs_dirs (w_fs w)
                            ∨ abspath folder ∈ (fs_files (w_fs w)).*1))
              (set_selection js w)) as (b & w1 & Hmade & Hl & Ha).
  rewrite (bind_ok _ _ _ _ _ Hmade).
  destruct b; cbn [negb]; [|done].
  rewrite bind_print.
  destruct (export_selection_run out (emit (Stdout ("Exporting: " +:+ out)) w1)) as [opts Hrun].
  - simpl. by rewrite Hl, Ha.
  - rewrite Hrun. by case_decide.
Qed.








(** ** One attribute of one pair *)

Lemma node_named_scene x w w1 :
  w_scene w1 = w_scene w → cmds.node_named x w1 = ((cmds.node_named x w).1, w1).
Proof.
  intros Hs. unfold cmds.node_named. rewrite Hs.
  destruct (cmds.resolve _ _); [destruct (_ !! _)|]; done.
Qed.

Lemma curve_at_lookup n a : curve_at n a ≠ [] → n_curves n !! a = Some (curve_at n a).
Proof. unfold curve_at. by destruct (n_curves n !! a). Qed.

Lemma copy_one (m : curves) b c :
  m !! b = Some c → c ≠ [] →
  filter (λ kv : string * curve, kv.1 = b) (filter (λ kv : string * curve, kv.2 ≠ []) m)
  = {[b := c]}.
Proof.
  intros Hb Hc. apply map_eq. intros k.
  destruct (decide (k = b)) as [->|Hk].
  - rewrite lookup_singleton_eq. apply map_lookup_filter_Some. split; [|done].
    by apply map_lookup_filter_Some.
  - rewrite lookup_singleton_ne by done. apply map_lookup_filter_None. right.
    intros x _. done.
Qed.

Lemma paste_all_one `{Host} b c (d : curves) :
  cmds.paste_all {[b := c]} d = <[b := paste_replace c (default [] (d !! b))]> d.
Proof.
  apply map_eq. intros k. unfold cmds.paste_all. rewrite lookup_merge.
  destruct (decide (k = b)) as [->|Hk].
  - rewrite lookup_singleton_eq, lookup_insert_eq. by destruct (d !! b).
  - rewrite lookup_singleton_ne, lookup_insert_ne by done. by destruct (d !! k).
Qed.

Lemma keyframe_count_run x a w :
  cmds.keyframe_count x (Some a) w =
    match cmds.node_named x w with
    | (Ok p, _) => (Ok (length (curve_at p.2 a)), w)
    | (Raise e, _) => (Raise e, w)
    end.
Proof.
  unfold cmds.keyframe_count, bind.
  destruct (cmds.node_named x w) as [[p|e] w1] eqn:Hn;
    by pose proof (node_named_pure _ _ _ _ Hn) as ->.
Qed.

Lemma transfer_channel_run `{Host} ij rj b w :
  transfer_channel ij rj b w =
    match cmds.node_named ij w with
    | (Raise e, _) => (Raise e, w)
    | (Ok (i, n), _) =>
        if decide (curve_at n b = []) then (Ok 0, w)
        else
          let w1 := set_clipboard {[b := curve_at n b]} w in
          match cmds.node_named rj w with
          | (Raise e, _) => (Raise e, w1)
          | (Ok (r, nr), _) =>
              (Ok 1, set_scene (<[r := pasted b (curve_at n b) nr]> (w_scene w)) w1)
          end
    end.
Proof.
  unfold transfer_channel.
  destruct (cmds.node_named ij w) as [[[i n]|e] w0] eqn:Hn;
    pose proof (node_named_pure _ _ _ _ Hn) as ->.
  2:{ apply bind_raise. by rewrite keyframe_count_run, Hn. }
  erewrite bind_ok; [|by rewrite keyframe_count_run, Hn]. cbn [snd].
  case_decide as Hc.
  - by rewrite Hc.
  - destruct (curve_at n b) as [|k c] eqn:Hcb; [done|]. cbn [length Nat.ltb Nat.leb].
    assert (Hcopy : cmds.copyKey ij (Some b) w = (Ok tt, set_clipboard {[b := k :: c]} w)).
    { unfold cmds.copyKey. rewrite (bind_ok _ _ _ _ _ Hn). cbn [snd]. unfold modify.
      rewrite (copy_one _ b (k :: c)); [done | | done].
      rewrite <- Hcb. apply curve_at_lookup. by rewrite Hcb. }
    rewrite (bind_ok _ _ _ _ _ Hcopy).
    set (w1 := set_clipboard _ w).
    pose proof (node_named_scene rj w w1 eq_refl) as Hr.
    destruct (cmds.node_named rj w) as [[[r nr]|e] w2] eqn:Hnr; simpl in Hr.
    + erewrite bind_ok; [reflexivity|].
      unfold cmds.pasteKey. rewrite (bind_ok _ _ _ _ _ Hr), bind_gets.
      cbn [w_clipboard w1 set_clipboard fst snd].
      rewrite map_filter_singleton_True by done.
      rewrite decide_False by apply map_non_empty_singleton.
      unfold cmds.set_node, modify. rewrite paste_all_one. done.
    + apply bind_raise. unfold cmds.pasteKey. by apply bind_raise.
Qed.

(** ** What a transfer step leaves alone *)

Lemma matching_from_shape k s s' name :
  shape s = shape s' → cmds.matching_from k s name = cmds.matching_from k s' name.
Proof.
  revert k s'. induction s as [|n s IH]; intros k [|n' s'] Hs; try done.
  injection Hs as Hp Hu Hj Hs. simpl.
  rewrite (matches_same name n' n Hp Hu). f_equal. by apply IH.
Qed.

Lemma resolve_shape s s' name : shape s = shape s' → cmds.resolve s name = cmds.resolve s' name.
Proof. intros Hs. unfold cmds.resolve, cmds.matching. by rewrite (matching_from_shape _ _ _ _ Hs). Qed.

Lemma shape_insert s i n n' :
  s !! i = Some n → n_path n' = n_path n → n_uuid n' = n_uuid n → n_joint n' = n_joint n →
  shape (<[i := n']> s) = shape s.
Proof.
  intros Hi Hp Hu Hj. unfold shape. rewrite list_fmap_insert, Hp, Hu, Hj.
  apply list_insert_id. by rewrite list_lookup_fmap, Hi.
Qed.

Lemma node_named_inv x w i n :
  cmds.node_named x w = (Ok (i, n), w) →
  cmds.resolve (w_scene w) x = Ok i ∧ w_scene w !! i = Some n.
Proof.
  unfold cmds.node_named. destruct (cmds.resolve _ _) as [j|]; [|done].
  destruct (_ !! j) eqn:Hj; [|done]. intros [= -> ->]. done.
Qed.

Lemma chan_insert w w1 r n i a :
  w_scene w !! r = Some n →
  chan (set_scene (<[r := n]> (w_scene w)) w1) i a = chan w i a.
Proof. intros Hr. unfold chan. simpl. by rewrite (list_insert_id _ _ _ Hr). Qed.

Lemma chan_pasted `{Host} w w1 r nr b c i a :
  w_scene w !! r = Some nr →
  chan (set_scene (<[r := pasted b c nr]> (w_scene w)) w1) i a =
    if decide (i = r ∧ a = b) then paste_replace c (chan w r b) else chan w i a.
Proof.
  intros Hr. unfold chan. simpl.
  destruct (decide (i = r)) as [->|Hi].
  - rewrite list_lookup_insert_eq by (by eapply lookup_lt_Some). rewrite Hr. simpl.
    unfold curve_at at 1. simpl. destruct (decide (a = b)) as [->|Ha].
    + rewrite lookup_insert_eq, decide_True by done. done.
    + rewrite lookup_insert_ne by done. rewrite decide_False by (by intros [? ?]). done.
  - rewrite list_lookup_insert_ne by done. rewrite decide_False by (by intros [? ?]). done.
Qed.

(** A step keeps the shape of the scene and touches one attribute only. *)
Lemma transfer_channel_frame `{Host} ij rj b w res w' :
  transfer_channel ij rj b w = (res, w') →
  shape (w_scene w') = shape (w_scene w) ∧
  (∀ i a, a ≠ b → chan w' i a = chan w i a) ∧
  ((∀ i, cmds.resolve (w_scene w) ij = Ok i → chan w i b = []) →
   ∀ i, chan w' i b = chan w i b).
Proof.
  rewrite transfer_channel_run.
  destruct (cmds.node_named ij w) as [[[i n]|e] w0] eqn:Hn;
    pose proof (node_named_pure _ _ _ _ Hn) as ->; [|by intros [= <- <-]].
  apply node_named_inv in Hn as [Hres Hi].
  case_decide as Hc; [by intros [= <- <-]|].
  destruct (cmds.node_named rj w) as [[[r nr]|e] w0] eqn:Hnr;
    pose proof (node_named_pure _ _ _ _ Hnr) as ->; [|by intros [= <- <-]].
  apply node_named_inv in Hnr as [Hresr Hr].
  intros [= <- <-]. split_and!.
  - simpl. by apply (shape_insert _ _ _ _ Hr).
  - intros j a Ha. rewrite (chan_pasted _ _ _ _ _ _ _ _ Hr).
    rewrite decide_False by (by intros [? ?]). done.
  - intros Hzero. exfalso. apply Hc.
    specialize (Hzero i Hres). unfold chan in Hzero. by rewrite Hi in Hzero.
Qed.

Lemma transfer_loop_frame `{Host} ij rj (l : list string) a acc w res w' :
  (∀ i, cmds.resolve (w_scene w) ij = Ok i → chan w i a = []) →
  for_count l (transfer_channel ij rj) acc w = (res, w') →
  shape (w_scene w') = shape (w_scene w) ∧ ∀ i, chan w' i a = chan w i a.
Proof.
  revert acc w. induction l as [|b l IH]; intros acc w Hzero; simpl.
  - by intros [= <- <-].
  - unfold bind at 1.
    destruct (transfer_channel ij rj b w) as [[k|e] w1] eqn:Hstep;
      destruct (transfer_channel_frame _ _ _ _ _ _ Hstep) as (Hshape & Hother & Hsame).
    + intros Hrest.
      assert (Ha : ∀ i, chan w1 i a = chan w i a).
      { intros i. destruct (decide (a = b)) as [->|Hab]; [by apply Hsame | by apply Hother]. }
      destruct (IH (acc + k) w1) with (2 := Hrest) as [Hshape' Hchan'].
      * intros i Hres. rewrite Ha. apply Hzero. by rewrite <- (resolve_shape _ _ _ Hshape).
      * split; [congruence|]. intros i. by rewrite Hchan', Ha.
    + intros [= <- <-]. split; [done|].
      intros i. destruct (decide (a = b)) as [->|Hab]; [by apply Hsame | by apply Hother].
Qed.

(** C6.  For a matched pair and an attribute on which the source joint
    carries no key, the per-pair transfer (the loop over the six tracked
    attributes, in both transfers) leaves that attribute untouched on every
    node; in particular the destination joint keeps the keys it had. *)
Theorem empty_channel_is_skipped `{Host} (w : world) (imported_joint rig_joint a : string)
    (res : res nat) (w' : world) :
  cmds.keyframe_count imported_joint (Some a) w = (Ok 0, w) →
  transfer_channels imported_joint rig_joint w = (res, w') →
  ∀ i, chan w' i a = chan w i a.
Proof.
  intros Hcount Hrun. unfold transfer_channels in Hrun.
  eapply transfer_loop_frame in Hrun as [_ Hchan]; [done|].
  intros i Hres. rewrite keyframe_count_run in Hcount.
  unfold cmds.node_named in Hcount. rewrite Hres in Hcount.
  unfold chan. destruct (w_scene w !! i) as [n|]; [|done].
  simpl in *. injection Hcount as Hlen. by apply length_zero_iff_nil.
Qed.

(** ** Names that resolve *)

Lemma matching_nodes_from pre s name :
  omap (λ i, (pre ++ s) !! i) (cmds.matching_from (length pre) s name)
  = filter (λ n, cmds.matches name n = true) s.
Proof.
  revert pre. induction s as [|n s IH]; intros pre; [done|].
  rewrite filter_cons. specialize (IH (pre ++ [n])).
  rewrite length_app, <- (assoc_L (++)) in IH. simpl in IH.
  rewrite Nat.add_1_r in IH. cbn [cmds.matching_from].
  destruct (cmds.matches name n) eqn:Hm.
  - rewrite decide_True by done. cbn [app omap list_omap].
    rewrite list_lookup_middle by done. by rewrite IH.
  - rewrite decide_False by done. cbn [app]. done.
Qed.

Lemma matching_nodes_filter s name :
  cmds.matching_nodes s name = filter (λ n, cmds.matches name n = true) s.
Proof. apply (matching_nodes_from [] s name). Qed.

Lemma render_bar p : p ≠ [] → PyStr.startswith "|" (render p) = true.
Proof.
  destruct p as [|x p]; [done|]. intros _. unfold PyStr.startswith, render. simpl.
  match goal with |- String.prefix "" ?t = true => by destruct t end.
Qed.

Lemma matches_full n : n_path n ≠ [] → cmds.matches (full n) n = true.
Proof.
  intros Hp. unfold cmds.matches, full. rewrite (render_bar _ Hp).
  by apply bool_decide_eq_true_2.
Qed.

Lemma is_descendant_nonempty r n : cmds.is_descendant r n = true → n_path n ≠ [].
Proof.
  unfold cmds.is_descendant. intros Hd Hn. apply andb_true_iff in Hd as [Hp Hne].
  apply bool_decide_eq_true_1 in Hp. rewrite Hn in Hp. apply prefix_nil_inv in Hp.
  rewrite Hp, Hn in Hne. by rewrite bool_decide_eq_true_2 in Hne.
Qed.

Lemma listRelatives_allDescendents_run name w i r :
  cmds.node_named name w = (Ok (i, r), w) →
  cmds.listRelatives_allDescendents name w
  = (Ok (match full <$> filter (λ n, n_joint n = true ∧ cmds.is_descendant r n = true)
                          (w_scene w) with
         | [] => None
         | l => Some l
         end), w).
Proof.
  intros Hn. unfold cmds.listRelatives_allDescendents.
  rewrite (bind_ok _ _ _ _ _ Hn), bind_gets. cbn [snd]. by destruct (_ <$> _).
Qed.

Lemma or_empty_descendants (l : list string) :
  or_empty (match l with [] => None | y :: l0 => Some (y :: l0) end) = l.
Proof. by destruct l. Qed.

Lemma long_key_ok j w n :
  n ∈ w_scene w → cmds.matches j n = true → ∃ k, long_key j w = (Ok k, w).
Proof.
  intros Hin Hm. unfold long_key, cmds.ls_long. rewrite bind_gets.
  rewrite matching_nodes_filter.
  destruct (filter _ _) as [|m l] eqn:Hf.
  - exfalso. eapply (filter_nil_not_elem_of _ _ n); [done| |done]. done.
  - simpl. eauto.
Qed.

Lemma mapM_long_key_ok js w :
  (∀ j, j ∈ js → ∃ k, long_key j w = (Ok k, w)) →
  ∃ keys, mapM long_key js w = (Ok keys, w).
Proof.
  induction js as [|j js IH]; intros Hall; simpl; [by eexists|].
  destruct (Hall j) as [k Hk]; [left|].
  destruct IH as [keys Hkeys]; [intros j' Hj'; apply Hall; by right|].
  exists (k :: keys). rewrite (bind_ok _ _ _ _ _ Hk), (bind_ok _ _ _ _ _ Hkeys). done.
Qed.

Lemma resolve_matching s x i :
  cmds.resolve s x = Ok i → cmds.matching s x = [i].
Proof. unfold cmds.resolve. by destruct (cmds.matching s x) as [|? [|]]; intros [= ->]. Qed.

Lemma resolve_matches s x i n :
  cmds.resolve s x = Ok i → s !! i = Some n → cmds.matches x n = true.
Proof.
  intros Hres Hi. apply resolve_matching in Hres.
  assert (Hn : n ∈ cmds.matching_nodes s x).
  { unfold cmds.matching_nodes. rewrite Hres. simpl. rewrite Hi. simpl. left. }
  rewrite matching_nodes_filter in Hn. by apply list_elem_of_filter in Hn as [? _].
Qed.

(** Every joint of a traversal has a long name to take its key from. *)
Lemma long_dict_ok root w i r :
  cmds.node_named root w = (Ok (i, r), w) →
  let joints :=
    (full <$> filter (λ n, n_joint n = true ∧ cmds.is_descendant r n = true) (w_scene w))
    ++ [root] in
  ∃ d, long_dict joints w = (Ok d, w).
Proof.
  intros Hn joints. apply node_named_inv in Hn as [Hres Hi].
  destruct (mapM_long_key_ok joints w) as [keys Hkeys].
  - intros j Hj. apply elem_of_app in Hj as [Hj|Hj].
    + apply list_elem_of_fmap in Hj as (m & -> & Hm).
      apply list_elem_of_filter in Hm as [[_ Hd] Hm].
      apply (long_key_ok _ _ m Hm). apply matches_full. by eapply is_descendant_nonempty.
    + apply list_elem_of_singleton in Hj as ->.
      apply (long_key_ok _ _ r); [by eapply list_elem_of_lookup_2|].
      by eapply resolve_matches.
  - eexists. unfold long_dict. by rewrite (bind_ok _ _ _ _ _ Hkeys).
Qed.

(** ** Frames *)

Lemma keeps_refl a w : keeps a w w.
Proof. by split. Qed.

Lemma keeps_trans a w1 w2 w3 : keeps a w1 w2 → keeps a w2 w3 → keeps a w1 w3.
Proof. intros [Hs1 Hc1] [Hs2 Hc2]. split; [congruence|]. intros i. by rewrite Hc2, Hc1. Qed.

Lemma frames_ret {A} a (x : A) : frames (keeps a) (ret x).
Proof. intros w r w' [= <- <-]. apply keeps_refl. Qed.

Lemma frames_print a s : frames (keeps a) (print s).
Proof. intros w r w' [= <- <-]. by split. Qed.

Lemma frames_bind {A B} a (m : M A) (k : A → M B) :
  frames (keeps a) m → (∀ x, frames (keeps a) (k x)) → frames (keeps a) (bind m k).
Proof.
  intros Hm Hk w r w'. unfold bind.
  destruct (m w) as [[x|e] w1] eqn:Hmw.
  - intros Hkw. eapply keeps_trans; [by eapply Hm | by eapply Hk].
  - intros [= <- <-]. by eapply Hm.
Qed.

Lemma frames_for {A} a (l : list A) (body : A → M unit) :
  (∀ x, x ∈ l → frames (keeps a) (body x)) → frames (keeps a) (for_ l body).
Proof.
  induction l as [|x l IH]; intros Hb; simpl; [apply frames_ret|].
  apply frames_bind; [apply Hb; left | intros _; apply IH].
  intros y Hy. apply Hb. by right.
Qed.

Lemma frames_for_count {A} a (l : list A) (body : A → M nat) acc :
  (∀ x, x ∈ l → frames (keeps a) (body x)) → frames (keeps a) (for_count l body acc).
Proof.
  revert acc. induction l as [|x l IH]; intros acc Hb; simpl; [apply frames_ret|].
  apply frames_bind; [apply Hb; left | intros k; apply IH].
  intros y Hy. apply Hb. by right.
Qed.

Lemma frames_transfer_channel `{Host} a ij rj b :
  a ≠ b → frames (keeps a) (transfer_channel ij rj b).
Proof.
  intros Hab w r w1 Hrun.
  destruct (transfer_channel_frame _ _ _ _ _ _ Hrun) as (Hs & Hother & _).
  split; [done|]. intros i. by apply Hother.
Qed.

Lemma frames_transfer_channels `{Host} a ij rj :
  a ∉ tracked → frames (keeps a) (transfer_channels ij rj).
Proof.
  intros Ha. apply frames_for_count. intros b Hb.
  apply frames_transfer_channel. by intros ->.
Qed.

(** The namespace-insensitive transfer changes tracked attributes only. *)
Lemma frames_ignore_namespace `{Host} a source_root target_root :
  a ∉ tracked → frames (keeps a) (transfer_animation_ignore_namespace source_root target_root).
Proof.
  intros Ha. unfold transfer_animation_ignore_namespace.
  apply frames_bind.
  { intros w r w1 Hr. apply listRelatives_allDescendents_pure in Hr as ->. apply keeps_refl. }
  intros d1. apply frames_bind.
  { intros w r w1 Hr. apply listRelatives_allDescendents_pure in Hr as ->. apply keeps_refl. }
  intros d2. apply frames_bind; [|intros _; apply frames_print].
  apply frames_for. intros kv _. destruct (dict_get _ _); [|apply frames_ret].
  apply frames_bind; [by apply frames_transfer_channels | intros _; apply frames_ret].
Qed.

(** ** Root motion *)

Lemma sum_list_zero (l : list nat) : Forall (λ x, x = 0) l → sum_list l = 0.
Proof. induction 1; simpl; lia. Qed.

Lemma count_all_keyed n :
  0 < cmds.count_all n → filter (λ kv : string * curve, kv.2 ≠ []) (n_curves n) ≠ ∅.
Proof.
  intros Hpos Hempty. unfold cmds.count_all in Hpos.
  rewrite sum_list_zero in Hpos; [lia|].
  apply Forall_fmap, Forall_fmap, Forall_forall. intros [a c] Hin. simpl.
  apply elem_of_map_to_list in Hin.
  destruct c as [|k c]; [done|]. exfalso.
  assert (Hf : filter (λ kv : string * curve, kv.2 ≠ []) (n_curves n) !! a = Some (k :: c))
    by (by apply map_lookup_filter_Some).
  by rewrite Hempty in Hf.
Qed.

Lemma curve_at_root_pasted `{Host} src dst a :
  curve_at (root_pasted src dst) a =
    if decide (curve_at src a = []) then curve_at dst a
    else paste_replace (curve_at src a) (curve_at dst a).
Proof.
  unfold root_pasted, curve_at at 1. simpl. unfold cmds.paste_all. rewrite lookup_merge.
  case_decide as Hc.
  - assert (Hf : filter (λ kv : string * curve, kv.2 ≠ []) (n_curves src) !! a = None).
    { apply map_lookup_filter_None. unfold curve_at in Hc.
      destruct (n_curves src !! a) as [c|] eqn:Hl; [right | by left].
      intros x [= <-]. simpl in *. by intros []. }
    rewrite Hf. unfold curve_at. by destruct (n_curves dst !! a).
  - assert (Hf : filter (λ kv : string * curve, kv.2 ≠ []) (n_curves src) !! a
                 = Some (curve_at src a)).
    { apply map_lookup_filter_Some. split; [by apply curve_at_lookup | done]. }
    rewrite Hf. unfold curve_at at 3. by destruct (n_curves dst !! a).
Qed.

Lemma node_named_emit x w o : cmds.node_named x (emit o w) = ((cmds.node_named x w).1, emit o w).
Proof. by apply node_named_scene. Qed.

Lemma transfer_animation_root `{Host} w imported_root rig_root i n r nr :
  cmds.node_named imported_root w = (Ok (i, n), w) →
  cmds.node_named rig_root w = (Ok (r, nr), w) →
  0 < cmds.count_all n →
  ∃ imported_dict rig_dict w_mid,
    transfer_animation imported_root rig_root w =
      (matched_count <-
         for_count imported_dict (λ kv,
           match dict_get kv.1 rig_dict with
           | Some rig_joint => transfer_channels kv.2 rig_joint
           | None => ret 0
           end) 0 ;;
       print ("Successfully transferred animation for " +:+ pretty matched_count +:+ " joints."))
        w_mid ∧
    w_scene w_mid = <[r := root_pasted n nr]> (w_scene w).
Proof.
  intros Hn Hr Hpos.
  pose proof (node_named_inv _ _ _ _ Hn) as [Hres Hi].
  pose proof (node_named_inv _ _ _ _ Hr) as [Hresr Hir].
  unfold transfer_animation.
  rewrite (bind_ok _ _ _ _ _ (objExists_run _ _)), (bind_ok _ _ _ _ _ (objExists_run _ _)).
  rewrite (resolve_matching _ _ _ Hres), (resolve_matching _ _ _ Hresr).
  rewrite !bool_decide_eq_true_2 by done. cbn [negb orb].
  rewrite (bind_ok _ _ _ _ _ (listRelatives_allDescendents_run _ _ _ _ Hn)).
  rewrite (bind_ok _ _ _ _ _ (listRelatives_allDescendents_run _ _ _ _ Hr)).
  cbv beta zeta. rewrite !or_empty_descendants, !bind_print.
  set (w2 := emit _ (emit _ w)).
  assert (Hn2 : cmds.node_named imported_root w2 = (Ok (i, n), w2)).
  { unfold w2. by rewrite !node_named_emit, Hn. }
  assert (Hr2 : cmds.node_named rig_root w2 = (Ok (r, nr), w2)).
  { unfold w2. by rewrite !node_named_emit, Hr. }
  destruct (long_dict_ok _ _ _ _ Hn2) as [imported_dict Hd1].
  destruct (long_dict_ok _ _ _ _ Hr2) as [rig_dict Hd2].
  rewrite (bind_ok _ _ _ _ _ Hd1), (bind_ok _ _ _ _ _ Hd2).
  exists imported_dict, rig_dict.
  assert (Hcount : cmds.keyframe_count imported_root None w2 = (Ok (cmds.count_all n), w2)).
  { unfold cmds.keyframe_count. by rewrite (bind_ok _ _ _ _ _ Hn2). }
  rewrite (bind_ok _ _ _ _ _ Hcount).
  apply Nat.ltb_lt in Hpos as Hlt. rewrite Hlt. apply Nat.ltb_lt in Hlt.
  set (keyed := filter (λ kv : string * curve, kv.2 ≠ []) (n_curves n)).
  assert (Hroot :
    (print "Transferring root motion..." ;;;
     cmds.copyKey imported_root None ;;;
     cmds.pasteKey rig_root None) w2
    = (Ok tt, set_scene (<[r := root_pasted n nr]> (w_scene w))
                (set_clipboard keyed (emit (Stdout "Transferring root motion...") w2)))).
  { rewrite bind_print. set (w3 := emit _ w2).
    assert (Hn3 : cmds.node_named imported_root w3 = (Ok (i, n), w3)).
    { unfold w3. by rewrite node_named_emit, Hn2. }
    assert (Hcopy : cmds.copyKey imported_root None w3 = (Ok tt, set_clipboard keyed w3)).
    { unfold cmds.copyKey. by rewrite (bind_ok _ _ _ _ _ Hn3). }
    rewrite (bind_ok _ _ _ _ _ Hcopy).
    assert (Hr4 : cmds.node_named rig_root (set_clipboard keyed w3)
                  = (Ok (r, nr), set_clipboard keyed w3)).
    { rewrite (node_named_scene _ w) by done. by rewrite Hr. }
    unfold cmds.pasteKey. rewrite (bind_ok _ _ _ _ _ Hr4), bind_gets.
    cbn [w_clipboard set_clipboard fst snd].
    rewrite decide_False by (by apply count_all_keyed). done. }
  rewrite (bind_ok _ _ _ _ _ Hroot).
  eexists. split; [reflexivity | done].
Qed.

(** C4.  When the imported root carries at least one key, [transfer_animation]
    first pastes every keyed curve of the imported root, tracked or not, on
    the rig root (with [option="replace"]) and only then runs the loop over
    the matched pairs (the rest of the run starts from the scene with the
    pasted root).  The loop changes tracked attributes only, so a curve of the
    imported root outside the six tracked attributes ends on the root of rig
    A.  [transfer_animation_ignore_namespace] has no such copy: it changes no
    attribute outside the six on any node, so that curve does not reach
    rig B. *)
Theorem root_motion_reaches_rig_a_only `{Host} (w : world) (imported_root rig_root : string)
    (i r : nat) (n nr : node) :
  cmds.resolve (w_scene w) imported_root = Ok i → w_scene w !! i = Some n →
  cmds.resolve (w_scene w) rig_root = Ok r → w_scene w !! r = Some nr →
  0 < cmds.count_all n →
  (∃ imported_dict rig_dict w_mid,
     transfer_animation imported_root rig_root w =
       (matched_count <-
          for_count imported_dict (λ kv,
            match dict_get kv.1 rig_dict with
            | Some rig_joint => transfer_channels kv.2 rig_joint
            | None => ret 0
            end) 0 ;;
        print ("Successfully transferred animation for " +:+ pretty matched_count +:+ " joints."))
         w_mid ∧
     w_scene w_mid = <[r := root_pasted n nr]> (w_scene w)) ∧
  (∀ a, curve_at (root_pasted n nr) a =
        if decide (curve_at n a = []) then curve_at nr a
        else paste_replace (curve_at n a) (curve_at nr a)) ∧
  (∀ a, a ∉ tracked →
     chan (transfer_animation imported_root rig_root w).2 r a =
       if decide (curve_at n a = []) then curve_at nr a
       else paste_replace (curve_at n a) (curve_at nr a)) ∧
  (∀ w2 source_root target_root j a, a ∉ tracked →
     chan (transfer_animation_ignore_namespace source_root target_root w2).2 j a = chan w2 j a).
Proof.
  intros Hres Hi Hresr Hr Hpos.
  assert (Hn : cmds.node_named imported_root w = (Ok (i, n), w)) by by apply node_named_ok.
  assert (Hnr : cmds.node_named rig_root w = (Ok (r, nr), w)) by by apply node_named_ok.
  destruct (transfer_animation_root _ _ _ _ _ _ _ Hn Hnr Hpos)
    as (imported_dict & rig_dict & w_mid & Hrun & Hmid).
  split_and!.
  - by exists imported_dict, rig_dict, w_mid.
  - apply curve_at_root_pasted.
  - intros a Ha. rewrite Hrun.
    destruct ((matched_count <-
          for_count imported_dict (λ kv,
            match dict_get kv.1 rig_dict with
            | Some rig_joint => transfer_channels kv.2 rig_joint
            | None => ret 0
            end) 0 ;;
        print ("Successfully transferred animation for " +:+ pretty matched_count +:+ " joints."))
         w_mid) as [res w'] eqn:Hloop.
    assert (Hkeep : keeps a w_mid w').
    { revert Hloop. apply frames_bind; [|intros k; apply frames_print].
      apply frames_for_count. intros kv _. destruct (dict_get _ _); [|apply frames_ret].
      by apply frames_transfer_channels. }
    destruct Hkeep as [_ Hchan]. simpl. rewrite Hchan.
    unfold chan. rewrite Hmid.
    rewrite list_lookup_insert_eq by (by eapply lookup_lt_Some). simpl.
    apply curve_at_root_pasted.
  - intros w2 source_root target_root j a Ha.
    destruct (transfer_animation_ignore_namespace source_root target_root w2)
      as [res w'] eqn:Hrun2.
    destruct (frames_ignore_namespace a source_root target_root Ha _ _ _ Hrun2) as [_ Hchan].
    apply Hchan.
Qed.

Lemma empty_channel_is_skipped_witness :
  let w := sample_world in
  let src := "|A:Root|A:Spine|A:Hand" in
  let dst := "|B:Root|B:Spine|B:Hand" in
  let run := transfer_channels (H := sample_host) src dst w in
  cmds.keyframe_count src (Some "rotateZ") w = (Ok 0, w) ∧
  run.1 = Ok 1 ∧
  chan run.2 5 "rotateZ" = [(5, 5)%Z] ∧
  chan run.2 5 "translateX" = two_keys.
Proof.
  intros w src dst run. subst run.
  assert (Hcount : cmds.keyframe_count src (Some "rotateZ") w = (Ok 0, w)) by reflexivity.
  destruct (transfer_channels (H := sample_host) src dst w) as [res w'] eqn:Hrun.
  pose proof (empty_channel_is_skipped (H := sample_host) w src dst "rotateZ" res w'
                Hcount Hrun 5) as Hkeep.
  simpl. rewrite Hkeep.
  pose proof (f_equal fst Hrun) as H1. pose proof (f_equal snd Hrun) as H2.
  simpl in H1, H2. subst res w'. split_and!; reflexivity.
Defined.

Lemma scaleX_untracked : "scaleX" ∉ tracked.
Proof.
  unfold tracked. intros Hin.
  repeat (apply elem_of_cons in Hin as [Hin|Hin]; [discriminate|]).
  by apply elem_of_nil in Hin.
Qed.

Lemma root_motion_reaches_rig_a_only_witness :
  let w := world_of (rig_a ++ rig_b ++ walk_skeleton) in
  (∃ n nr,
     cmds.resolve (w_scene w) "Root" = Ok 6 ∧ w_scene w !! 6 = Some n ∧
     cmds.resolve (w_scene w) "A:Root" = Ok 0 ∧ w_scene w !! 0 = Some nr ∧
     0 < cmds.count_all n) ∧
  chan (transfer_animation (H := sample_host) "Root" "A:Root" w).2 0 "scaleX" = two_keys ∧
  chan (transfer_animation_ignore_namespace (H := sample_host) "A:Root" "B:Root"
          (transfer_animation (H := sample_host) "Root" "A:Root" w).2).2 3 "scaleX" = [].
Proof.
  intros w.
  assert (H1 : cmds.resolve (w_scene w) "Root" = Ok 6) by reflexivity.
  assert (H3 : cmds.resolve (w_scene w) "A:Root" = Ok 0) by reflexivity.
  destruct (w_scene w !! 6) as [n|] eqn:H2; [|discriminate].
  destruct (w_scene w !! 0) as [nr|] eqn:H4; [|discriminate].
  assert (H5 : 0 < cmds.count_all n).
  { injection H2 as <-. vm_compute. lia. }
  destruct (root_motion_reaches_rig_a_only (H := sample_host) w "Root" "A:Root" 6 0 n nr
              H1 H2 H3 H4 H5) as (_ & _ & Hroot & Hleg2).
  split_and!.
  - by exists n, nr.
  - rewrite (Hroot "scaleX" scaleX_untracked).
    injection H2 as <-. injection H4 as <-. reflexivity.
  - rewrite (Hleg2 _ _ _ 3 "scaleX" scaleX_untracked).
    rewrite (surjective_pairing (transfer_animation "Root" "A:Root" w)).
    reflexivity.
Defined.

(** ** One pair, pasted twice *)

Section Idempotence.
Context `{Host}.
Hypothesis paste_twice : ∀ c d, paste_replace c (paste_replace c d) = paste_replace c d.

Lemma paste_attr_fields src dst a :
  n_path (paste_attr src dst a) = n_path dst ∧ n_uuid (paste_attr src dst a) = n_uuid dst ∧
  n_joint (paste_attr src dst a) = n_joint dst ∧ n_locked (paste_attr src dst a) = n_locked dst ∧
  n_readonly (paste_attr src dst a) = n_readonly dst.
Proof. unfold paste_attr. by case_decide. Qed.

Lemma paste_attr_lookup src dst a b :
  n_curves (paste_attr src dst a) !! b =
    if decide (b = a ∧ curve_at src a ≠ []) then Some (paste_replace (curve_at src a) (curve_at dst a))
    else n_curves dst !! b.
Proof.
  unfold paste_attr. case_decide as Hc.
  - rewrite decide_False; [done|]. by intros [_ ?].
  - simpl. destruct (decide (b = a)) as [->|Hb].
    + rewrite lookup_insert_eq, decide_True; done.
    + rewrite lookup_insert_ne by done. rewrite decide_False; [done|]. by intros [? _].
Qed.

Lemma fold_paste_fields src l dst :
  n_path (foldl (paste_attr src) dst l) = n_path dst ∧
  n_uuid (foldl (paste_attr src) dst l) = n_uuid dst ∧
  n_joint (foldl (paste_attr src) dst l) = n_joint dst ∧
  n_locked (foldl (paste_attr src) dst l) = n_locked dst ∧
  n_readonly (foldl (paste_attr src) dst l) = n_readonly dst.
Proof.
  revert dst. induction l as [|a l IH]; intros dst; simpl; [done|].
  destruct (IH (paste_attr src dst a)) as (-> & -> & -> & -> & ->).
  apply paste_attr_fields.
Qed.

Lemma fold_paste_lookup src l dst b :
  NoDup l →
  n_curves (foldl (paste_attr src) dst l) !! b =
    if decide (b ∈ l ∧ curve_at src b ≠ [])
    then Some (paste_replace (curve_at src b) (curve_at dst b))
    else n_curves dst !! b.
Proof.
  intros Hnd. revert dst. induction Hnd as [|a l Ha Hnd IH]; intros dst.
  - rewrite decide_False; [done|]. intros [Hin _]. by apply elem_of_nil in Hin.
  - cbn [foldl]. rewrite IH. destruct (decide (b ∈ l ∧ curve_at src b ≠ [])) as [[Hin Hk]|Hno].
    + rewrite decide_True by (split; [by right | done]).
      unfold curve_at at 2. rewrite paste_attr_lookup.
      rewrite decide_False; [done|]. intros [-> _]. done.
    + rewrite paste_attr_lookup.
      destruct (decide (b = a ∧ curve_at src a ≠ [])) as [[-> Hk]|Hno'].
      * rewrite decide_True; [done|]. split; [left | done].
      * rewrite decide_False; [done|]. intros [Hin Hk].
        apply elem_of_cons in Hin as [->|Hin]; [by apply Hno' | by apply Hno].
Qed.

Lemma tracked_NoDup : NoDup tracked.
Proof.
  unfold tracked. repeat (apply NoDup_cons; split;
    [intros Hin; repeat (apply elem_of_cons in Hin as [Hin|Hin]; [discriminate|]);
     by apply elem_of_nil in Hin|]).
  apply NoDup_nil_2.
Qed.

Lemma node_eq n n' :
  n_path n = n_path n' → n_joint n = n_joint n' → n_uuid n = n_uuid n' →
  n_locked n = n_locked n' → n_readonly n = n_readonly n' → n_curves n = n_curves n' →
  n = n'.
Proof. destruct n, n'; simpl. by intros -> -> -> -> -> ->. Qed.

Lemma pair_node_idem src dst : pair_node src (pair_node src dst) = pair_node src dst.
Proof.
  unfold pair_node.
  destruct (fold_paste_fields src tracked dst) as (Hp & Hu & Hj & Hl & Hr).
  destruct (fold_paste_fields src tracked (foldl (paste_attr src) dst tracked))
    as (Hp' & Hu' & Hj' & Hl' & Hr').
  apply node_eq; try congruence.
  apply map_eq. intros b. rewrite !(fold_paste_lookup _ _ _ _ tracked_NoDup).
  case_decide as Hc; [|done]. f_equal.
  unfold curve_at at 2. rewrite (fold_paste_lookup _ _ _ _ tracked_NoDup).
  rewrite decide_True by done. simpl. apply paste_twice.
Qed.

Lemma pair_node_shape src dst :
  n_path (pair_node src dst) = n_path dst ∧ n_uuid (pair_node src dst) = n_uuid dst ∧
  n_joint (pair_node src dst) = n_joint dst.
Proof. destruct (fold_paste_fields src tracked dst) as (? & ? & ? & _). done. Qed.

Lemma apply_pair_shape s p : shape (apply_pair s p) = shape s.
Proof.
  unfold apply_pair. destruct (s !! p.1) as [n|]; [|done].
  destruct (s !! p.2) as [nr|] eqn:Hr; [|done].
  destruct (pair_node_shape n nr) as (? & ? & ?). by apply (shape_insert _ _ nr).
Qed.

Lemma apply_pairs_cons p ps s : apply_pairs (p :: ps) s = apply_pairs ps (apply_pair s p).
Proof. done. Qed.

Lemma apply_pairs_shape ps s : shape (apply_pairs ps s) = shape s.
Proof.
  revert s. induction ps as [|p ps IH]; intros s; [done|].
  by rewrite apply_pairs_cons, IH, apply_pair_shape.
Qed.

Lemma apply_pair_other s p j : j ≠ p.2 → apply_pair s p !! j = s !! j.
Proof.
  intros Hj. unfold apply_pair. destruct (s !! p.1); [|done]. destruct (s !! p.2); [|done].
  by rewrite list_lookup_insert_ne.
Qed.

Lemma apply_pair_target s i j n nr :
  s !! i = Some n → s !! j = Some nr → apply_pair s (i, j) !! j = Some (pair_node n nr).
Proof.
  intros Hi Hj. unfold apply_pair. simpl. rewrite Hi, Hj.
  apply list_lookup_insert_eq. by eapply lookup_lt_Some.
Qed.

Lemma apply_pairs_other ps s j : j ∉ ps.*2 → apply_pairs ps s !! j = s !! j.
Proof.
  revert s. induction ps as [|p ps IH]; intros s Hj; [done|].
  rewrite apply_pairs_cons, IH.
  - apply apply_pair_other. intros ->. apply Hj. left.
  - intros Hin. apply Hj. by right.
Qed.

Lemma apply_pairs_app ps qs s : apply_pairs (ps ++ qs) s = apply_pairs qs (apply_pairs ps s).
Proof. unfold apply_pairs. apply foldl_app. Qed.

Lemma apply_pairs_is_Some ps s j : is_Some (s !! j) → is_Some (apply_pairs ps s !! j).
Proof.
  intros Hj. apply lookup_lt_is_Some in Hj. apply lookup_lt_is_Some.
  pose proof (f_equal length (apply_pairs_shape ps s)) as Hl. unfold shape in Hl.
  rewrite !length_fmap in Hl. by rewrite Hl.
Qed.

(** When the run leaves its sources as they were, every destination ends as
    its pair applied to the nodes of the start. *)
Lemma apply_pairs_target ps s i j n nr :
  NoDup ps.*2 →
  (∀ p, p ∈ ps → apply_pairs ps s !! p.1 = s !! p.1) →
  (i, j) ∈ ps → s !! i = Some n → s !! j = Some nr →
  apply_pairs ps s !! j = Some (pair_node n nr).
Proof.
  intros Hnd Hsame Hin Hi Hj.
  pose proof (Hsame _ Hin) as Hsrc. simpl in Hsrc.
  apply list_elem_of_split in Hin as (pre & post & ->).
  rewrite fmap_app, fmap_cons in Hnd. simpl in Hnd.
  apply NoDup_app in Hnd as (_ & Hpre & Hnd). apply NoDup_cons in Hnd as [Hpost _].
  assert (Hjpre : j ∉ pre.*2). { intros Hp. apply (Hpre j Hp). left. }
  rewrite apply_pairs_app, apply_pairs_cons in *.
  rewrite (apply_pairs_other post _ j Hpost).
  assert (Hi' : apply_pairs pre s !! i = Some n).
  { destruct (decide (i ∈ pre.*2)) as [Hipre|Hipre].
    - rewrite <- Hi, <- Hsrc. rewrite (apply_pairs_other post).
      + rewrite apply_pair_other; [done|]. simpl. intros ->. done.
      + intros Hp. apply (Hpre i Hipre). by right.
    - by rewrite apply_pairs_other. }
  apply apply_pair_target; [done|]. by rewrite apply_pairs_other.
Qed.

Lemma apply_pairs_idem ps s :
  NoDup ps.*2 →
  (∀ p, p ∈ ps → is_Some (s !! p.1) ∧ is_Some (s !! p.2)) →
  (∀ p, p ∈ ps → apply_pairs ps s !! p.1 = s !! p.1) →
  apply_pairs ps (apply_pairs ps s) = apply_pairs ps s.
Proof.
  intros Hnd Hvalid Hsame.
  assert (Hsub : ∀ qs, (∀ p, p ∈ qs → p ∈ ps) →
            apply_pairs qs (apply_pairs ps s) = apply_pairs ps s).
  { induction qs as [|[i j] qs IH]; intros Hqs; [done|].
    rewrite apply_pairs_cons.
    assert (Hp : (i, j) ∈ ps) by (apply Hqs; left).
    destruct (Hvalid _ Hp) as [[n Hi] [nr Hj]]. simpl in *.
    assert (Hstep : apply_pair (apply_pairs ps s) (i, j) = apply_pairs ps s).
    { unfold apply_pair. pose proof (Hsame _ Hp) as Hsrc. cbn [fst snd] in *.
      rewrite Hsrc, Hi.
      rewrite (apply_pairs_target ps s i j n nr) by done.
      rewrite pair_node_idem. apply list_insert_id.
      by apply (apply_pairs_target ps s i j n nr). }
    rewrite Hstep. apply IH. intros p Hq. apply Hqs. by right. }
  by apply Hsub.
Qed.

End Idempotence.

(** ** The loops, on a scene where every name resolves *)

Lemma curve_at_pasted_ne `{Host} b c n a : a ≠ b → curve_at (pasted b c n) a = curve_at n a.
Proof. intros Ha. unfold curve_at, pasted. simpl. by rewrite lookup_insert_ne. Qed.

(** The inner loop on a pair of resolved names.  [n] is the source node at
    the start; [n_cur] is the source node now, which agrees with [n] on the
    attributes still to come (the two differ only when the pair is a node
    with itself). *)
Lemma transfer_loop_run `{Host} ij rj i r n (l : list string) n_cur nr acc w :
  NoDup l →
  cmds.resolve (w_scene w) ij = Ok i → w_scene w !! i = Some n_cur →
  (∀ b, b ∈ l → curve_at n_cur b = curve_at n b) →
  cmds.resolve (w_scene w) rj = Ok r → w_scene w !! r = Some nr →
  ∃ k w', for_count l (transfer_channel ij rj) acc w = (Ok k, w') ∧
          w_scene w' = <[r := foldl (paste_attr n) nr l]> (w_scene w).
Proof.
  intros Hnd. revert n_cur nr acc w.
  induction Hnd as [|b l Hb Hnd IH]; intros n_cur nr acc w Hres Hi Hagree Hresr Hr.
  { exists acc, w. split; [done|]. simpl. symmetry. by apply list_insert_id. }
  cbn [for_count foldl].
  pose proof (transfer_channel_run ij rj b w) as Hstep.
  rewrite (node_named_ok _ _ _ _ Hres Hi), (node_named_ok _ _ _ _ Hresr Hr) in Hstep.
  rewrite (Hagree b) in Hstep by left.
  unfold paste_attr at 2. case_decide as Hc.
  - rewrite (bind_ok _ _ _ _ _ Hstep). apply (IH n_cur); try done.
    intros b' Hb'. apply Hagree. by right.
  - cbv zeta in Hstep. rewrite (bind_ok _ _ _ _ _ Hstep).
    set (nr' := pasted b (curve_at n b) nr).
    set (w1 := set_scene _ _).
    assert (Hcur : ∃ n_cur', w_scene w1 !! i = Some n_cur' ∧
                     ∀ b', b' ∈ l → curve_at n_cur' b' = curve_at n b').
    { destruct (decide (i = r)) as [->|Hne].
      - exists nr'. split.
        + simpl. apply list_lookup_insert_eq. by eapply lookup_lt_Some.
        + intros b' Hb'. unfold nr'. rewrite curve_at_pasted_ne by (by intros ->).
          assert (nr = n_cur) as -> by congruence. apply Hagree. by right.
      - exists n_cur. split.
        + simpl. by rewrite list_lookup_insert_ne.
        + intros b' Hb'. apply Hagree. by right. }
    destruct Hcur as (n_cur' & Hi' & Hagree').
    destruct (IH n_cur' nr' (acc + 1) w1) as (k & w' & Hrun & Hscene); try done.
    + simpl. by rewrite (resolve_insert _ _ _ _ _ Hr).
    + simpl. by rewrite (resolve_insert _ _ _ _ _ Hr).
    + simpl. apply list_lookup_insert_eq. by eapply lookup_lt_Some.
    + exists k, w'. split; [done|]. rewrite Hscene. simpl. apply list_insert_insert_eq.
Qed.

Lemma transfer_channels_pair `{Host} ij rj i r w :
  cmds.resolve (w_scene w) ij = Ok i → cmds.resolve (w_scene w) rj = Ok r →
  is_Some (w_scene w !! i) → is_Some (w_scene w !! r) →
  ∃ k w', transfer_channels ij rj w = (Ok k, w') ∧
          w_scene w' = apply_pair (w_scene w) (i, r).
Proof.
  intros Hres Hresr [n Hi] [nr Hr].
  destruct (transfer_loop_run ij rj i r n tracked n nr 0 w tracked_NoDup Hres Hi
              (λ _ _, eq_refl) Hresr Hr) as (k & w' & Hrun & Hscene).
  exists k, w'. split; [done|]. unfold apply_pair. simpl. by rewrite Hi, Hr.
Qed.

Lemma resolves_shape s s' sp p : shape s = shape s' → resolves s sp p → resolves s' sp p.
Proof.
  intros Hs (H1 & H2 & H3 & H4). unfold resolves.
  rewrite <- !(resolve_shape _ _ _ Hs).
  assert (Hlen : length s = length s').
  { pose proof (f_equal length Hs) as Hl. unfold shape in Hl. by rewrite !length_fmap in Hl. }
  split_and!; [done | done | |]; apply lookup_lt_is_Some; rewrite <- Hlen;
    by apply lookup_lt_is_Some.
Qed.

Lemma pairs_loop_run `{Host} (sps : list (string * string)) (ps : list (nat * nat)) w :
  Forall2 (resolves (w_scene w)) sps ps →
  ∃ w', for_ sps (λ sp, transfer_channels sp.1 sp.2 ;;; ret tt) w = (Ok tt, w') ∧
        w_scene w' = apply_pairs ps (w_scene w).
Proof.
  revert sps w. induction ps as [|p ps IH]; intros sps w Hall.
  { apply Forall2_nil_inv_r in Hall as ->. by exists w. }
  apply Forall2_cons_inv_r in Hall as (sp & sps' & Hsp & Hall & ->).
  destruct Hsp as (H1 & H2 & H3 & H4).
  destruct (transfer_channels_pair sp.1 sp.2 p.1 p.2 w H1 H2 H3 H4) as (k & w1 & Hrun & Hscene).
  destruct (IH sps' w1) as (w' & Hrest & Hscene').
  - rewrite Hscene. eapply Forall2_impl; [exact Hall|]. intros sp' p'.
    apply resolves_shape. symmetry. apply apply_pair_shape.
  - exists w'. split.
    + cbn [for_]. by rewrite (bind_ok _ _ _ _ _ (bind_ok _ _ _ _ _ Hrun)).
    + rewrite Hscene', Hscene. rewrite apply_pairs_cons. by destruct p.
Qed.

Lemma bind_ext {A B} (m : M A) (k1 k2 : A → M B) w :
  (∀ a w', k1 a w' = k2 a w') → bind m k1 w = bind m k2 w.
Proof. intros Hk. unfold bind. destruct (m w) as [[a|e] w']; [apply Hk | done]. Qed.

Lemma bind_cong {A B} (m1 m2 : M A) (k : A → M B) w :
  m1 w = m2 w → bind m1 k w = bind m2 k w.
Proof. unfold bind. by intros ->. Qed.

(** The loop of the transfer runs over the matched pairs. *)
Lemma for_matched_pairs `{Host} imported_dict rig_dict w :
  for_ imported_dict (λ kv,
    match dict_get kv.1 rig_dict with
    | Some rig_joint => transfer_channels kv.2 rig_joint ;;; ret tt
    | None => ret tt
    end) w
  = for_ (matched_pairs imported_dict rig_dict)
      (λ sp, transfer_channels sp.1 sp.2 ;;; ret tt) w.
Proof.
  revert w. induction imported_dict as [|kv d IH]; intros w; [done|].
  unfold matched_pairs. cbn [for_ omap list_omap].
  destruct (dict_get kv.1 rig_dict) as [rj|]; simpl.
  - apply bind_ext. intros _ w'. apply IH.
  - rewrite bind_ret. apply IH.
Qed.

(** ** The traversals of a well-formed scene *)

Lemma descendant_names_shape s s' r r' :
  shape s = shape s' → n_path r = n_path r' → descendant_names s r = descendant_names s' r'.
Proof.
  intros Hs Hr. unfold descendant_names. revert s' Hs.
  induction s as [|n s IH]; intros [|n' s'] Hs; try done.
  injection Hs as Hp Hu Hj Hs. rewrite !filter_cons.
  assert (Hd : cmds.is_descendant r n = cmds.is_descendant r' n').
  { unfold cmds.is_descendant. by rewrite Hr, Hp. }
  assert (Hf : full n = full n') by (unfold full; by rewrite Hp).
  rewrite Hd, Hj. case_decide; rewrite ?fmap_cons, ?Hf, (IH s' Hs); done.
Qed.

Lemma matching_from_none k s x :
  (∀ n, n ∈ s → cmds.matches x n = false) → cmds.matching_from k s x = [].
Proof.
  revert k. induction s as [|n s IH]; intros k Hall; simpl; [done|].
  rewrite (Hall n) by left. simpl. apply IH. intros m Hm. apply Hall. by right.
Qed.

Lemma matches_long x n : PyStr.startswith "|" x = true → cmds.matches x n = bool_decide (x = full n).
Proof. unfold cmds.matches. by intros ->. Qed.

Lemma matching_from_full k s j m :
  NoDup (full <$> s) → s !! j = Some m → n_path m ≠ [] →
  cmds.matching_from k s (full m) = [k + j].
Proof.
  intros Hnd Hj Hp. revert k j Hnd Hj.
  induction s as [|n s IH]; intros k j Hnd Hj; [done|].
  rewrite fmap_cons in Hnd. apply NoDup_cons in Hnd as [Hn Hnd].
  assert (Hbar : PyStr.startswith "|" (full m) = true) by by apply render_bar.
  cbn [cmds.matching_from]. rewrite (matches_long _ _ Hbar).
  destruct j as [|j]; simpl in Hj.
  - injection Hj as ->. rewrite bool_decide_eq_true_2 by done.
    rewrite matching_from_none.
    + simpl. f_equal. lia.
    + intros n' Hn'. rewrite (matches_long _ _ Hbar). apply bool_decide_eq_false_2.
      intros Heq. apply Hn. rewrite Heq. by apply list_elem_of_fmap_2.
  - rewrite bool_decide_eq_false_2.
    + simpl. rewrite (IH (S k) j Hnd Hj). f_equal. lia.
    + intros Heq. apply Hn. rewrite <- Heq. apply list_elem_of_fmap_2.
      by eapply list_elem_of_lookup_2.
Qed.

Lemma resolve_full s j m :
  NoDup (full <$> s) → s !! j = Some m → n_path m ≠ [] → cmds.resolve s (full m) = Ok j.
Proof.
  intros Hnd Hj Hp. unfold cmds.resolve, cmds.matching.
  by rewrite (matching_from_full 0 s j m Hnd Hj Hp).
Qed.

Lemma is_descendant_prefix r m : cmds.is_descendant r m = true → n_path r `prefix_of` n_path m.
Proof.
  unfold cmds.is_descendant. intros Hd. apply andb_true_iff in Hd as [Hp _].
  by apply bool_decide_eq_true_1 in Hp.
Qed.

Lemma is_descendant_irrefl r : cmds.is_descendant r r = false.
Proof.
  unfold cmds.is_descendant. rewrite (bool_decide_eq_true_2 (n_path r = n_path r)) by done.
  apply andb_false_r.
Qed.

Lemma traversal_resolves s root i r x :
  NoDup (full <$> s) → cmds.resolve s root = Ok i → s !! i = Some r →
  x ∈ descendant_names s r ++ [root] → ∃ j, in_traversal s root r x j.
Proof.
  intros Hnd Hres Hi Hx. apply elem_of_app in Hx as [Hx|Hx].
  - apply list_elem_of_fmap in Hx as (m & -> & Hm).
    apply list_elem_of_filter in Hm as [[_ Hd] Hm].
    apply list_elem_of_lookup_1 in Hm as [j Hj].
    exists j. split.
    + apply resolve_full; [done | done | by eapply is_descendant_nonempty].
    + exists m. split_and!; [done | by apply is_descendant_prefix | by right].
  - apply list_elem_of_singleton in Hx as ->. exists i. split; [done|].
    exists r. split_and!; [done | done | by left].
Qed.

Lemma in_traversal_inj s root r x x' j :
  in_traversal s root r x j → in_traversal s root r x' j → x = x'.
Proof.
  intros (_ & m & Hm & _ & Hx) (_ & m' & Hm' & _ & Hx').
  assert (m' = m) as -> by congruence.
  destruct Hx as [[-> ->]|[-> Hd]], Hx' as [[-> Hr]|[-> Hd']]; try done.
  - by rewrite is_descendant_irrefl in Hd'.
  - subst m. by rewrite is_descendant_irrefl in Hd.
Qed.

(** ** The matched pairs *)

Lemma dict_get_elem k v d : dict_get k d = Some v → (k, v) ∈ d.
Proof.
  induction d as [|[k' v'] d IH]; simpl; [done|].
  case_decide as Hk.
  - intros [= ->]. subst. left.
  - intros Hg. right. by apply IH.
Qed.

Lemma matched_pairs_elem js js' ij rj :
  (ij, rj) ∈ matched_pairs (namespace_dict js) (namespace_dict js') → ij ∈ js ∧ rj ∈ js'.
Proof.
  unfold matched_pairs. intros Hin. apply list_elem_of_omap in Hin as ([k v] & Hkv & Hg).
  simpl in Hg. destruct (dict_get k (namespace_dict js')) as [v'|] eqn:Hget; [|done].
  injection Hg as <- <-. split.
  - by apply namespace_dict_entry in Hkv as [_ ?].
  - apply dict_get_elem in Hget. by apply namespace_dict_entry in Hget as [_ ?].
Qed.

Lemma matched_pairs_cons kv d rd :
  matched_pairs (kv :: d) rd =
    match dict_get kv.1 rd with
    | Some rig_joint => (kv.2, rig_joint) :: matched_pairs d rd
    | None => matched_pairs d rd
    end.
Proof. unfold matched_pairs. cbn [omap list_omap]. by destruct (dict_get kv.1 rd). Qed.

Lemma matched_pairs_targets_NoDup (d rd : dict) :
  NoDup d.*1 → (∀ k v, dict_get k rd = Some v → remove_namespace v = k) →
  NoDup (matched_pairs d rd).*2.
Proof.
  intros Hnd Hkey. induction d as [|[k v] d IH]; [constructor|].
  rewrite fmap_cons in Hnd. apply NoDup_cons in Hnd as [Hk Hnd].
  rewrite matched_pairs_cons. cbn [fst snd].
  destruct (dict_get k rd) as [rj|] eqn:Hget; [|by apply IH].
  rewrite fmap_cons. apply NoDup_cons. split; [|by apply IH].
  intros Hin. apply list_elem_of_fmap in Hin as ([v' rj'] & Heq & Hin). simpl in Heq. subst rj'.
  unfold matched_pairs in Hin. apply list_elem_of_omap in Hin as ([k' v''] & Hkv & Hg).
  simpl in Hg. destruct (dict_get k' rd) as [rj'|] eqn:Hget'; [|done].
  injection Hg as -> ->. apply Hk.
  rewrite <- (Hkey _ _ Hget), (Hkey _ _ Hget'). apply list_elem_of_fmap. by exists (k', v').
Qed.

Lemma matched_pairs_NoDup js js' :
  NoDup (matched_pairs (namespace_dict js) (namespace_dict js')).*2.
Proof.
  apply matched_pairs_targets_NoDup; [apply dict_of_NoDup|].
  intros k v Hget. apply dict_get_elem in Hget.
  by apply namespace_dict_entry in Hget as [-> _].
Qed.

(** ** The second transfer, run twice *)

Lemma ignore_namespace_run `{Host} w source_root target_root i_s n_s i_t n_t :
  cmds.node_named source_root w = (Ok (i_s, n_s), w) →
  cmds.node_named target_root w = (Ok (i_t, n_t), w) →
  transfer_animation_ignore_namespace source_root target_root w =
    (for_ (matched_pairs
             (namespace_dict (descendant_names (w_scene w) n_s ++ [source_root]))
             (namespace_dict (descendant_names (w_scene w) n_t ++ [target_root])))
       (λ sp, transfer_channels sp.1 sp.2 ;;; ret tt) ;;;
     print "Animation successfully transferred to target rig!") w.
Proof.
  intros Hs Ht. unfold transfer_animation_ignore_namespace.
  rewrite (bind_ok _ _ _ _ _ (listRelatives_allDescendents_run _ _ _ _ Hs)).
  rewrite (bind_ok _ _ _ _ _ (listRelatives_allDescendents_run _ _ _ _ Ht)).
  cbv beta zeta. rewrite !or_empty_descendants.
  apply bind_cong. apply for_matched_pairs.
Qed.

Lemma shape_lookup s s' j n :
  shape s' = shape s → s !! j = Some n →
  ∃ n', s' !! j = Some n' ∧ n_path n' = n_path n ∧ n_uuid n' = n_uuid n ∧ n_joint n' = n_joint n.
Proof.
  intros Hs Hj. pose proof (f_equal (λ l, l !! j) Hs) as Hl. simpl in Hl.
  unfold shape in Hl. rewrite !list_lookup_fmap, Hj in Hl.
  destruct (s' !! j) as [n'|]; [|done]. injection Hl as Hp Hu Hjo. by exists n'.
Qed.

Lemma Forall2_exists {A B} (R : A → B → Prop) (l : list A) :
  (∀ a, a ∈ l → ∃ b, R a b) → ∃ k, Forall2 R l k.
Proof.
  induction l as [|a l IH]; intros Hall; [by exists []|].
  destruct (Hall a) as [b Hb]; [left|].
  destruct IH as [k Hk]; [intros a' Ha'; apply Hall; by right|].
  exists (b :: k). by constructor.
Qed.

Lemma Forall2_elem_r {A B} (R : A → B → Prop) l k b :
  Forall2 R l k → b ∈ k → ∃ a, a ∈ l ∧ R a b.
Proof.
  induction 1 as [|a b' l k Hab Hall IH]; intros Hb; [by apply elem_of_nil in Hb|].
  apply elem_of_cons in Hb as [->|Hb].
  - exists a. split; [left | done].
  - destruct (IH Hb) as (a' & Ha' & HR). exists a'. split; [by right | done].
Qed.

Lemma Forall2_NoDup_2 {A B} (R : A → B → Prop) (l : list (A * A)) (k : list (B * B)) :
  Forall2 (λ a b, R a.2 b.2) l k →
  (∀ a a' b, R a b → R a' b → a = a') →
  NoDup l.*2 → NoDup k.*2.
Proof.
  intros Hall Hinj. induction Hall as [|a b l k Hab Hall IH]; intros Hnd; [constructor|].
  rewrite fmap_cons in Hnd. apply NoDup_cons in Hnd as [Ha Hnd].
  rewrite fmap_cons. apply NoDup_cons. split; [|by apply IH].
  intros Hin. apply list_elem_of_fmap in Hin as (b' & Heq & Hb').
  destruct (Forall2_elem_r _ _ _ _ Hall Hb') as (a' & Ha' & HR).
  apply Ha. rewrite Heq in Hab. rewrite (Hinj _ _ _ Hab HR).
  by apply list_elem_of_fmap_2.
Qed.

(** C7.  With a paste that is a replacement (pasting the same curve twice is
    pasting it once), on a scene whose nodes have distinct long names, and
    when the first run has left every node of the source hierarchy as it
    was, running [transfer_animation_ignore_namespace] a second time on the
    state left by the first gives the same result and the same scene: every
    channel of every node holds the curve it held after one run.  The two
    hierarchies may share nodes. *)
Theorem namespace_transfer_idempotent `{Host} (w : world) (source_root target_root : string) :
  let once := transfer_animation_ignore_namespace source_root target_root w in
  let twice := transfer_animation_ignore_namespace source_root target_root once.2 in
  (∀ c d, paste_replace c (paste_replace c d) = paste_replace c d) →
  NoDup (full <$> w_scene w) →
  source_unchanged (w_scene w) (w_scene once.2) source_root →
  twice.1 = once.1 ∧ w_scene twice.2 = w_scene once.2.
Proof.
  intros once twice Hlaw Hwf Hsame. subst once twice.
  destruct (cmds.node_named source_root w) as [[[i_s n_s]|e] w0] eqn:Hs;
    pose proof (node_named_pure _ _ _ _ Hs) as ->.
  2:{ assert (Hrun : transfer_animation_ignore_namespace source_root target_root w = (Raise e, w)).
      { unfold transfer_animation_ignore_namespace. apply bind_raise.
        unfold cmds.listRelatives_allDescendents. by apply bind_raise. }
      rewrite Hrun. simpl. by rewrite Hrun. }
  destruct (cmds.node_named target_root w) as [[[i_t n_t]|e] w0] eqn:Ht;
    pose proof (node_named_pure _ _ _ _ Ht) as ->.
  2:{ assert (Hrun : transfer_animation_ignore_namespace source_root target_root w = (Raise e, w)).
      { unfold transfer_animation_ignore_namespace.
        rewrite (bind_ok _ _ _ _ _ (listRelatives_allDescendents_run _ _ _ _ Hs)).
        apply bind_raise. unfold cmds.listRelatives_allDescendents. by apply bind_raise. }
      rewrite Hrun. simpl. by rewrite Hrun. }
  pose proof (node_named_inv _ _ _ _ Hs) as [Hrs His].
  pose proof (node_named_inv _ _ _ _ Ht) as [Hrt Hit].
  set (s := w_scene w) in *.
  set (sps := matched_pairs
                (namespace_dict (descendant_names s n_s ++ [source_root]))
                (namespace_dict (descendant_names s n_t ++ [target_root]))).
  (* every matched name denotes a node of its hierarchy *)
  destruct (Forall2_exists
    (λ (sp : string * string) (p : nat * nat),
       in_traversal s source_root n_s sp.1 p.1 ∧ in_traversal s target_root n_t sp.2 p.2) sps)
    as [ps Hps].
  { intros [ij rj] Hin. apply matched_pairs_elem in Hin as [Hij Hrj].
    destruct (traversal_resolves s source_root i_s n_s ij Hwf Hrs His Hij) as [i Hi].
    destruct (traversal_resolves s target_root i_t n_t rj Hwf Hrt Hit Hrj) as [r Hr].
    by exists (i, r). }
  assert (Hres : Forall2 (resolves s) sps ps).
  { eapply Forall2_impl; [exact Hps|]. intros sp p [(H1 & m & Hm & _) (H2 & m' & Hm' & _)].
    unfold resolves. split_and!; [done | done | by exists m | by exists m']. }
  assert (Hnd : NoDup ps.*2).
  { eapply (Forall2_NoDup_2 (in_traversal s target_root n_t)).
    - eapply Forall2_impl; [exact Hps|]. by intros sp p [_ ?].
    - intros a a' b. apply in_traversal_inj.
    - apply matched_pairs_NoDup. }
  (* the first run *)
  destruct (pairs_loop_run sps ps w Hres) as (w1 & Hloop1 & Hscene1).
  assert (Hrun1 : transfer_animation_ignore_namespace source_root target_root w
                  = (Ok tt, emit (Stdout "Animation successfully transferred to target rig!") w1)).
  { rewrite (ignore_namespace_run _ _ _ _ _ _ _ Hs Ht). fold s. fold sps.
    by rewrite (bind_ok _ _ _ _ _ Hloop1). }
  rewrite Hrun1 in *. cbn [fst snd] in *.
  set (w2 := emit _ w1) in *.
  assert (Hscene2 : w_scene w2 = apply_pairs ps s) by done.
  assert (Hshape : shape (w_scene w2) = shape s).
  { rewrite Hscene2. apply apply_pairs_shape. }
  (* the first run left the sources as they were *)
  assert (Hsrc : ∀ p, p ∈ ps → apply_pairs ps s !! p.1 = s !! p.1).
  { intros p Hp.
    destruct (Forall2_elem_r _ _ _ _ Hps Hp) as (sp & _ & (_ & m & Hm & Hpre & _) & _).
    rewrite Hm, <- Hscene2. by apply (Hsame i_s n_s). }
  (* the second run sees the same names and the same nodes *)
  destruct (shape_lookup _ _ _ _ Hshape His) as (n_s' & His' & Hps' & _).
  destruct (shape_lookup _ _ _ _ Hshape Hit) as (n_t' & Hit' & Hpt' & _).
  assert (Hs2 : cmds.node_named source_root w2 = (Ok (i_s, n_s'), w2)).
  { apply node_named_ok; [|done]. by rewrite (resolve_shape _ _ _ Hshape). }
  assert (Ht2 : cmds.node_named target_root w2 = (Ok (i_t, n_t'), w2)).
  { apply node_named_ok; [|done]. by rewrite (resolve_shape _ _ _ Hshape). }
  assert (Hsps : matched_pairs
                   (namespace_dict (descendant_names (w_scene w2) n_s' ++ [source_root]))
                   (namespace_dict (descendant_names (w_scene w2) n_t' ++ [target_root]))
                 = sps).
  { unfold sps.
    by rewrite (descendant_names_shape _ _ _ _ Hshape Hps'),
               (descendant_names_shape _ _ _ _ Hshape Hpt'). }
  destruct (pairs_loop_run sps ps w2) as (w3 & Hloop2 & Hscene3).
  { eapply Forall2_impl; [exact Hres|]. intros sp p. apply resolves_shape. by symmetry. }
  rewrite (ignore_namespace_run _ _ _ _ _ _ _ Hs2 Ht2), Hsps.
  rewrite (bind_ok _ _ _ _ _ Hloop2). split; [done|].
  change (w_scene w3 = w_scene w2). rewrite Hscene3, Hscene2.
  apply apply_pairs_idem; try done.
  intros p Hp. destruct (Forall2_elem_r _ _ _ _ Hres Hp) as (sp & _ & _ & _ & ? & ?). done.
Qed.

Lemma namespace_transfer_idempotent_witness :
  let w := sample_world in
  let once := transfer_animation_ignore_namespace (H := sample_host) "A:Root" "B:Root" w in
  let twice := transfer_animation_ignore_namespace (H := sample_host) "A:Root" "B:Root" once.2 in
  (∀ c d, @paste_replace sample_host c (@paste_replace sample_host c d)
          = @paste_replace sample_host c d) ∧
  NoDup (full <$> w_scene w) ∧
  source_unchanged (w_scene w) (w_scene once.2) "A:Root" ∧
  chan once.2 5 "translateX" = two_keys ∧
  w_scene twice.2 = w_scene once.2.
Proof.
  intros w once twice.
  assert (Hlaw : ∀ c d, @paste_replace sample_host c (@paste_replace sample_host c d)
                        = @paste_replace sample_host c d) by done.
  assert (Hwf : NoDup (full <$> w_scene w)).
  { apply (bool_decide_unpack _). by vm_compute. }
  assert (Hsame : source_unchanged (w_scene w) (w_scene once.2) "A:Root").
  { intros i_s n_s i m Hs Hns Hm Hpre.
    vm_compute in Hs. injection Hs as <-. injection Hns as <-.
    destruct Hpre as [k Hk].
    do 6 (destruct i as [|i]; [injection Hm as <-; try reflexivity; simpl in Hk; congruence|]).
    done. }
  destruct (namespace_transfer_idempotent (H := sample_host) w "A:Root" "B:Root"
              Hlaw Hwf Hsame) as [_ Hscene].
  split_and!; [done | done | done | reflexivity | exact Hscene].
Defined.

(** ** What follows the last separator *)

Lemma split_plain sep s : PyStr.contains sep s = false → PyStr.split sep s = [s].
Proof.
  induction s as [|c s IH]; simpl; [done|].
  intros Hc. apply orb_false_iff in Hc as [Hc Hs]. by rewrite Hc, (IH Hs).
Qed.

Lemma split_fields sep s :
  PyStr.contains sep s = true → ∃ h x t, PyStr.split sep s = h :: x :: t.
Proof.
  induction s as [|c s IH]; simpl; [done|].
  destruct (Ascii.eqb c sep) eqn:Hc; simpl.
  - intros _. destruct s as [|d s]; [by eexists _, _, _|]. simpl.
    destruct (Ascii.eqb d sep); [by eexists _, _, _|].
    destruct (PyStr.split sep s); by eexists _, _, _.
  - intros Hs. destruct (IH Hs) as (h & x & t & ->). by eexists _, _, _.
Qed.

(** The last field of a split, by cases on the first character. *)
Lemma last_split_cons sep c s :
  PyStr.last_item (PyStr.split sep (String c s)) =
    if PyStr.contains sep s then PyStr.last_item (PyStr.split sep s)
    else if Ascii.eqb c sep then s else String c s.
Proof.
  cbn [PyStr.split]. destruct (PyStr.contains sep s) eqn:Hs.
  - destruct (split_fields _ _ Hs) as (h & x & t & ->). by destruct (Ascii.eqb c sep).
  - rewrite (split_plain _ _ Hs). by destruct (Ascii.eqb c sep).
Qed.

Lemma last_split_clean sep s : PyStr.contains sep (PyStr.last_item (PyStr.split sep s)) = false.
Proof.
  induction s as [|c s IH]; [done|]. rewrite last_split_cons.
  destruct (PyStr.contains sep s) eqn:Hs; [done|].
  destruct (Ascii.eqb c sep) eqn:Hc; [done|]. simpl. by rewrite Hc, Hs.
Qed.

Lemma contains_app sep a b :
  PyStr.contains sep (a +:+ b) = PyStr.contains sep a || PyStr.contains sep b.
Proof. induction a as [|c a IH]; simpl; [done|]. by rewrite IH, orb_assoc. Qed.

(** Text before a separator does not count. *)
Lemma last_split_app sep a b :
  PyStr.last_item (PyStr.split sep (a +:+ String sep b)) = PyStr.last_item (PyStr.split sep b).
Proof.
  induction a as [|c a IH].
  - change ("" +:+ String sep b) with (String sep b). rewrite last_split_cons.
    rewrite Ascii.eqb_refl. destruct (PyStr.contains sep b) eqn:Hb; [done|].
    by rewrite (split_plain _ _ Hb).
  - change (String c a +:+ String sep b) with (String c (a +:+ String sep b)).
    rewrite last_split_cons, contains_app. simpl. rewrite Ascii.eqb_refl, orb_true_r. done.
Qed.

(** A string is its last field, or ends with a separator and its last field. *)
Lemma last_split_cut sep s :
  (PyStr.contains sep s = false ∧ PyStr.last_item (PyStr.split sep s) = s) ∨
  ∃ pre, s = pre +:+ String sep (PyStr.last_item (PyStr.split sep s)).
Proof.
  induction s as [|c s IH]; [by left|]. rewrite last_split_cons.
  destruct IH as [[Hs Hl]|[pre Hpre]].
  - rewrite Hs. destruct (Ascii.eqb c sep) eqn:Hc.
    + right. exists "". apply Ascii.eqb_eq in Hc as ->. done.
    + left. simpl. by rewrite Hc, Hs.
  - assert (Hs : PyStr.contains sep s = true).
    { rewrite Hpre, contains_app. simpl. by rewrite Ascii.eqb_refl, orb_true_r. }
    rewrite Hs. right. exists (String c pre).
    change (String c pre +:+ ?x) with (String c (pre +:+ x)). by f_equal.
Qed.


Lemma append_cons x (a b : string) : String x a +:+ b = String x (a +:+ b).
Proof. done. Qed.

Lemma append_assoc (a b c : string) : (a +:+ b) +:+ c = a +:+ b +:+ c.
Proof. induction a as [|x a IH]; [done|]. rewrite !append_cons. by f_equal. Qed.

Lemma append_nil_r (a : string) : a +:+ "" = a.
Proof. induction a as [|x a IH]; [done|]. rewrite append_cons. by f_equal. Qed.

Lemma chars_app (a b : string) : PyStr.chars (a +:+ b) = PyStr.chars a ++ PyStr.chars b.
Proof.
  unfold PyStr.chars. induction a as [|x a IH]; [done|].
  rewrite append_cons. cbn [String.list_ascii_of_string app]. by f_equal.
Qed.

Lemma render_app p q : render (p ++ q) = render p +:+ render q.
Proof.
  unfold render. induction p as [|y p IH]; [done|].
  cbn [app foldr]. rewrite IH. by rewrite !append_assoc.
Qed.

Lemma render_snoc p x : render (p ++ [x]) = render p +:+ String "|" x.
Proof. rewrite render_app. unfold render at 2. simpl. by rewrite append_nil_r. Qed.

(** A long name ends with a bar and the local name. *)
Lemma full_local n : n_path n ≠ [] → ∃ pre, full n = pre +:+ String "|" (local_name n).
Proof.
  unfold full, local_name. intros Hp.
  destruct (n_path n) as [|x p _] using rev_ind; [done|].
  exists (render p). rewrite last_snoc. apply render_snoc.
Qed.

(** ** The match keys of the two transfers *)

Lemma remove_namespace_prefix ns x : remove_namespace (ns +:+ ":" +:+ x) = remove_namespace x.
Proof. apply last_split_app. Qed.

(** X5.  [remove_namespace] returns what follows the last colon of a name: the
    result holds no colon, the name is the result itself when it has no colon
    and otherwise a prefix, a colon and the result; so stripping twice is
    stripping once, and a further namespace in front changes nothing. *)
Theorem remove_namespace_after_last_colon (joint_name : string) :
  PyStr.contains ":" (remove_namespace joint_name) = false ∧
  ((PyStr.contains ":" joint_name = false ∧ remove_namespace joint_name = joint_name) ∨
   ∃ ns, joint_name = ns +:+ ":" +:+ remove_namespace joint_name) ∧
  remove_namespace (remove_namespace joint_name) = remove_namespace joint_name ∧
  ∀ ns, remove_namespace (ns +:+ ":" +:+ joint_name) = remove_namespace joint_name.
Proof.
  unfold remove_namespace. split_and!.
  - apply last_split_clean.
  - apply last_split_cut.
  - by rewrite (split_plain _ _ (last_split_clean ":" joint_name)).
  - intros ns. apply remove_namespace_prefix.
Qed.

(** X6.  In [transfer_animation_ignore_namespace] a joint whose local name
    carries a namespace is keyed by what follows the last colon of the local
    name, whatever lies above it in its long name; so [ns1:Hand] and [ns2:Hand]
    share a key at any depth of their hierarchies. *)
Theorem namespaced_joint_key (n : node) :
  n_path n ≠ [] → PyStr.contains ":" (local_name n) = true →
  remove_namespace (full n) = remove_namespace (local_name n) ∧
  ∀ m ns1 ns2 x,
    n_path m ≠ [] → local_name n = ns1 +:+ ":" +:+ x → local_name m = ns2 +:+ ":" +:+ x →
    remove_namespace (full m) = remove_namespace (full n).
Proof.
  intros Hp Hc.
  assert (Hkey : ∀ k, n_path k ≠ [] → PyStr.contains ":" (local_name k) = true →
            remove_namespace (full k) = remove_namespace (local_name k)).
  { clear. intros k Hp Hc. destruct (full_local k Hp) as [pre ->].
    destruct (last_split_cut ":" (local_name k)) as [[Hno _]|[ns Hns]]; [congruence|].
    unfold remove_namespace.
    pose proof (last_split_clean ":" (local_name k)) as Hclean.
    remember (PyStr.last_item (PyStr.split ":" (local_name k))) as t eqn:Ht.
    rewrite Hns.
    change (pre +:+ String "|" (ns +:+ String ":" t)) with (pre +:+ (String "|" ns) +:+ String ":" t).
    rewrite <- append_assoc, last_split_app. by rewrite (split_plain _ _ Hclean). }
  split; [by apply Hkey|].
  intros m ns1 ns2 x Hm Hn1 Hm1.
  rewrite (Hkey n Hp Hc), (Hkey m Hm).
  - by rewrite Hn1, Hm1, !remove_namespace_prefix.
  - rewrite Hm1, contains_app. simpl. by rewrite orb_true_r.
Qed.

Lemma namespaced_joint_key_witness :
  remove_namespace "|A:Root|A:Spine|A:Hand" = "Hand" ∧
  remove_namespace "|B:Root|B:Spine|B:Hand" = remove_namespace "|A:Root|A:Spine|A:Hand".
Proof.
  pose (n := joint ["A:Root"; "A:Spine"; "A:Hand"] "a2" []).
  pose (m := joint ["B:Root"; "B:Spine"; "B:Hand"] "b2" []).
  assert (Hp : n_path n ≠ []) by done.
  assert (Hc : PyStr.contains ":" (local_name n) = true) by reflexivity.
  destruct (namespaced_joint_key n Hp Hc) as [Hkey Hsame].
  split; [exact Hkey|].
  apply (Hsame m "A" "B" "Hand"); [done | reflexivity | reflexivity].
Defined.

(** X2.  [transfer_animation] keys a joint by the local name of the first node
    its name denotes, namespace included; a name that denotes no node makes the
    [[0]] fail. *)
Theorem long_key_is_local_name (w : world) (j : string) :
  (∀ n rest, cmds.matching_nodes (w_scene w) j = n :: rest →
     n_path n ≠ [] → PyStr.contains "|" (local_name n) = false →
     long_key j w = (Ok (local_name n), w)) ∧
  (cmds.matching_nodes (w_scene w) j = [] → long_key j w = (Raise IndexError, w)).
Proof.
  unfold long_key, cmds.ls_long. rewrite bind_gets. split.
  - intros n rest -> Hp Hc. simpl. f_equal. f_equal.
    destruct (full_local n Hp) as [pre ->]. rewrite last_split_app.
    by rewrite (split_plain _ _ Hc).
  - by intros ->.
Qed.

Lemma long_key_is_local_name_witness :
  long_key "A:Hand" sample_world = (Ok "A:Hand", sample_world) ∧
  long_key "|A:Root|A:Spine" sample_world = (Ok "A:Spine", sample_world).
Proof.
  destruct (long_key_is_local_name sample_world "A:Hand") as [H1 _].
  destruct (long_key_is_local_name sample_world "|A:Root|A:Spine") as [H2 _].
  split.
  - by apply (H1 (joint ["A:Root"; "A:Spine"; "A:Hand"] "a2" [("translateX", two_keys)]) []).
  - by apply (H2 (joint ["A:Root"; "A:Spine"] "a1" []) []).
Defined.

(** ** Names that [ls] prints *)

Lemma elem_of_matching_from k s x i :
  i ∈ cmds.matching_from k s x ↔ ∃ n, k ≤ i ∧ s !! (i - k) = Some n ∧ cmds.matches x n = true.
Proof.
  revert k. induction s as [|m s IH]; intros k; simpl.
  - split; [by intros ?%elem_of_nil | by intros (n & _ & ? & _)].
  - rewrite elem_of_app, IH. split.
    + intros [Hi|(n & Hk & Hn & Hm)].
      * destruct (cmds.matches x m) eqn:Hm; [|by apply elem_of_nil in Hi].
        apply list_elem_of_singleton in Hi as ->. exists m. by rewrite Nat.sub_diag.
      * exists n. split; [lia|]. split; [|done].
        replace (i - k) with (S (i - S k)) by lia. done.
    + intros (n & Hk & Hn & Hm).
      destruct (decide (i = k)) as [->|Hne].
      * left. rewrite Nat.sub_diag in Hn. injection Hn as ->. rewrite Hm. left.
      * right. exists n. split; [lia|]. split; [|done].
        replace (i - k) with (S (i - S k)) in Hn by lia. done.
Qed.

Lemma elem_of_matching s x i :
  i ∈ cmds.matching s x ↔ ∃ n, s !! i = Some n ∧ cmds.matches x n = true.
Proof.
  unfold cmds.matching. rewrite elem_of_matching_from. rewrite Nat.sub_0_r.
  split; [intros (n & _ & ?); by exists n | intros (n & ?); exists n; split; [lia | done]].
Qed.

(** A name that denotes one node only resolves to each node it matches. *)
Lemma resolve_unique s x i n :
  length (cmds.matching s x) = 1 → s !! i = Some n → cmds.matches x n = true →
  cmds.resolve s x = Ok i.
Proof.
  intros Hlen Hi Hm. unfold cmds.resolve.
  assert (Hin : i ∈ cmds.matching s x) by (apply elem_of_matching; by exists n).
  destruct (cmds.matching s x) as [|j [|]]; try done.
  by apply list_elem_of_singleton in Hin as ->.
Qed.

Lemma endswith_app a b : PyStr.endswith b (a +:+ b) = true.
Proof.
  unfold PyStr.endswith. apply bool_decide_eq_true_2. rewrite chars_app.
  by apply suffix_app_r.
Qed.

Lemma render_cons x p : render (x :: p) = String "|" (x +:+ render p).
Proof. done. Qed.

Lemma startswith_bar_app seg rest :
  seg ≠ "" → PyStr.contains "|" seg = false → PyStr.startswith "|" (seg +:+ rest) = false.
Proof.
  destruct seg as [|c seg]; [done|]. intros _. simpl. intros Hc.
  apply orb_false_iff in Hc as [Hc _]. apply Ascii.eqb_neq in Hc.
  unfold PyStr.startswith. change (String c seg +:+ rest) with (String c (seg +:+ rest)).
  destruct (String.prefix "|" (String c (seg +:+ rest))) eqn:Hp; [|done].
  apply prefix_correct in Hp. cbn [String.length substring] in Hp.
  destruct (seg +:+ rest); injection Hp as ->; by destruct Hc.
Qed.

(** The partial path made of the last [k] names of [p]. *)
Lemma partial_names_elem p c :
  c ∈ cmds.partial_names p →
  ∃ j, j < length p ∧
       c = match render (drop j p) with String _ r => r | EmptyString => EmptyString end.
Proof.
  unfold cmds.partial_names. intros Hc. apply list_elem_of_fmap in Hc as (k & -> & Hk).
  apply elem_of_seq in Hk. exists (length p - k). split; [lia | done].
Qed.

(** A node answers to each of its partial paths. *)
Lemma partial_name_matches n c :
  path_ok (n_path n) → c ∈ cmds.partial_names (n_path n) →
  cmds.matches c n = true ∧ c ≠ "".
Proof.
  intros [_ Hsegs] Hc. apply partial_names_elem in Hc as (j & Hj & ->).
  destruct (drop j (n_path n)) as [|seg rest] eqn:Hdrop.
  { apply (f_equal length) in Hdrop. rewrite length_drop in Hdrop. simpl in Hdrop. lia. }
  assert (Hseg : seg ≠ "" ∧ PyStr.contains "|" seg = false).
  { rewrite Forall_forall in Hsegs. apply Hsegs.
    rewrite <- (take_drop j (n_path n)), Hdrop. apply elem_of_app. right. left. }
  destruct Hseg as [Hne Hbar].
  rewrite render_cons. unfold cmds.matches.
  rewrite (startswith_bar_app _ _ Hne Hbar).
  split.
  - apply orb_true_iff. left.
    change ("|" +:+ seg +:+ render rest) with (render (seg :: rest)).
    rewrite <- Hdrop. unfold full.
    rewrite <- (take_drop j (n_path n)) at 2. rewrite render_app. apply endswith_app.
  - by destruct seg.
Qed.

Lemma short_name_matches s n :
  path_ok (n_path n) → cmds.matches (cmds.short_name s n) n = true ∧ cmds.short_name s n ≠ "".
Proof.
  intros Hok. unfold cmds.short_name.
  destruct (head (filter _ _)) as [c|] eqn:Hhead; simpl.
  - apply (partial_name_matches n c Hok).
    apply head_Some_elem_of in Hhead. by apply list_elem_of_filter in Hhead as [_ ?].
  - destruct Hok as [Hp _]. split; [by apply matches_full|].
    unfold full. destruct (n_path n); [done|]. by rewrite render_cons.
Qed.

(** On a well-formed scene the name [ls] prints for a node resolves to it. *)
Lemma short_name_resolves s i n :
  scene_ok s → s !! i = Some n → cmds.resolve s (cmds.short_name s n) = Ok i.
Proof.
  intros [Hnd Hok] Hi.
  assert (Hn : path_ok (n_path n)).
  { rewrite Forall_forall in Hok. apply Hok. by apply (list_elem_of_lookup_2 _ i). }
  destruct (short_name_matches s n Hn) as [Hm _]. revert Hm. unfold cmds.short_name.
  destruct (head (filter _ _)) as [c|] eqn:Hhead; simpl; intros Hm.
  - apply head_Some_elem_of in Hhead. apply list_elem_of_filter in Hhead as [Hlen _].
    by apply (resolve_unique s c i n).
  - apply resolve_full; [done | done | by destruct Hn].
Qed.

Lemma listRelatives_parent_run x w i n :
  cmds.resolve (w_scene w) x = Ok i → w_scene w !! i = Some n →
  cmds.listRelatives_parent x w
  = (Ok (match n_path n with [] | [_] => None | p => Some [render (removelast p)] end), w).
Proof.
  intros Hres Hi. unfold cmds.listRelatives_parent.
  rewrite (bind_ok _ _ _ _ _ (node_named_ok _ _ _ _ Hres Hi)). cbn [snd].
  by destruct (n_path n) as [|? [|? ?]].
Qed.


Lemma matching_valid s x i : i ∈ cmds.matching s x → is_Some (s !! i).
Proof. intros Hi. apply elem_of_matching in Hi as (n & Hn & _). by exists n. Qed.

Lemma omap_lookup_length (s : list node) (l : list nat) :
  (∀ i, i ∈ l → is_Some (s !! i)) → length (omap (λ i, s !! i) l) = length l.
Proof.
  induction l as [|i l IH]; intros Hall; [done|]. simpl.
  destruct (Hall i) as [n Hn]; [left|]. rewrite Hn. simpl. f_equal.
  apply IH. intros j Hj. apply Hall. by right.
Qed.

(** ** What the counter counts *)

(** The inner loop adds one per attribute that is keyed on the node the
    source name stood for at the start. *)
Lemma transfer_loop_count `{Host} ij rj i r n (l : list string) n_cur nr acc w :
  NoDup l →
  cmds.resolve (w_scene w) ij = Ok i → w_scene w !! i = Some n_cur →
  (∀ b, b ∈ l → curve_at n_cur b = curve_at n b) →
  cmds.resolve (w_scene w) rj = Ok r → w_scene w !! r = Some nr →
  (for_count l (transfer_channel ij rj) acc w).1
    = Ok (acc + length (filter (λ a, curve_at n a ≠ []) l)).
Proof.
  intros Hnd. revert n_cur nr acc w.
  induction Hnd as [|b l Hb Hnd IH]; intros n_cur nr acc w Hres Hi Hagree Hresr Hr.
  { simpl. by rewrite Nat.add_0_r. }
  cbn [for_count]. rewrite filter_cons.
  pose proof (transfer_channel_run ij rj b w) as Hstep.
  rewrite (node_named_ok _ _ _ _ Hres Hi), (node_named_ok _ _ _ _ Hresr Hr) in Hstep.
  rewrite (Hagree b) in Hstep by left.
  case_decide as Hc.
  - rewrite decide_False by (by intros []). rewrite (bind_ok _ _ _ _ _ Hstep).
    rewrite Nat.add_0_r. apply (IH n_cur nr); try done.
    intros b' Hb'. apply Hagree. by right.
  - rewrite decide_True by done. cbv zeta in Hstep. rewrite (bind_ok _ _ _ _ _ Hstep).
    set (nr' := pasted b (curve_at n b) nr).
    set (w1 := set_scene _ _).
    assert (Hcur : ∃ n_cur', w_scene w1 !! i = Some n_cur' ∧
                     ∀ b', b' ∈ l → curve_at n_cur' b' = curve_at n b').
    { destruct (decide (i = r)) as [->|Hne].
      - exists nr'. split.
        + simpl. apply list_lookup_insert_eq. by eapply lookup_lt_Some.
        + intros b' Hb'. unfold nr'. rewrite curve_at_pasted_ne by (by intros ->).
          assert (nr = n_cur) as -> by congruence. apply Hagree. by right.
      - exists n_cur. split.
        + simpl. by rewrite list_lookup_insert_ne.
        + intros b' Hb'. apply Hagree. by right. }
    destruct Hcur as (n_cur' & Hi' & Hagree').
    rewrite (IH n_cur' nr' (acc + 1) w1); try done.
    + simpl. f_equal. lia.
    + simpl. by rewrite (resolve_insert _ _ _ _ _ Hr).
    + simpl. by rewrite (resolve_insert _ _ _ _ _ Hr).
    + simpl. apply list_lookup_insert_eq. by eapply lookup_lt_Some.
Qed.

(** X3.  For one matched pair whose names resolve, the inner loop of
    [transfer_animation] adds to [matched_count] the number of tracked
    attributes that are keyed on the imported joint: between 0 and 6 for one
    joint, and 6 for a joint keyed on every tracked attribute. *)
Theorem matched_count_counts_channels `{Host} (w : world) (imported_joint rig_joint : string)
    (i r : nat) (n nr : node) :
  cmds.resolve (w_scene w) imported_joint = Ok i → w_scene w !! i = Some n →
  cmds.resolve (w_scene w) rig_joint = Ok r → w_scene w !! r = Some nr →
  let keyed := filter (λ a, curve_at n a ≠ []) tracked in
  (transfer_channels imported_joint rig_joint w).1 = Ok (length keyed) ∧
  length keyed ≤ 6 ∧
  ((∀ a, a ∈ tracked → curve_at n a ≠ []) → length keyed = 6).
Proof.
  intros Hres Hi Hresr Hr keyed. split_and!.
  - unfold transfer_channels.
    by rewrite (transfer_loop_count _ _ i r n tracked n nr 0 w tracked_NoDup Hres Hi
                  (λ _ _, eq_refl) Hresr Hr).
  - change 6 with (length tracked). apply length_filter.
  - intros Hall. unfold keyed, tracked.
    repeat (rewrite filter_cons, decide_True by (apply Hall; unfold tracked; set_solver)).
    done.
Qed.

Lemma matched_count_counts_channels_witness :
  let w := world_of (rig_a ++ walk_skeleton) in
  cmds.resolve (w_scene w) "Root" = Ok 3 ∧
  cmds.resolve (w_scene w) "A:Root" = Ok 0 ∧
  (transfer_channels (H := sample_host) "Root" "A:Root" w).1 = Ok 1.
Proof.
  intros w.
  assert (H1 : cmds.resolve (w_scene w) "Root" = Ok 3) by reflexivity.
  assert (H3 : cmds.resolve (w_scene w) "A:Root" = Ok 0) by reflexivity.
  destruct (matched_count_counts_channels (H := sample_host) w "Root" "A:Root" 3 0 _ _
              H1 eq_refl H3 eq_refl) as (Hcount & _ & _).
  split_and!; [done | done | exact Hcount].
Defined.

(** ** Frames of a preorder *)

Section Frame.
Variable R : world → world → Prop.
Hypothesis R_refl : ∀ w, R w w.
Hypothesis R_trans : ∀ w1 w2 w3, R w1 w2 → R w2 w3 → R w1 w3.

Lemma frame_pure {A} (m : M A) : (∀ w r w', m w = (r, w') → w' = w) → frames R m.
Proof. intros Hm w r w' Hr. by rewrite (Hm _ _ _ Hr). Qed.

Lemma frame_ret {A} (x : A) : frames R (ret x).
Proof. apply frame_pure. by intros w r w' [= _ <-]. Qed.

Lemma frame_raise {A} e : frames R (raise (A := A) e).
Proof. apply frame_pure. by intros w r w' [= _ <-]. Qed.

Lemma frame_gets {A} (f : world → A) : frames R (gets f).
Proof. apply frame_pure. by intros w r w' [= _ <-]. Qed.

Lemma frame_modify f : (∀ w, R w (f w)) → frames R (modify f).
Proof. intros Hf w r w' [= _ <-]. apply Hf. Qed.

Lemma frame_bind {A B} (m : M A) (k : A → M B) :
  frames R m → (∀ x, frames R (k x)) → frames R (bind m k).
Proof.
  intros Hm Hk w r w'. unfold bind.
  destruct (m w) as [[x|e] w1] eqn:Hmw.
  - intros Hkw. eapply R_trans; [by eapply Hm | by eapply Hk].
  - intros [= <- <-]. by eapply Hm.
Qed.

Lemma frame_try {A} (m : M A) h :
  frames R m → (∀ e, frames R (h e)) → frames R (try_except m h).
Proof.
  intros Hm Hh w r w'. unfold try_except.
  destruct (m w) as [[x|e] w1] eqn:Hmw.
  - intros [= <- <-]. by eapply Hm.
  - intros Hhw. eapply R_trans; [by eapply Hm | by eapply Hh].
Qed.

Lemma frame_for {A} (l : list A) (body : A → M unit) :
  (∀ x, frames R (body x)) → frames R (for_ l body).
Proof.
  intros Hb. induction l as [|x l IH]; simpl; [apply frame_ret|].
  apply frame_bind; [apply Hb | intros _; apply IH].
Qed.

Lemma frame_for_count {A} (l : list A) (body : A → M nat) acc :
  (∀ x, frames R (body x)) → frames R (for_count l body acc).
Proof.
  intros Hb. revert acc. induction l as [|x l IH]; intros acc; simpl; [apply frame_ret|].
  apply frame_bind; [apply Hb | intros k; apply IH].
Qed.

Lemma frame_mapM {A B} (f : A → M B) (l : list A) :
  (∀ x, frames R (f x)) → frames R (mapM f l).
Proof.
  intros Hf. induction l as [|x l IH]; simpl; [apply frame_ret|].
  apply frame_bind; [apply Hf | intros y].
  apply frame_bind; [apply IH | intros ys; apply frame_ret].
Qed.

Lemma frame_node_named x : frames R (cmds.node_named x).
Proof. apply frame_pure, node_named_pure. Qed.

Lemma frame_objExists x : frames R (cmds.objExists x).
Proof. apply frame_gets. Qed.

Lemma frame_descendents x : frames R (cmds.listRelatives_allDescendents x).
Proof. apply frame_pure, listRelatives_allDescendents_pure. Qed.

Lemma frame_keyframe_count x a : frames R (cmds.keyframe_count x a).
Proof.
  apply frame_bind; [apply frame_node_named|]. intros p. destruct a; apply frame_ret.
Qed.

Lemma frame_ls_dag_joints x : frames R (cmds.ls_dag_joints x).
Proof. apply frame_gets. Qed.

End Frame.

(** ** The transfers change keys only *)

Lemma keys_only_refl w : keys_only w w.
Proof. done. Qed.

Lemma keys_only_trans w1 w2 w3 : keys_only w1 w2 → keys_only w2 w3 → keys_only w1 w3.
Proof.
  intros (? & ? & ? & ? & ? & ?) (? & ? & ? & ? & ? & ?). unfold keys_only.
  split_and!; congruence.
Qed.

Lemma skeleton_insert s i n c :
  s !! i = Some n → skeleton (<[i := with_curves n c]> s) = skeleton s.
Proof.
  intros Hi. unfold skeleton. rewrite list_fmap_insert.
  apply list_insert_id. by rewrite list_lookup_fmap, Hi.
Qed.

Lemma keys_only_print s : frames keys_only (print s).
Proof. by apply frame_modify. Qed.

Lemma keys_only_copyKey x a : frames keys_only (cmds.copyKey x a).
Proof.
  apply (frame_bind _ keys_only_trans); [apply frame_node_named, keys_only_refl|].
  intros p. destruct a; by apply frame_modify.
Qed.

Lemma keys_only_pasteKey `{Host} x a : frames keys_only (cmds.pasteKey x a).
Proof.
  intros w r w'. unfold cmds.pasteKey, bind.
  destruct (cmds.node_named x w) as [[[i n]|e] w1] eqn:Hn;
    pose proof (node_named_pure _ _ _ _ Hn) as ->; [|by intros [= _ <-]].
  apply node_named_inv in Hn as [_ Hi]. unfold gets. cbn [fst snd].
  case_decide; [by intros [= _ <-]|].
  intros [= _ <-]. unfold keys_only. simpl. by rewrite (skeleton_insert _ _ _ _ Hi).
Qed.

Lemma keys_only_transfer_channels `{Host} ij rj : frames keys_only (transfer_channels ij rj).
Proof.
  apply (frame_for_count _ keys_only_refl keys_only_trans). intros a.
  unfold transfer_channel.
  apply (frame_bind _ keys_only_trans); [apply (frame_keyframe_count _ keys_only_refl keys_only_trans)|].
  intros c. destruct (0 <? c); [|by apply frame_ret, keys_only_refl].
  apply (frame_bind _ keys_only_trans); [apply keys_only_copyKey|]. intros _.
  apply (frame_bind _ keys_only_trans); [apply keys_only_pasteKey|]. intros _.
  apply frame_ret, keys_only_refl.
Qed.

Lemma keys_only_long_dict js : frames keys_only (long_dict js).
Proof.
  apply (frame_bind _ keys_only_trans); [|intros keys; apply frame_ret, keys_only_refl].
  apply (frame_mapM _ keys_only_refl keys_only_trans). intros j.
  unfold long_key, cmds.ls_long.
  apply (frame_bind _ keys_only_trans); [apply frame_gets, keys_only_refl|].
  intros [|x l]; [apply frame_raise | apply frame_ret]; apply keys_only_refl.
Qed.

Lemma keys_only_transfer_animation `{Host} root_a root_b :
  frames keys_only (transfer_animation root_a root_b).
Proof.
  unfold transfer_animation.
  apply (frame_bind _ keys_only_trans); [apply frame_objExists, keys_only_refl|]. intros e1.
  apply (frame_bind _ keys_only_trans); [apply frame_objExists, keys_only_refl|]. intros e2.
  destruct (negb e1 || negb e2); [by apply frame_modify|].
  apply (frame_bind _ keys_only_trans); [apply frame_descendents, keys_only_refl|]. intros d1.
  apply (frame_bind _ keys_only_trans); [apply frame_descendents, keys_only_refl|]. intros d2.
  apply (frame_bind _ keys_only_trans); [apply keys_only_print|]. intros _.
  apply (frame_bind _ keys_only_trans); [apply keys_only_print|]. intros _.
  apply (frame_bind _ keys_only_trans); [apply keys_only_long_dict|]. intros imported_dict.
  apply (frame_bind _ keys_only_trans); [apply keys_only_long_dict|]. intros rig_dict.
  apply (frame_bind _ keys_only_trans);
    [apply (frame_keyframe_count _ keys_only_refl keys_only_trans)|]. intros c.
  apply (frame_bind _ keys_only_trans).
  { destruct (0 <? c); [|by apply frame_ret, keys_only_refl].
    apply (frame_bind _ keys_only_trans); [apply keys_only_print|]. intros _.
    apply (frame_bind _ keys_only_trans); [apply keys_only_copyKey|]. intros _.
    apply keys_only_pasteKey. }
  intros _.
  apply (frame_bind _ keys_only_trans); [|intros k; apply keys_only_print].
  apply (frame_for_count _ keys_only_refl keys_only_trans). intros kv.
  destruct (dict_get _ _); [apply keys_only_transfer_channels | apply frame_ret, keys_only_refl].
Qed.

Lemma keys_only_ignore_namespace `{Host} root_a root_b :
  frames keys_only (transfer_animation_ignore_namespace root_a root_b).
Proof.
  unfold transfer_animation_ignore_namespace.
  apply (frame_bind _ keys_only_trans); [apply frame_descendents, keys_only_refl|]. intros d1.
  apply (frame_bind _ keys_only_trans); [apply frame_descendents, keys_only_refl|]. intros d2.
  apply (frame_bind _ keys_only_trans); [|intros k; apply keys_only_print].
  apply (frame_for _ keys_only_refl keys_only_trans). intros kv.
  destruct (dict_get _ _); [|apply frame_ret, keys_only_refl].
  apply (frame_bind _ keys_only_trans); [apply keys_only_transfer_channels|].
  intros _. apply frame_ret, keys_only_refl.
Qed.

(** X10.  Neither transfer adds, removes, renames, locks or unlocks a node, and
    neither touches the file system, the selection, the id list or the FBX
    settings, however the run ends: only keys, the clipboard and the output can
    differ afterwards. *)
Theorem transfers_change_keys_only `{Host} (w : world) (root_a root_b : string) :
  keys_only w (transfer_animation root_a root_b w).2 ∧
  keys_only w (transfer_animation_ignore_namespace root_a root_b w).2.
Proof.
  split.
  - destruct (transfer_animation root_a root_b w) as [r w'] eqn:Hrun.
    by apply (keys_only_transfer_animation root_a root_b w r w').
  - destruct (transfer_animation_ignore_namespace root_a root_b w) as [r w'] eqn:Hrun.
    by apply (keys_only_ignore_namespace root_a root_b w r w').
Qed.

(** ** The export leaves the scene alone *)

Lemma scene_kept_refl out w : scene_kept out w w.
Proof. done. Qed.

Lemma scene_kept_trans out w1 w2 w3 :
  scene_kept out w1 w2 → scene_kept out w2 w3 → scene_kept out w1 w3.
Proof.
  intros (? & ? & ? & ? & ?) (? & ? & ? & ? & ?). unfold scene_kept.
  split_and!; [congruence | congruence | congruence | congruence | set_solver].
Qed.

Lemma scene_kept_need_plugin out : frames (scene_kept out) mel.need_plugin.
Proof.
  apply (frame_bind _ (scene_kept_trans out)); [apply frame_gets, scene_kept_refl|].
  intros [|]; [apply frame_ret | apply frame_raise]; apply scene_kept_refl.
Qed.

Lemma scene_kept_set_option out o : frames (scene_kept out) (mel.set_option o).
Proof.
  apply (frame_bind _ (scene_kept_trans out)); [apply scene_kept_need_plugin|].
  intros _. by apply frame_modify.
Qed.

Lemma scene_kept_print out s : frames (scene_kept out) (print s).
Proof. by apply frame_modify. Qed.

Lemma scene_kept_warning out s : frames (scene_kept out) (cmds_warning s).
Proof. by apply frame_modify. Qed.

Lemma scene_kept_select out js : frames (scene_kept out) (cmds.select js).
Proof.
  apply (frame_bind _ (scene_kept_trans out)); [|intros _; by apply frame_modify].
  apply (frame_for _ (scene_kept_refl out) (scene_kept_trans out)). intros x.
  apply (frame_bind _ (scene_kept_trans out)); [apply frame_node_named, scene_kept_refl|].
  intros _. apply frame_ret, scene_kept_refl.
Qed.

Lemma scene_kept_makedirs out p : frames (scene_kept out) (os.makedirs p).
Proof.
  intros w r w'. rewrite makedirs_run. cbv zeta.
  repeat case_decide; intros [= _ <-]; try apply scene_kept_refl.
  unfold scene_kept. simpl. split_and!; try done. set_solver.
Qed.

Lemma scene_kept_FBXExport out : frames (scene_kept out) (mel.FBXExport out).
Proof.
  intros w r w'. unfold mel.FBXExport, mel.need_plugin, bind, gets, ret, raise, modify.
  destruct (w_fbx_loaded w).
  - case_decide; intros [= _ <-]; [apply scene_kept_refl|].
    unfold scene_kept. simpl. split_and!; try done.
    rewrite filter_cons, decide_False by (simpl; by intros []).
    apply list_filter_filter_l. done.
  - intros [= _ <-]. apply scene_kept_refl.
Qed.

Lemma scene_kept_export_selection out : frames (scene_kept out) (export_selection out).
Proof.
  unfold export_selection.
  apply (frame_bind _ (scene_kept_trans out)); [apply frame_gets, scene_kept_refl|]. intros l.
  apply (frame_bind _ (scene_kept_trans out)).
  { destruct (negb l); [|apply frame_ret, scene_kept_refl].
    apply (frame_bind _ (scene_kept_trans out)); [apply frame_gets, scene_kept_refl|].
    intros [|]; [by apply frame_modify | apply frame_raise, scene_kept_refl]. }
  intros _.
  apply (frame_bind _ (scene_kept_trans out)); [apply frame_gets, scene_kept_refl|]. intros t0.
  apply (frame_bind _ (scene_kept_trans out)); [apply frame_gets, scene_kept_refl|]. intros t1.
  do 8 (apply (frame_bind _ (scene_kept_trans out)); [apply scene_kept_set_option|]; intros _).
  apply (frame_try _ (scene_kept_trans out)).
  - apply (frame_bind _ (scene_kept_trans out)); [apply scene_kept_FBXExport|].
    intros _. apply scene_kept_print.
  - intros e. apply scene_kept_warning.
Qed.

Lemma scene_kept_export `{Host} rig_root folder name prefix suffix :
  frames (scene_kept (output_path (abspath folder) name (default "" prefix) (default "" suffix)))
    (export_fbx_animation rig_root folder name prefix suffix).
Proof.
  set (out := output_path _ _ _ _).
  unfold export_fbx_animation. fold out.
  apply (frame_bind _ (scene_kept_trans out)); [apply frame_gets, scene_kept_refl|]. intros e.
  destruct (negb e); [apply scene_kept_warning|].
  apply (frame_bind _ (scene_kept_trans out)); [apply frame_gets, scene_kept_refl|]. intros js.
  case_bool_decide; [apply scene_kept_warning|].
  apply (frame_bind _ (scene_kept_trans out)); [apply scene_kept_select|]. intros _.
  apply (frame_bind _ (scene_kept_trans out)); [apply frame_gets, scene_kept_refl|]. intros e2.
  apply (frame_bind _ (scene_kept_trans out)).
  { destruct (negb e2); [|apply frame_ret, scene_kept_refl].
    apply (frame_try _ (scene_kept_trans out)).
    - apply (frame_bind _ (scene_kept_trans out)); [apply scene_kept_makedirs|].
      intros _. apply frame_ret, scene_kept_refl.
    - intros e3. apply (frame_bind _ (scene_kept_trans out)); [apply scene_kept_warning|].
      intros _. apply frame_ret, scene_kept_refl. }
  intros made. destruct (negb made); [apply frame_ret, scene_kept_refl|].
  apply (frame_bind _ (scene_kept_trans out)); [apply scene_kept_print|]. intros _.
  apply scene_kept_export_selection.
Qed.

(** X11.  [export_fbx_animation] reads the scene and writes files: however the
    run ends, every node and key, the clipboard and the id list are as before,
    no folder is removed, and no file other than the one at the output path is
    created, changed or removed. *)
Theorem export_leaves_scene `{Host} (w : world) (rig_root folder name : string)
    (prefix suffix : option string) :
  let out := output_path (abspath folder) name (default "" prefix) (default "" suffix) in
  scene_kept out w (export_fbx_animation rig_root folder name prefix suffix w).2.
Proof.
  intros out.
  destruct (export_fbx_animation rig_root folder name prefix suffix w) as [r w'] eqn:Hrun.
  by apply (scene_kept_export rig_root folder name prefix suffix w r w').
Qed.

(** ** Export without the plug-in *)

Lemma export_selection_no_plugin out w :
  w_fbx_loaded w = false → w_fbx_available w = false →
  export_selection out w
  = (Raise (RuntimeError "Plug-in, fbxmaya, was not found on MAYA_PLUG_IN_PATH"), w).
Proof.
  intros Hl Ha. unfold export_selection, cmds.pluginInfo_loaded. rewrite bind_gets, Hl.
  cbn [negb]. apply bind_raise. unfold cmds.loadPlugin. by rewrite bind_gets, Ha.
Qed.

(** X12.  [loadPlugin] is called outside both [try] blocks: when [fbxmaya] is
    neither loaded nor loadable and the export gets as far as the plug-in check
    (rig root with joints, folder present or created), the exception leaves
    [export_fbx_animation]; by then the selection has been replaced by the
    rig's joints and the folder has been created, and no file is written. *)
Theorem export_needs_plugin `{Host} (w : world) (rig_root folder name : string)
    (prefix suffix : option string) (js : list string) :
  let fs := w_fs w in
  let dir := abspath folder in
  let missing := filter (λ d, d ∉ fs_dirs fs) (os.ancestors dir) in
  let r := export_fbx_animation rig_root folder name prefix suffix w in
  cmds.matching (w_scene w) rig_root ≠ [] →
  cmds.ls_dag_joints rig_root w = (Ok js, w) → js ≠ [] →
  cmds.select js w = (Ok tt, set_selection js w) →
  w_fbx_loaded w = false → w_fbx_available w = false →
  (dir ∈ fs_dirs fs ∨ dir ∈ (fs_files fs).*1) ∨
    ¬ Exists (λ d, d ∈ fs_denied fs) (missing ++ [dir]) →
  r.1 = Raise (RuntimeError "Plug-in, fbxmaya, was not found on MAYA_PLUG_IN_PATH") ∧
  w_selection r.2 = js ∧
  fs_files (w_fs r.2) = fs_files fs ∧
  fs_dirs (w_fs r.2)
    = (if decide (dir ∈ fs_dirs fs ∨ dir ∈ (fs_files fs).*1) then fs_dirs fs
       else fs_dirs fs ++ missing ++ [dir]).
Proof.
  intros fs dir missing r Hroot Hjs Hne Hsel Hl Ha Hdir. subst r.
  rewrite (export_selected _ _ _ _ _ _ _ Hroot Hjs Hne Hsel). fold dir.
  set (out := output_path _ _ _ _).
  case_bool_decide as Hex; cbn [negb].
  - rewrite bind_ret. cbn [negb]. rewrite bind_print.
    rewrite export_selection_no_plugin by done.
    rewrite decide_True by done. done.
  - destruct Hdir as [?|Hdir]; [done|].
    pose proof (makedirs_run dir (set_selection js w)) as Hmk.
    cbn [w_fs set_selection] in Hmk. fold fs in Hmk. fold missing in Hmk.
    rewrite decide_False in Hmk by done. rewrite decide_False in Hmk by done.
    rewrite (bind_ok _ _ _ _ _ (try_except_ok _ _ _ _ _ (bind_ok _ _ _ _ _ Hmk))).
    cbn [negb]. rewrite bind_print.
    rewrite export_selection_no_plugin by done.
    rewrite decide_False by done. done.
Qed.

Lemma export_needs_plugin_witness :
  let w := set_fbx_loaded false
             (World (rig_a ++ rig_b) ∅ [] sample_fs true false [] (0, 24)%Z [] []) in
  let js := ["B:Root"; "B:Spine"; "B:Hand"] in
  let r := export_fbx_animation (H := sample_host) "B:Root" "/out/x" "Walk"
             (Some "Anim_") (Some "_Final") w in
  w_fbx_loaded w = false ∧ w_fbx_available w = false ∧
  r.1 = Raise (RuntimeError "Plug-in, fbxmaya, was not found on MAYA_PLUG_IN_PATH") ∧
  w_selection r.2 = js ∧
  (fs_files (w_fs r.2)).*1 = ["/in/Walk.fbx"; "/in/Run.fbx"] ∧
  fs_dirs (w_fs r.2) = ["/in"; "/out"; "/out/x"].
Proof.
  intros w js r.
  assert (H1 : cmds.matching (w_scene w) "B:Root" ≠ []) by (vm_compute; discriminate).
  assert (H2 : cmds.ls_dag_joints "B:Root" w = (Ok js, w)) by reflexivity.
  assert (H3 : js ≠ []) by discriminate.
  assert (H4 : cmds.select js w = (Ok tt, set_selection js w)) by reflexivity.
  assert (H6 : ¬ Exists (λ d, d ∈ fs_denied (w_fs w))
      (filter (λ d, d ∉ fs_dirs (w_fs w)) (os.ancestors "/out/x") ++ ["/out/x"])).
  { intros Hex. apply Exists_exists in Hex as (d & _ & Hd). by apply elem_of_nil in Hd. }
  destruct (export_needs_plugin (H := sample_host) w "B:Root" "/out/x" "Walk"
              (Some "Anim_") (Some "_Final") js H1 H2 H3 H4 eq_refl eq_refl (or_intror H6))
    as (Hr & Hsel & Hfiles & Hdirs).
  split_and!; [done | done | exact Hr | exact Hsel | |].
  - subst r. rewrite Hfiles. reflexivity.
  - subst r. rewrite Hdirs. reflexivity.
Defined.

(** ** Cleanup, run again *)

(** A property of results that holds of every exception holds of a sequence
    as soon as it holds of its continuation. *)
Lemma bind_result {A B} (P : res B → Prop) (m : M A) (k : A → M B) w :
  (∀ e, P (Raise e)) → (∀ a w1, P (k a w1).1) → P (bind m k w).1.
Proof.
  intros He Hk. unfold bind. destruct (m w) as [[a|e] w1]; [apply Hk | apply He].
Qed.

(** The [try] body reports the early [return] only from the branch that
    found no node, and that branch has changed nothing but the output. *)
Lemma delete_root_returned u w w' :
  delete_root u w = (Ok true, w') →
  ∃ ro, find_by_uuid u (n_uuid <$> w_scene w) w = (Ok ro, w) ∧ truthy ro = false ∧
        w' = emit (Stdout ("No root joint found for UUID " +:+ u)) w.
Proof.
  unfold delete_root, cmds.ls_uuid. rewrite bind_gets. unfold bind at 1.
  destruct (find_by_uuid u (n_uuid <$> w_scene w) w) as [[ro|e] w1] eqn:Hfind; [|done].
  pose proof (find_by_uuid_scene _ _ _ _ _ Hfind) as [-> _].
  destruct (truthy ro) eqn:Ht; cbn [negb].
  - intros Hrun. exfalso.
    apply (f_equal fst) in Hrun. revert Hrun. cbn [fst].
    cbv zeta.
    do 7 (apply (bind_result (λ r, r = Ok true → False)); [done | intros ? ?]).
    done.
  - rewrite bind_print. intros [= <-]. by exists ro.
Qed.

Lemma delete_root_missing u w ro :
  find_by_uuid u (n_uuid <$> w_scene w) w = (Ok ro, w) → truthy ro = false →
  delete_root u w = (Ok true, emit (Stdout ("No root joint found for UUID " +:+ u)) w).
Proof.
  intros Hfind Ht. unfold delete_root, cmds.ls_uuid. rewrite bind_gets.
  rewrite (bind_ok _ _ _ _ _ Hfind). by rewrite Ht.
Qed.

(** How a cleanup ends: with an empty id list, or, when the root id leads to
    no node, with nothing but new output. *)
Lemma cleanup_outcome w :
  let w' := (delete_imported_skeleton w).2 in
  match imported_joint_uuids w with
  | [] => w_scene w' = w_scene w ∧ imported_joint_uuids w' = []
  | u :: rest =>
      (∃ ro, find_by_uuid u (n_uuid <$> w_scene w) w = (Ok ro, w) ∧ truthy ro = false ∧
             w_scene w' = w_scene w ∧ imported_joint_uuids w' = u :: rest) ∨
      ((∀ ro, find_by_uuid u (n_uuid <$> w_scene w) w = (Ok ro, w) → truthy ro = true) ∧
       imported_joint_uuids w' = [])
  end.
Proof.
  intros w'. subst w'.
  remember (delete_imported_skeleton w) as run eqn:Hrun.
  unfold delete_imported_skeleton in Hrun. rewrite bind_print, bind_gets in Hrun.
  cbn [imported_joint_uuids emit] in Hrun.
  destruct (imported_joint_uuids w) as [|u rest] eqn:Hu.
  { subst run. unfold cmds_warning, modify. cbn [snd emit w_scene imported_joint_uuids]. done. }
  rewrite !bind_print in Hrun. set (w0 := emit _ (emit _ (emit _ w))) in Hrun.
  assert (Hfound : ∀ b w1, delete_root u w0 = (b, w1) → b ≠ Ok true →
            ∀ ro, find_by_uuid u (n_uuid <$> w_scene w) w = (Ok ro, w) → truthy ro = true).
  { intros b w1 Hroot Hb ro Hfind. destruct (truthy ro) eqn:Ht; [done|]. exfalso.
    apply find_by_uuid_scene in Hfind as [_ Hfind].
    rewrite (delete_root_missing u w0 ro (Hfind w0 eq_refl) Ht) in Hroot.
    injection Hroot as <- _. done. }
  unfold bind at 1, try_except in Hrun.
  destruct (delete_root u w0) as [[[|]|e] w1] eqn:Hroot.
  - left. apply delete_root_returned in Hroot as (ro & Hfind & Ht & ->).
    exists ro. apply find_by_uuid_scene in Hfind as [_ Hfind].
    subst run. split_and!; [by apply Hfind | done | done | done].
  - right. split; [by eapply Hfound|]. subst run. by rewrite bind_modify.
  - right. split; [by eapply Hfound|].
    subst run. rewrite bind_warning. unfold ret. by rewrite bind_modify.
Qed.

(** X13.  A second [delete_imported_skeleton] right after the first changes
    neither the scene nor the id list: either the first run emptied the list,
    and the second only warns, or the first run found no node for the root id,
    and the second finds none either. *)
Theorem cleanup_twice (w : world) :
  let once := (delete_imported_skeleton w).2 in
  let twice := (delete_imported_skeleton once).2 in
  w_scene twice = w_scene once ∧ imported_joint_uuids twice = imported_joint_uuids once.
Proof.
  intros once twice. subst twice.
  pose proof (cleanup_outcome once) as H2. cbv zeta in H2.
  destruct (imported_joint_uuids once) as [|u rest] eqn:Hu; [done|].
  destruct H2 as [(ro & _ & _ & Hscene & Hids)|[Hfound _]]; [done|]. exfalso.
  (* the first run kept its list, so it found no node, and neither does the second *)
  pose proof (cleanup_outcome w) as H1. cbv zeta in H1. fold once in H1.
  destruct (imported_joint_uuids w) as [|u1 rest1] eqn:Hu1; [destruct H1; congruence|].
  destruct H1 as [(ro & Hfind & Ht & Hscene & Hids)|[_ Hnil]]; [|congruence].
  assert (u1 = u) as -> by congruence.
  apply find_by_uuid_scene in Hfind as [_ Hfind].
  specialize (Hfound ro). rewrite Hscene in Hfound.
  rewrite (Hfound (Hfind once Hscene)) in Ht. done.
Qed.

(** ** The guards of the batch *)

Lemma listdir_run d w :
  os.listdir d w =
    if decide (d ∈ fs_dirs (w_fs w))
    then (Ok (os.entries d (fs_dirs (w_fs w) ++ (fs_files (w_fs w)).*1)), w)
    else (Raise (OSError ("Not a directory: " +:+ d)), w).
Proof. unfold os.listdir. rewrite bind_gets. by case_decide. Qed.

(** X15.  [batch_process_fbx] before its loop.  A source folder that does not
    exist, or one that holds no name ending in [.fbx] (in any letter case),
    ends the batch with one line of output and nothing else changed.  A source
    path that is a file passes the [os.path.exists] guard, and the error of
    [os.listdir] leaves [batch_process_fbx]. *)
Theorem batch_entry_guards `{Host} (w : world)
    (source_folder export_folder source_rig_root target_rig_root : string)
    (prefix suffix : option string) :
  let fs := w_fs w in
  let run := batch_process_fbx source_folder export_folder source_rig_root target_rig_root
               prefix suffix w in
  (source_folder ∉ fs_dirs fs → source_folder ∉ (fs_files fs).*1 →
     run = (Ok tt, emit (Stdout ("Source folder does not exist: " +:+ source_folder)) w)) ∧
  (source_folder ∈ fs_dirs fs →
     (∀ f, f ∈ os.entries source_folder (fs_dirs fs ++ (fs_files fs).*1) →
           PyStr.endswith ".fbx" (PyStr.lower f) = false) →
     run = (Ok tt, emit (Stdout "No FBX files found in the source folder.") w)) ∧
  (source_folder ∉ fs_dirs fs → source_folder ∈ (fs_files fs).*1 →
     run = (Raise (OSError ("Not a directory: " +:+ source_folder)), w)).
Proof.
  intros fs run.
  assert (Hrun : run =
    bind (gets (λ w, bool_decide (source_folder ∈ fs_dirs (w_fs w)
                                  ∨ source_folder ∈ (fs_files (w_fs w)).*1)))
      (λ e, if negb e then print ("Source folder does not exist: " +:+ source_folder)
            else
              names <- os.listdir source_folder ;;
              let fbx_files := filter (λ f, PyStr.endswith ".fbx" (PyStr.lower f) = true) names in
              if bool_decide (fbx_files = []) then print "No FBX files found in the source folder."
              else
                for_ fbx_files
                  (process_file source_folder export_folder source_rig_root target_rig_root
                     (default "Anim_" prefix) (default "_Final" suffix)) ;;;
                print "Batch processing complete!") w) by done.
  rewrite Hrun. split_and!.
  - intros Hd Hf. rewrite bind_gets. fold fs.
    rewrite bool_decide_eq_false_2 by (by intros [|]). done.
  - intros Hd Hnone. rewrite bind_gets. fold fs.
    rewrite bool_decide_eq_true_2 by (by left). cbn [negb].
    erewrite bind_ok; [|by rewrite listdir_run, decide_True]. cbv zeta.
    rewrite bool_decide_eq_true_2; [done|].
    induction (os.entries _ _) as [|f l IH]; [done|].
    rewrite filter_cons, decide_False.
    + apply IH. intros f' Hf'. apply Hnone. by right.
    + rewrite (Hnone f) by left. done.
  - intros Hd Hf. rewrite bind_gets. fold fs.
    rewrite bool_decide_eq_true_2 by (by right). cbn [negb].
    apply bind_raise. by rewrite listdir_run, decide_False.
Qed.

Lemma batch_entry_guards_witness :
  let w := sample_world in
  batch_process_fbx (H := sample_host) "/nowhere" "/out" "A:Root" "B:Root" None None w
    = (Ok tt, emit (Stdout "Source folder does not exist: /nowhere") w) ∧
  batch_process_fbx (H := sample_host) "/in/Walk.fbx" "/out" "A:Root" "B:Root" None None w
    = (Raise (OSError "Not a directory: /in/Walk.fbx"), w) ∧
  batch_process_fbx (H := sample_host) "/empty" "/out" "A:Root" "B:Root" None None
      (set_fs (Fs ["/empty"] [("/empty/notes.txt", None)] []) w)
    = (Ok tt, emit (Stdout "No FBX files found in the source folder.")
                (set_fs (Fs ["/empty"] [("/empty/notes.txt", None)] []) w)).
Proof.
  intros w.
  destruct (batch_entry_guards (H := sample_host) w "/nowhere" "/out" "A:Root" "B:Root"
              None None) as (Hmissing & _ & _).
  destruct (batch_entry_guards (H := sample_host) w "/in/Walk.fbx" "/out" "A:Root" "B:Root"
              None None) as (_ & _ & Hfile).
  destruct (batch_entry_guards (H := sample_host)
              (set_fs (Fs ["/empty"] [("/empty/notes.txt", None)] []) w)
              "/empty" "/out" "A:Root" "B:Root" None None) as (_ & Hnone & _).
  split_and!.
  - apply Hmissing; apply (bool_decide_unpack _); by vm_compute.
  - apply Hfile; apply (bool_decide_unpack _); by vm_compute.
  - apply Hnone; [apply (bool_decide_unpack _); by vm_compute|].
    intros f Hf. vm_compute in Hf.
    apply elem_of_cons in Hf as [->|Hf]; [reflexivity | by apply elem_of_nil in Hf].
Defined.

(** ** The animation name of a file of the batch *)

Lemma chars_lower s : PyStr.chars (PyStr.lower s) = PyStr.lower_char <$> PyStr.chars s.
Proof. unfold PyStr.chars. induction s as [|c s IH]; simpl; [done|]. by rewrite IH. Qed.

Lemma chars_of_list l : PyStr.chars (string_of_list_ascii l) = l.
Proof. apply list_ascii_of_string_of_list_ascii. Qed.

Lemma chars_inj a b : PyStr.chars a = PyStr.chars b → a = b.
Proof.
  intros Hab. rewrite <- (string_of_list_ascii_of_string a), <- (string_of_list_ascii_of_string b).
  unfold PyStr.chars in Hab. by rewrite Hab.
Qed.

Lemma lower_char_dot c : PyStr.lower_char c = "."%char → c = "."%char.
Proof.
  destruct c as [[] [] [] [] [] [] [] []]; vm_compute; intros Hc; try done; discriminate.
Qed.

Lemma lower_char_letter c d :
  PyStr.lower_char c = d → d ≠ "."%char → Ascii.eqb c "." = false.
Proof.
  intros Hc Hd. apply Ascii.eqb_neq. intros ->. by apply Hd.
Qed.

Lemma rsplit_dot_last stem ext :
  PyStr.contains "." ext = false →
  PyStr.rsplit_dot (stem +:+ String "." ext) = Some (stem, String "." ext).
Proof.
  intros He. induction stem as [|c stem IH].
  - change ("" +:+ String "." ext) with (String "." ext). simpl.
    by rewrite (rsplit_dot_none _ He).
  - rewrite append_cons. simpl. by rewrite IH.
Qed.

(** X16.  A name that passes the filter of the batch is a stem followed by an
    extension that reads [.fbx] in lower case.  Its animation name is the stem,
    unless the stem is empty or made of dots only: then [os.path.splitext]
    finds no extension and the animation name is the whole file name. *)
Theorem fbx_animation_name (fbx_file : string) :
  PyStr.endswith ".fbx" (PyStr.lower fbx_file) = true →
  ∃ stem ext,
    fbx_file = stem +:+ ext ∧ PyStr.lower ext = ".fbx" ∧
    (PyStr.splitext fbx_file).1 = if PyStr.all_dots stem then fbx_file else stem.
Proof.
  unfold PyStr.endswith. intros Hend. apply bool_decide_eq_true_1 in Hend as [k Hk].
  rewrite chars_lower in Hk.
  apply fmap_app_inv in Hk as (k' & e & -> & He & Hf).
  destruct e as [|c0 [|c1 [|c2 [|c3 [|? ?]]]]]; try done.
  injection He as H0 H1 H2 H3. symmetry in H0, H1, H2, H3.
  exists (string_of_list_ascii k'), (String c0 (String c1 (String c2 (String c3 "")))).
  assert (Hfile : fbx_file = string_of_list_ascii k'
                               +:+ String c0 (String c1 (String c2 (String c3 "")))).
  { apply chars_inj. by rewrite Hf, chars_app, chars_of_list. }
  split_and!; [done | simpl; by rewrite H0, H1, H2, H3 |].
  apply lower_char_dot in H0 as ->.
  unfold PyStr.splitext. rewrite Hfile at 1. rewrite rsplit_dot_last.
  - by destruct (PyStr.all_dots _).
  - simpl. rewrite (lower_char_letter _ _ H1), (lower_char_letter _ _ H2),
      (lower_char_letter _ _ H3); done.
Qed.

Lemma fbx_animation_name_witness :
  PyStr.endswith ".fbx" (PyStr.lower "Run.FBX") = true ∧
  PyStr.endswith ".fbx" (PyStr.lower ".fbx") = true ∧
  (PyStr.splitext "Run.FBX").1 = "Run" ∧ (PyStr.splitext ".fbx").1 = ".fbx" ∧
  ∃ stem ext, "Run.FBX" = stem +:+ ext ∧ PyStr.lower ext = ".fbx".
Proof.
  assert (H1 : PyStr.endswith ".fbx" (PyStr.lower "Run.FBX") = true) by reflexivity.
  destruct (fbx_animation_name "Run.FBX" H1) as (stem & ext & Hf & Hl & _).
  split_and!; [done | reflexivity | reflexivity | reflexivity |].
  by exists stem, ext.
Defined.

(** ** The root joints offered by the window *)

Lemma foldl_snoc_id (l d : list string) : foldl (λ items joint, items ++ [joint]) d l = d ++ l.
Proof.
  revert d. induction l as [|x l IH]; intros d; simpl; [by rewrite app_nil_r|].
  by rewrite IH, <- app_assoc.
Qed.

Lemma parentless_run (ns : list node) w :
  scene_ok (w_scene w) → (∀ n, n ∈ ns → n ∈ w_scene w) →
  parentless (cmds.short_name (w_scene w) <$> ns) w
  = (Ok (cmds.short_name (w_scene w) <$> filter (λ n, length (n_path n) = 1) ns), w).
Proof.
  intros Hok. induction ns as [|n ns IH]; intros Hin; [done|].
  rewrite fmap_cons. cbn [parentless].
  assert (Hn : n ∈ w_scene w) by (apply Hin; left).
  apply list_elem_of_lookup_1 in Hn as [i Hi].
  rewrite (bind_ok _ _ _ _ _
             (listRelatives_parent_run _ _ _ _ (short_name_resolves _ _ _ Hok Hi) Hi)).
  rewrite (bind_ok _ _ _ _ _ (IH (λ m Hm, Hin m (list_elem_of_further _ _ _ Hm)))).
  unfold ret. f_equal. f_equal. rewrite filter_cons.
  assert (Hp : path_ok (n_path n)).
  { destruct Hok as [_ Hok]. rewrite Forall_forall in Hok. apply Hok.
    by apply (list_elem_of_lookup_2 _ i). }
  destruct Hp as [Hne _].
  destruct (n_path n) as [|x [|y p]]; [done | |].
  - by rewrite decide_True.
  - by rewrite decide_False.
Qed.

(** X20.  On a well-formed scene [populate_root_joints] replaces whatever the
    menu held by the names of the joints that lie directly under the world, in
    scene order, or by the single entry [No root joints found] when there is
    none; the menu it leaves is never empty, and nothing else changes. *)
Theorem populate_root_joints_items (w : world) (dropdown : list string) :
  scene_ok (w_scene w) →
  let roots := cmds.short_name (w_scene w) <$> root_joints_of (w_scene w) in
  populate_root_joints dropdown w
    = (Ok (if bool_decide (roots = []) then ["No root joints found"] else roots), w) ∧
  ∀ items, (populate_root_joints dropdown w).1 = Ok items → items ≠ [].
Proof.
  intros Hok roots.
  assert (Hrun : populate_root_joints dropdown w
    = (Ok (if bool_decide (roots = []) then ["No root joints found"] else roots), w)).
  { unfold populate_root_joints. cbv zeta. unfold cmds.ls_type_joint. rewrite bind_gets.
    rewrite (bind_ok _ _ _ _ _ (parentless_run _ w Hok
               (λ n Hn, proj2 (proj1 (list_elem_of_filter _ _ _) Hn)))).
    assert (Hroots : filter (λ n, length (n_path n) = 1)
                       (filter (λ n, n_joint n = true) (w_scene w))
                     = root_joints_of (w_scene w)).
    { unfold root_joints_of. rewrite list_filter_filter. apply list_filter_iff. tauto. }
    rewrite Hroots. fold roots. case_bool_decide; [done|]. by rewrite foldl_snoc_id. }
  split; [done|]. rewrite Hrun. simpl. intros items [= <-]. by case_bool_decide.
Qed.

Lemma populate_root_joints_items_witness :
  scene_ok (w_scene sample_world) ∧
  populate_root_joints ["stale"] sample_world = (Ok ["A:Root"; "B:Root"], sample_world) ∧
  populate_root_joints ["stale"] (world_of []) = (Ok ["No root joints found"], world_of []).
Proof.
  assert (Hok : scene_ok (w_scene sample_world)).
  { split; [apply (bool_decide_unpack _); by vm_compute|].
    repeat (apply Forall_cons; split; [split; [done|]; repeat constructor; done|]).
    apply Forall_nil_2. }
  assert (Hnil : scene_ok (w_scene (world_of []))).
  { split; [apply NoDup_nil_2 | apply Forall_nil_2]. }
  destruct (populate_root_joints_items sample_world ["stale"] Hok) as [Hrun _].
  destruct (populate_root_joints_items (world_of []) ["stale"] Hnil) as [Hrun0 _].
  split_and!; [done | exact Hrun | exact Hrun0].
Defined.

(** ** What an import records *)

Lemma lookup_file_exists fs p x : mel.lookup_file fs p = Some x → p ∈ (fs_files fs).*1.
Proof.
  unfold mel.lookup_file. intros Hl.
  destruct (list_find (λ e, e.1 = p) (fs_files fs)) as [[i e]|] eqn:Hfind; [|done].
  apply list_find_Some in Hfind as (Hi & He & _). simpl in He. subst p.
  apply list_elem_of_fmap_2. by eapply list_elem_of_lookup_2.
Qed.

Lemma FBXImport_run file w nodes :
  w_fbx_loaded w = true → mel.lookup_file (w_fs w) file = Some (Some nodes) →
  mel.FBXImport file w = (Ok tt, set_scene (w_scene w ++ nodes) w).
Proof.
  intros Hl Hf. unfold mel.FBXImport. rewrite (bind_ok _ _ _ _ _ (need_plugin_ok _ Hl)).
  by rewrite bind_gets, Hf.
Qed.

(** The scan for a parentless joint goes through when every name resolves. *)
Lemma first_parentless_total l w :
  (∀ j, j ∈ l → ∃ p, cmds.listRelatives_parent j w = (Ok p, w)) →
  ∃ ro o, first_parentless l w = (Ok ro, emit o w).
Proof.
  induction l as [|j l IH]; intros Hall; simpl.
  - rewrite bind_warning. by eexists _, _.
  - destruct (Hall j) as [p Hp]; [left|]. rewrite (bind_ok _ _ _ _ _ Hp).
    case_bool_decide.
    + rewrite bind_print. by eexists _, _.
    + apply IH. intros j' Hj'. apply Hall. by right.
Qed.

Lemma ls_joint_resolves s j :
  scene_ok s → j ∈ cmds.short_name s <$> filter (λ n, n_joint n = true) s →
  ∃ i n, cmds.resolve s j = Ok i ∧ s !! i = Some n ∧ n_joint n = true ∧ j = cmds.short_name s n.
Proof.
  intros Hok Hj. apply list_elem_of_fmap in Hj as (n & -> & Hn).
  apply list_elem_of_filter in Hn as [Hjoint Hn].
  apply list_elem_of_lookup_1 in Hn as [i Hi].
  exists i, n. split_and!; [by apply short_name_resolves | done | done | done].
Qed.

(** [get_new_root_joint] on a well-formed scene: it returns, having written
    one line, and a root it returns is a listed joint that was not listed
    before and lies directly under the world. *)
Lemma get_new_root_joint_run `{Host} before w :
  (∀ l, set_order l ≡ₚ l) → scene_ok (w_scene w) →
  ∃ ro o, get_new_root_joint before w = (Ok ro, emit o w) ∧
    ∀ r, ro = Some r →
      (r ∉ before) ∧
      ∃ i n, cmds.resolve (w_scene w) r = Ok i ∧ w_scene w !! i = Some n ∧
             n_joint n = true ∧ length (n_path n) = 1 ∧ r = cmds.short_name (w_scene w) n.
Proof.
  intros Hperm Hok. unfold get_new_root_joint, cmds.ls_type_joint. rewrite bind_gets.
  set (after := cmds.short_name (w_scene w) <$> filter (λ n, n_joint n = true) (w_scene w)).
  set (new_joints := set_order (list_difference (remove_dups after) before)).
  assert (Hnew : ∀ j, j ∈ new_joints → j ∈ after ∧ j ∉ before).
  { intros j Hj. unfold new_joints in Hj. rewrite Hperm in Hj.
    apply list_elem_of_difference in Hj as [Hj ?]. by rewrite elem_of_remove_dups in Hj. }
  case_bool_decide as Hnil.
  { rewrite bind_warning. by eexists None, _. }
  destruct (first_parentless_total new_joints w) as (ro & o & Hrun).
  { intros j Hj. destruct (Hnew j Hj) as [Hafter _].
    destruct (ls_joint_resolves _ _ Hok Hafter) as (i & n & Hres & Hi & _).
    eexists. by apply (listRelatives_parent_run _ _ i n). }
  exists ro, o. split; [done|]. intros r ->.
  apply first_parentless_found in Hrun as [Hin Hpar].
  destruct (Hnew r Hin) as [Hafter Hbefore]. split; [done|].
  destruct (ls_joint_resolves _ _ Hok Hafter) as (i & n & Hres & Hi & Hjoint & Hname).
  exists i, n. split_and!; try done.
  rewrite (listRelatives_parent_run _ _ _ _ Hres Hi) in Hpar.
  assert (Hp : path_ok (n_path n)).
  { destruct Hok as [_ Hf]. rewrite Forall_forall in Hf. apply Hf.
    by apply (list_elem_of_lookup_2 _ i). }
  destruct Hp as [Hne _]. by destruct (n_path n) as [|x [|y p]].
Qed.

(** The scan stops at the first joint without a parent. *)
Lemma first_parentless_at pre r post w :
  (∀ j, j ∈ pre → ∃ p, cmds.listRelatives_parent j w = (Ok (Some [p]), w)) →
  cmds.listRelatives_parent r w = (Ok None, w) →
  first_parentless (pre ++ r :: post) w
    = (Ok (Some r), emit (Stdout ("Detected imported root joint: " +:+ r)) w).
Proof.
  intros Hpre Hr. induction pre as [|j pre IH]; cbn [app first_parentless].
  - by rewrite (bind_ok _ _ _ _ _ Hr).
  - destruct (Hpre j) as [p Hp]; [left|]. rewrite (bind_ok _ _ _ _ _ Hp). simpl.
    apply IH. intros j' Hj'. apply Hpre. by right.
Qed.

(** Where every parent query returns, a list with a parentless entry splits
    at the first one. *)
Lemma first_parentless_split l w :
  (∀ j, j ∈ l → ∃ p, cmds.listRelatives_parent j w = (Ok p, w)) →
  (∃ j, j ∈ l ∧ cmds.listRelatives_parent j w = (Ok None, w)) →
  ∃ pre r post,
    l = pre ++ r :: post ∧
    (∀ j, j ∈ pre → ∃ p, cmds.listRelatives_parent j w = (Ok (Some [p]), w)) ∧
    cmds.listRelatives_parent r w = (Ok None, w).
Proof.
  induction l as [|x l IH]; intros Hall (j & Hj & Hnone); [by apply elem_of_nil in Hj|].
  destruct (Hall x) as [p Hp]; [left|].
  destruct (listRelatives_parent_shape _ _ _ Hp) as [->|[y ->]].
  { exists [], x, l. split_and!; [done | by intros ? ?%elem_of_nil | done]. }
  destruct IH as (pre & r & post & -> & Hpre & Hr).
  - intros j' Hj'. apply Hall. by right.
  - apply elem_of_cons in Hj as [->|Hj]; [congruence|]. by exists j.
  - exists (x :: pre), r, post. split_and!; [done | | done].
    intros j' [->|Hj']%elem_of_cons; [by exists y | by apply Hpre].
Qed.

(** On a well-formed scene the parent of a listed joint can be asked for. *)
Lemma listed_joint_has_parent_query w j :
  scene_ok (w_scene w) →
  j ∈ cmds.short_name (w_scene w) <$> filter (λ n, n_joint n = true) (w_scene w) →
  ∃ p, cmds.listRelatives_parent j w = (Ok p, w).
Proof.
  intros Hok Hj. destruct (ls_joint_resolves _ _ Hok Hj) as (i & n & Hres & Hi & _ & _).
  eexists. by apply (listRelatives_parent_run _ _ _ _ Hres Hi).
Qed.

(** C3 (as the code has it).  [get_new_root_joint] works on the set difference
    between the joints listed after the import and the inventory taken before
    it, and scans it in the iteration order of the set.  It returns the first
    new joint that has no parent at all: a root it returns is a new joint
    (listed after, not before) without a parent, hence without one among the
    new joints; and wherever the scan meets a parentless joint after joints
    that have a parent, that joint is returned, so on a well-formed scene a
    root is returned as soon as some new joint has no parent.  With no new
    joint, or with a parent on every new joint (a new one or not), it warns
    and returns [None] instead of a root. *)
Theorem new_root_is_parentless `{Host} (w : world) (before after : list string) :
  (∀ l, set_order l ≡ₚ l) →
  cmds.ls_type_joint w = (Ok after, w) →
  let new_joints := list_difference (remove_dups after) before in
  (∀ r w', get_new_root_joint before w = (Ok (Some r), w') →
     r ∈ new_joints ∧ r ∈ after ∧ (r ∉ before) ∧
     cmds.listRelatives_parent r w = (Ok None, w)) ∧
  (∀ pre r post,
     set_order new_joints = pre ++ r :: post →
     (∀ j, j ∈ pre → ∃ p, cmds.listRelatives_parent j w = (Ok (Some [p]), w)) →
     cmds.listRelatives_parent r w = (Ok None, w) →
     get_new_root_joint before w
       = (Ok (Some r), emit (Stdout ("Detected imported root joint: " +:+ r)) w)) ∧
  (scene_ok (w_scene w) →
   (∃ j, j ∈ new_joints ∧ cmds.listRelatives_parent j w = (Ok None, w)) →
   ∃ r, get_new_root_joint before w
        = (Ok (Some r), emit (Stdout ("Detected imported root joint: " +:+ r)) w)) ∧
  (new_joints = [] →
     get_new_root_joint before w
       = (Ok None, emit (Warn "No new joints detected after import!") w)) ∧
  ((∀ j, j ∈ new_joints → ∃ p, cmds.listRelatives_parent j w = (Ok (Some [p]), w)) →
     (get_new_root_joint before w).1 = Ok None ∧
     (new_joints ≠ [] →
      get_new_root_joint before w
        = (Ok None, emit (Warn "No valid root joint found in new joints!") w))).
Proof.
  intros Hperm Hls new_joints.
  assert (Hrun : get_new_root_joint before w =
    if bool_decide (set_order new_joints = [])
    then (Ok None, emit (Warn "No new joints detected after import!") w)
    else first_parentless (set_order new_joints) w).
  { unfold get_new_root_joint. rewrite (bind_ok _ _ _ _ _ Hls). fold new_joints.
    by destruct (bool_decide _). }
  assert (Hat : ∀ pre r post,
     set_order new_joints = pre ++ r :: post →
     (∀ j, j ∈ pre → ∃ p, cmds.listRelatives_parent j w = (Ok (Some [p]), w)) →
     cmds.listRelatives_parent r w = (Ok None, w) →
     get_new_root_joint before w
       = (Ok (Some r), emit (Stdout ("Detected imported root joint: " +:+ r)) w)).
  { intros pre r post Hsplit Hpre Hr. rewrite Hrun, Hsplit.
    rewrite bool_decide_eq_false_2 by (by destruct pre).
    by apply first_parentless_at. }
  split_and!.
  - intros r w'. rewrite Hrun. case_bool_decide; [done|].
    intros Hr. apply first_parentless_found in Hr as [Hin Hpar].
    rewrite Hperm in Hin. split; [done|].
    apply list_elem_of_difference in Hin as [Hin Hnot].
    rewrite elem_of_remove_dups in Hin. done.
  - exact Hat.
  - intros Hok (j & Hj & Hnone).
    assert (Hafter : after = cmds.short_name (w_scene w)
                               <$> filter (λ n, n_joint n = true) (w_scene w)).
    { unfold cmds.ls_type_joint, gets in Hls. by injection Hls as <-. }
    destruct (first_parentless_split (set_order new_joints) w) as (pre & r & post & Hs & Hpre & Hr).
    + intros j' Hj'. rewrite Hperm in Hj'. apply (listed_joint_has_parent_query _ _ Hok).
      apply list_elem_of_difference in Hj' as [Hj' _].
      rewrite elem_of_remove_dups in Hj'. by rewrite <- Hafter.
    + exists j. by rewrite Hperm.
    + exists r. by apply (Hat pre r post).
  - intros Hnil. rewrite Hrun, bool_decide_eq_true_2; [done|].
    apply Permutation_nil_r. by rewrite Hperm, Hnil.
  - intros Hall.
    assert (Hnone : first_parentless (set_order new_joints) w
                    = (Ok None, emit (Warn "No valid root joint found in new joints!") w)).
    { apply first_parentless_none. intros j Hj. apply Hall. by rewrite Hperm in Hj. }
    split.
    + rewrite Hrun. case_bool_decide; [done|]. by rewrite Hnone.
    + intros Hne. rewrite Hrun, bool_decide_eq_false_2; [done|].
      intros Hnil. apply Hne. apply Permutation_nil_r. by rewrite <- Hperm, Hnil.
Qed.

(** A skeleton that is listed child first: the scan passes the joint that has
    a parent and returns the root behind it. *)
Lemma new_root_is_parentless_witness :
  let w := world_of (rig_a ++ [joint ["Root"; "Spine"] "i1" []; joint ["Root"] "i0" []]) in
  let before := ["A:Root"; "A:Spine"; "A:Hand"] in
  let after := ["A:Root"; "A:Spine"; "A:Hand"; "Spine"; "Root"] in
  (∀ l, @set_order sample_host l ≡ₚ l) ∧
  cmds.ls_type_joint w = (Ok after, w) ∧
  @set_order sample_host (list_difference (remove_dups after) before) = ["Spine"] ++ "Root" :: [] ∧
  cmds.listRelatives_parent "Spine" w = (Ok (Some ["|Root"]), w) ∧
  cmds.listRelatives_parent "Root" w = (Ok None, w) ∧
  get_new_root_joint (H := sample_host) before w
    = (Ok (Some "Root"), emit (Stdout "Detected imported root joint: Root") w) ∧
  scene_ok (w_scene w) ∧
  "Root" ∈ list_difference (remove_dups after) before ∧
  ∃ r, get_new_root_joint (H := sample_host) before w
       = (Ok (Some r), emit (Stdout ("Detected imported root joint: " +:+ r)) w).
Proof.
  intros w before after.
  assert (Hperm : ∀ l, @set_order sample_host l ≡ₚ l) by done.
  assert (Hls : cmds.ls_type_joint w = (Ok after, w)) by reflexivity.
  assert (Hsplit : @set_order sample_host (list_difference (remove_dups after) before)
                   = ["Spine"] ++ "Root" :: []) by reflexivity.
  assert (Hspine : cmds.listRelatives_parent "Spine" w = (Ok (Some ["|Root"]), w))
    by reflexivity.
  assert (Hroot : cmds.listRelatives_parent "Root" w = (Ok None, w)) by reflexivity.
  assert (Hok : scene_ok (w_scene w)).
  { split; [apply (bool_decide_unpack _); by vm_compute|].
    repeat (apply Forall_cons; split; [split; [done|]; repeat constructor; done|]).
    apply Forall_nil_2. }
  assert (Hin : "Root" ∈ list_difference (remove_dups after) before).
  { apply (bool_decide_unpack _). by vm_compute. }
  destruct (new_root_is_parentless (H := sample_host) w before after Hperm Hls)
    as (_ & Hat & Hsome & _).
  split_and!; [done | done | done | done | done | | done | done |].
  - apply (Hat ["Spine"] "Root" [] Hsplit); [|done].
    intros j Hj. apply list_elem_of_singleton in Hj as ->. by eexists.
  - apply (Hsome Hok). by exists "Root".
Defined.

(** The joints of the file lie under a group node.  The parent of the new
    joint [Root] is that group, which is not a joint and so not among the new
    joints: [Root] has no parent in the difference set, and yet no root is
    returned. *)
Lemma grouped_root_is_not_found :
  let w := world_of (rig_a ++ [Node ["grp"] false "g0" false false ∅;
                                joint ["grp"; "Root"] "i0" [];
                                joint ["grp"; "Root"; "Spine"] "i1" []]) in
  let before := ["A:Root"; "A:Spine"; "A:Hand"] in
  let after := ["A:Root"; "A:Spine"; "A:Hand"; "Root"; "Spine"] in
  let new_joints := list_difference (remove_dups after) before in
  cmds.ls_type_joint w = (Ok after, w) ∧
  new_joints = ["Root"; "Spine"] ∧
  cmds.listRelatives_parent "Root" w = (Ok (Some ["|grp"]), w) ∧
  filter (λ n, full n = "|grp") (w_scene w) = [Node ["grp"] false "g0" false false ∅] ∧
  get_new_root_joint (H := sample_host) before w
    = (Ok None, emit (Warn "No valid root joint found in new joints!") w).
Proof. split_and!; reflexivity. Qed.

Lemma ls_dag_joints_run r w i n :
  cmds.resolve (w_scene w) r = Ok i → w_scene w !! i = Some n → n_joint n = true →
  cmds.ls_dag_joints r w
  = (Ok (cmds.short_name (w_scene w) <$>
           n :: filter (λ m, n_joint m = true ∧ cmds.is_descendant n m = true) (w_scene w)), w).
Proof.
  intros Hres Hi Hj. unfold cmds.ls_dag_joints, gets, cmds.matching_nodes.
  rewrite (resolve_matching _ _ _ Hres). simpl. rewrite Hi. simpl. rewrite Hj.
  by rewrite app_nil_r.
Qed.

Lemma om_uuid_run x w i n :
  cmds.resolve (w_scene w) x = Ok i → w_scene w !! i = Some n →
  om_uuid x w = (Ok (n_uuid n), w).
Proof.
  intros Hres Hi. unfold om_uuid.
  by rewrite (bind_ok _ _ _ _ _ (node_named_ok _ _ _ _ Hres Hi)).
Qed.

(** The loop that stores the ids, over the names [ls] printed for [ms]. *)
Lemma uuid_loop_run (ms : list node) w :
  scene_ok (w_scene w) → (∀ m, m ∈ ms → m ∈ w_scene w) →
  for_ (cmds.short_name (w_scene w) <$> ms) (λ joint,
    try_except
      (uuid <- om_uuid joint ;;
       modify (λ w, set_uuids (imported_joint_uuids w ++ [uuid]) w))
      (λ _, cmds_warning ("Failed to get UUID for: " +:+ joint))) w
  = (Ok tt, set_uuids (imported_joint_uuids w ++ (n_uuid <$> ms)) w).
Proof.
  revert w. induction ms as [|m ms IH]; intros w Hok Hin.
  { simpl. rewrite app_nil_r. by destruct w. }
  rewrite fmap_cons. cbn [for_].
  assert (Hm : m ∈ w_scene w) by (apply Hin; left).
  apply list_elem_of_lookup_1 in Hm as [i Hi].
  pose proof (om_uuid_run _ _ _ _ (short_name_resolves _ _ _ Hok Hi) Hi) as Hu.
  erewrite bind_ok; [|apply try_except_ok; rewrite (bind_ok _ _ _ _ _ Hu); reflexivity].
  set (w1 := set_uuids _ w).
  change (cmds.short_name (w_scene w)) with (cmds.short_name (w_scene w1)).
  rewrite (IH w1 Hok (λ m' Hm', Hin m' (list_elem_of_further _ _ _ Hm'))).
  unfold w1. cbn [imported_joint_uuids set_uuids]. rewrite <- app_assoc. by destruct w.
Qed.

(** The run of an import on a well-formed scene. *)
Lemma import_run `{Host} (w : world) (fbx_file : string) (nodes : list node) :
  (∀ l, set_order l ≡ₚ l) →
  w_fbx_loaded w = true →
  mel.lookup_file (w_fs w) fbx_file = Some (Some nodes) →
  scene_ok (w_scene w ++ nodes) →
  let s1 := w_scene w ++ nodes in
  ∃ ro w', import_fbx_animation fbx_file w = (Ok ro, w') ∧ w_scene w' = s1 ∧
    (w_fs w' = w_fs w ∧ w_fbx_loaded w' = true) ∧
    match ro with
    | Some root =>
        root ≠ "" ∧
        (∀ before, (cmds.ls_type_joint w).1 = Ok before → root ∉ before) ∧
        ∃ i n, cmds.resolve s1 root = Ok i ∧ s1 !! i = Some n ∧
               n_joint n = true ∧ length (n_path n) = 1 ∧
               root = cmds.short_name s1 n ∧
               imported_joint_uuids w'
                 = n_uuid n :: (n_uuid <$> filter (λ m, n_joint m = true ∧
                                                        cmds.is_descendant n m = true) s1)
    | None => imported_joint_uuids w' = []
    end.
Proof.
  intros Hperm Hl Hfile Hok s1.
  unfold import_fbx_animation. rewrite bind_modify.
  unfold os.path_exists. rewrite bind_gets. cbn [w_fs set_uuids].
  rewrite bool_decide_eq_true_2 by (right; by eapply lookup_file_exists). cbn [negb].
  unfold cmds.ls_type_joint at 1. rewrite bind_gets. cbn [w_scene set_uuids].
  set (before := cmds.short_name (w_scene w) <$> filter (λ n, n_joint n = true) (w_scene w)).
  erewrite bind_ok; [|by apply set_option_ok].
  erewrite bind_ok; [|by apply (FBXImport_run _ _ nodes)].
  rewrite bind_print. cbn [w_scene set_fbx_options set_uuids]. fold s1.
  set (w1 := emit _ _).
  assert (Hs1 : w_scene w1 = s1) by done.
  destruct (get_new_root_joint_run before w1 Hperm) as (ro & o & Hroot & Hro);
    [by rewrite Hs1|].
  rewrite (bind_ok _ _ _ _ _ Hroot). set (w2 := emit o w1).
  exists ro. destruct ro as [root|].
  - destruct (Hro root eq_refl) as (Hbefore & i & n & Hres & Hi & Hjoint & Hlen & Hname).
    rewrite Hs1 in Hres, Hi, Hname.
    assert (Hne : root ≠ "").
    { rewrite Hname. apply short_name_matches. destruct Hok as [_ Hf].
      rewrite Forall_forall in Hf. apply Hf. by apply (list_elem_of_lookup_2 _ i). }
    assert (Ht : truthy (Some root) = true) by (simpl; by rewrite bool_decide_eq_false_2).
    rewrite Ht. change (default "" (Some root)) with root.
    erewrite bind_ok; [|by apply (ls_dag_joints_run root w2 i n)].
    erewrite bind_ok; [|apply uuid_loop_run; [done|]].
    2:{ intros m Hm. apply elem_of_cons in Hm as [->|Hm].
        - by apply (list_elem_of_lookup_2 _ i).
        - by apply list_elem_of_filter in Hm as [_ ?]. }
    rewrite bind_gets, bind_print. unfold ret. eexists. split; [reflexivity|].
    split_and!; [done | done | done | done | | by exists i, n].
    intros before' [= <-]. done.
  - cbn [truthy]. rewrite bind_ret. cbn [for_]. rewrite bind_ret, bind_gets, bind_print.
    unfold ret. eexists. split; [reflexivity|]. done.
Qed.

(** X1.  On a well-formed scene, with the plug-in loaded and a readable file,
    an import returns without raising and leaves the scene with the nodes of
    the file added.  A root it returns names a joint directly under the world
    that was not listed before the import, and the id list then holds the id of
    that joint first, followed by the ids of the joints below it: what
    [delete_imported_skeleton] later takes as [imported_joint_uuids[0]] is the
    id of the returned root.  Without a root the id list is empty. *)
Theorem import_records_root_first `{Host} (w : world) (fbx_file : string) (nodes : list node) :
  (∀ l, set_order l ≡ₚ l) →
  w_fbx_loaded w = true →
  mel.lookup_file (w_fs w) fbx_file = Some (Some nodes) →
  scene_ok (w_scene w ++ nodes) →
  let s1 := w_scene w ++ nodes in
  let run := import_fbx_animation fbx_file w in
  ∃ ro, run.1 = Ok ro ∧ w_scene run.2 = s1 ∧
    match ro with
    | Some root =>
        root ≠ "" ∧
        (∀ before, (cmds.ls_type_joint w).1 = Ok before → root ∉ before) ∧
        ∃ i n, cmds.resolve s1 root = Ok i ∧ s1 !! i = Some n ∧
               n_joint n = true ∧ length (n_path n) = 1 ∧
               imported_joint_uuids run.2
                 = n_uuid n :: (n_uuid <$> filter (λ m, n_joint m = true ∧
                                                        cmds.is_descendant n m = true) s1)
    | None => imported_joint_uuids run.2 = []
    end.
Proof.
  intros Hperm Hl Hfile Hok s1 run. subst run.
  destruct (import_run w fbx_file nodes Hperm Hl Hfile Hok) as (ro & w' & Hrun & Hs & _ & Hro).
  rewrite Hrun. exists ro. split_and!; [done | done |].
  destruct ro as [root|]; [|done].
  destruct Hro as (Hne & Hbefore & i & n & Hres & Hi & Hj & Hlen & _ & Hids).
  split_and!; [done | done |]. by exists i, n.
Qed.

Lemma import_records_root_first_witness :
  let run := import_fbx_animation (H := sample_host) "/in/Walk.fbx" sample_world in
  (∀ l, @set_order sample_host l ≡ₚ l) ∧
  scene_ok (w_scene sample_world ++ walk_skeleton) ∧
  run.1 = Ok (Some "Root") ∧
  imported_joint_uuids run.2 = ["i0"; "i1"; "i2"].
Proof.
  intros run.
  assert (Hperm : ∀ l, @set_order sample_host l ≡ₚ l) by done.
  assert (Hok : scene_ok (w_scene sample_world ++ walk_skeleton)).
  { split; [apply (bool_decide_unpack _); by vm_compute|].
    repeat (apply Forall_cons; split; [split; [done|]; repeat constructor; done|]).
    apply Forall_nil_2. }
  destruct (import_records_root_first (H := sample_host) sample_world "/in/Walk.fbx"
              walk_skeleton Hperm eq_refl eq_refl Hok) as (ro & Hro & _ & Hids).
  subst run.
  assert (Hroot : ro = Some "Root").
  { pose proof Hro as Hc. vm_compute in Hc. congruence. }
  subst ro. destruct Hids as (_ & _ & i & n & Hres & Hi & _ & _ & Hids).
  split_and!; [done | done | exact Hro |].
  rewrite Hids. vm_compute in Hres. injection Hres as <-. injection Hi as <-. reflexivity.
Defined.

(** ** Import, then cleanup *)

(** A name that denotes one node resolves to it. *)
Lemma matching_nodes_resolve s x n :
  cmds.matching_nodes s x = [n] → ∃ j, cmds.resolve s x = Ok j ∧ s !! j = Some n.
Proof.
  intros Hm. pose proof (omap_lookup_length s (cmds.matching s x) (matching_valid s x)) as Hlen.
  unfold cmds.matching_nodes in Hm. rewrite Hm in Hlen. unfold cmds.resolve.
  destruct (cmds.matching s x) as [|j [|]]; try done.
  exists j. split; [done|]. simpl in Hm. by destruct (s !! j); simplify_eq.
Qed.

(** The scan over the ids of a scene whose ids name their nodes. *)
Lemma find_by_uuid_ids u (l : list node) w :
  (∀ m, m ∈ l → cmds.matching_nodes (w_scene w) (n_uuid m) = [m]) →
  find_by_uuid u (n_uuid <$> l) w
  = (Ok (if decide (u ∈ n_uuid <$> l) then Some u else None), w).
Proof.
  induction l as [|m l IH]; intros Hall.
  { rewrite decide_False; [done|]. by intros ?%elem_of_nil. }
  rewrite fmap_cons. cbn [find_by_uuid]. unfold cmds.ls_uuid_of. rewrite bind_gets.
  rewrite (Hall m) by left. simpl.
  destruct (decide (n_uuid m = u)) as [<-|Hne].
  - rewrite decide_True by left. done.
  - rewrite IH by (intros m' Hm'; apply Hall; by right).
    destruct (decide (u ∈ n_uuid <$> l)) as [Hin|Hnot].
    + rewrite decide_True by (by right). done.
    + rewrite decide_False; [done|]. intros [?|?]%elem_of_cons; by simplify_eq.
Qed.

(** A cleanup whose root id names a live node that can be deleted. *)
Lemma cleanup_run w u rest n :
  ids_ok (w_scene w) → imported_joint_uuids w = u :: rest →
  n ∈ w_scene w → n_uuid n = u → n_readonly n = false →
  ∃ w', delete_imported_skeleton w = (Ok tt, w') ∧ imported_joint_uuids w' = [] ∧
        w_scene w' = filter (λ m, ¬ n_path n `prefix_of` n_path m) (w_scene w).
Proof.
  intros Hids Hu Hn Hid Hro.
  destruct (Hids n Hn) as [Hne Hname]. rewrite Hid in Hne, Hname.
  destruct (matching_nodes_resolve _ _ _ Hname) as (j & Hres & Hj).
  unfold delete_imported_skeleton. rewrite bind_print, bind_gets.
  cbn [imported_joint_uuids emit]. rewrite Hu, !bind_print.
  set (w0 := emit _ (emit _ (emit _ w))).
  assert (Hfind : find_by_uuid u (n_uuid <$> w_scene w0) w0 = (Ok (Some u), w0)).
  { rewrite find_by_uuid_ids by (intros m Hm; by apply Hids).
    rewrite decide_True; [done|]. rewrite <- Hid. by apply list_elem_of_fmap_2. }
  destruct (delete_root_found w0 u u j n Hfind Hne Hres Hj) as (w1 & Hrun & Hu1 & Hdel & _).
  rewrite (bind_ok _ _ _ _ _ (try_except_ok _ _ _ _ _ Hrun)).
  rewrite bind_modify. unfold print, modify. eexists. split; [reflexivity|].
  split; [done|]. simpl. by rewrite (Hdel Hro).
Qed.

(** X14.  When a file holds one hierarchy under a top name that the scene does
    not use, the import does not change the names listed for the joints already
    there, and ids name their nodes, an import that returns a root followed by
    [delete_imported_skeleton] leaves the scene as it was before the import,
    with an empty id list. *)
Theorem import_then_cleanup_restores `{Host} (w : world) (fbx_file : string)
    (nodes : list node) (top : string) (root : string) :
  let s := w_scene w in
  let s1 := s ++ nodes in
  let imported := import_fbx_animation fbx_file w in
  let cleaned := delete_imported_skeleton imported.2 in
  (∀ l, set_order l ≡ₚ l) →
  w_fbx_loaded w = true →
  mel.lookup_file (w_fs w) fbx_file = Some (Some nodes) →
  scene_ok s1 → ids_ok s1 →
  (∀ m, m ∈ nodes → [top] `prefix_of` n_path m ∧ n_readonly m = false) →
  (∀ m, m ∈ s → ¬ [top] `prefix_of` n_path m) →
  (∀ m, m ∈ s → n_joint m = true → cmds.short_name s1 m = cmds.short_name s m) →
  imported.1 = Ok (Some root) →
  cleaned.1 = Ok tt ∧ w_scene cleaned.2 = s ∧ imported_joint_uuids cleaned.2 = [].
Proof.
  intros s s1 imported cleaned Hperm Hl Hfile Hok Hids Hnodes Hscene Hstable Hroot.
  subst cleaned imported.
  destruct (import_run w fbx_file nodes Hperm Hl Hfile Hok) as (ro & w1 & Hrun & Hs1 & _ & Hro).
  rewrite Hrun in *. cbn [fst snd] in *. injection Hroot as ->.
  destruct Hro as (_ & Hbefore & i & n & _ & Hi & Hjoint & Hlen & Hname & Hu).
  fold s s1 in Hi, Hname, Hu.
  (* the root is a node of the file *)
  assert (Hn : n ∈ nodes).
  { apply list_elem_of_lookup_2 in Hi. apply elem_of_app in Hi as [Hold|?]; [|done].
    exfalso. apply (Hbefore (cmds.short_name s <$> filter (λ n, n_joint n = true) s)); [done|].
    rewrite Hname, (Hstable n Hold Hjoint). apply list_elem_of_fmap_2.
    by apply list_elem_of_filter. }
  destruct (Hnodes n Hn) as [[k Hk] Hro].
  assert (Hpath : n_path n = [top]).
  { rewrite Hk in Hlen |- *. destruct k; [done|]. simpl in Hlen. lia. }
  destruct (cleanup_run w1 _ _ n ltac:(by rewrite Hs1) Hu) as (w2 & Hclean & Hnil & Hs2).
  { rewrite Hs1. by apply (list_elem_of_lookup_2 _ i). }
  { done. }
  { done. }
  rewrite Hclean. split_and!; [done | | done]. cbn [snd]. rewrite Hs2, Hs1, Hpath.
  fold s. rewrite filter_app.
  assert (Hkeep : filter (λ m, ¬ [top] `prefix_of` n_path m) s = s).
  { clear -Hscene. induction s as [|m l IH]; [done|].
    rewrite filter_cons, decide_True by (apply Hscene; left).
    f_equal. apply IH. intros m' Hm'. apply Hscene. by right. }
  assert (Hdrop : filter (λ m, ¬ [top] `prefix_of` n_path m) nodes = []).
  { clear -Hnodes. induction nodes as [|m l IH]; [done|].
    rewrite filter_cons, decide_False by (intros Hm; apply Hm, Hnodes; left).
    apply IH. intros m' Hm'. apply Hnodes. by right. }
  by rewrite Hkeep, Hdrop, app_nil_r.
Qed.

Lemma import_then_cleanup_restores_witness :
  let w := sample_world in
  let imported := import_fbx_animation (H := sample_host) "/in/Walk.fbx" w in
  let cleaned := delete_imported_skeleton imported.2 in
  imported.1 = Ok (Some "Root") ∧
  w_scene imported.2 = rig_a ++ rig_b ++ walk_skeleton ∧
  cleaned.1 = Ok tt ∧ w_scene cleaned.2 = rig_a ++ rig_b ∧ imported_joint_uuids cleaned.2 = [].
Proof.
  intros w imported cleaned.
  assert (Hperm : ∀ l, @set_order sample_host l ≡ₚ l) by done.
  assert (Hok : scene_ok (w_scene w ++ walk_skeleton)).
  { split; [apply (bool_decide_unpack _); by vm_compute|].
    repeat (apply Forall_cons; split; [split; [done|]; repeat constructor; done|]).
    apply Forall_nil_2. }
  assert (Hids : ids_ok (w_scene w ++ walk_skeleton)).
  { intros m Hm. repeat (apply elem_of_cons in Hm as [->|Hm]; [split; [done | reflexivity]|]).
    by apply elem_of_nil in Hm. }
  assert (Hnodes : ∀ m, m ∈ walk_skeleton → ["Root"] `prefix_of` n_path m ∧ n_readonly m = false).
  { intros m Hm. repeat (apply elem_of_cons in Hm as [->|Hm];
      [split; [apply (bool_decide_unpack _); by vm_compute | reflexivity]|]).
    by apply elem_of_nil in Hm. }
  assert (Hscene : ∀ m, m ∈ w_scene w → ¬ ["Root"] `prefix_of` n_path m).
  { intros m Hm. repeat (apply elem_of_cons in Hm as [->|Hm];
      [apply (bool_decide_unpack _); by vm_compute|]).
    by apply elem_of_nil in Hm. }
  assert (Hstable : ∀ m, m ∈ w_scene w → n_joint m = true →
            cmds.short_name (w_scene w ++ walk_skeleton) m = cmds.short_name (w_scene w) m).
  { intros m Hm _. repeat (apply elem_of_cons in Hm as [->|Hm]; [reflexivity|]).
    by apply elem_of_nil in Hm. }
  assert (Hroot : imported.1 = Ok (Some "Root")) by reflexivity.
  destruct (import_then_cleanup_restores (H := sample_host) w "/in/Walk.fbx" walk_skeleton
              "Root" "Root" Hperm eq_refl eq_refl Hok Hids Hnodes Hscene Hstable Hroot)
    as (H1 & H2 & H3).
  split_and!; [done | reflexivity | exact H1 | exact H2 | exact H3].
Defined.

(** ** The transfers write into the rig only *)

(** One matched pair, when its names resolve and its destination is in [P]:
    the step returns, keeps the shape of the scene and leaves the nodes
    outside [P] alone. *)
Lemma pair_step `{Host} (P : nat → Prop) ij rj w :
  (∃ i r, resolves (w_scene w) (ij, rj) (i, r) ∧ P r) →
  ∃ k w', transfer_channels ij rj w = (Ok k, w') ∧
    shape (w_scene w') = shape (w_scene w) ∧
    ∀ j, ¬ P j → w_scene w' !! j = w_scene w !! j.
Proof.
  intros (i & r & (H1 & H2 & H3 & H4) & HP). cbn [fst snd] in *.
  destruct (transfer_channels_pair ij rj i r w H1 H2 H3 H4) as (k & w' & Hrun & Hscene).
  exists k, w'. split; [done|]. rewrite Hscene. split; [apply apply_pair_shape|].
  intros j Hj. apply apply_pair_other. simpl. by intros ->.
Qed.

Lemma resolves_pair_shape s s' sp (P : nat → Prop) :
  shape s' = shape s →
  (∃ i r, resolves s sp (i, r) ∧ P r) → ∃ i r, resolves s' sp (i, r) ∧ P r.
Proof.
  intros Hs (i & r & Hres & HP). exists i, r. split; [|done].
  by apply (resolves_shape s s').
Qed.

Lemma count_loop_frame `{Host} (P : nat → Prop) (d rd : dict) acc w :
  (∀ kv rj, kv ∈ d → dict_get kv.1 rd = Some rj →
     ∃ i r, resolves (w_scene w) (kv.2, rj) (i, r) ∧ P r) →
  ∃ k w',
    for_count d (λ kv,
      match dict_get kv.1 rd with
      | Some rig_joint => transfer_channels kv.2 rig_joint
      | None => ret 0
      end) acc w = (Ok k, w') ∧
    shape (w_scene w') = shape (w_scene w) ∧
    ∀ j, ¬ P j → w_scene w' !! j = w_scene w !! j.
Proof.
  revert acc w. induction d as [|kv d IH]; intros acc w Hall.
  { by exists acc, w. }
  cbn [for_count].
  assert (Hstep : ∃ k w1,
    (match dict_get kv.1 rd with
     | Some rig_joint => transfer_channels kv.2 rig_joint
     | None => ret 0
     end) w = (Ok k, w1) ∧
    shape (w_scene w1) = shape (w_scene w) ∧
    ∀ j, ¬ P j → w_scene w1 !! j = w_scene w !! j).
  { destruct (dict_get kv.1 rd) as [rj|] eqn:Hget; [|by exists 0, w].
    apply pair_step. apply (Hall kv rj); [left | done]. }
  destruct Hstep as (k & w1 & Hrun & Hshape & Hframe).
  rewrite (bind_ok _ _ _ _ _ Hrun).
  destruct (IH (acc + k) w1) as (k' & w' & Hrest & Hshape' & Hframe').
  { intros kv' rj Hkv Hget. apply (resolves_pair_shape (w_scene w)); [done|].
    apply Hall; [by right | done]. }
  exists k', w'. split; [done|]. split; [congruence|].
  intros j Hj. by rewrite Hframe', Hframe.
Qed.

Lemma unit_loop_frame `{Host} (P : nat → Prop) (d rd : dict) w :
  (∀ kv rj, kv ∈ d → dict_get kv.1 rd = Some rj →
     ∃ i r, resolves (w_scene w) (kv.2, rj) (i, r) ∧ P r) →
  ∃ w',
    for_ d (λ kv,
      match dict_get kv.1 rd with
      | Some rig_joint => transfer_channels kv.2 rig_joint ;;; ret tt
      | None => ret tt
      end) w = (Ok tt, w') ∧
    shape (w_scene w') = shape (w_scene w) ∧
    ∀ j, ¬ P j → w_scene w' !! j = w_scene w !! j.
Proof.
  revert w. induction d as [|kv d IH]; intros w Hall.
  { by exists w. }
  cbn [for_].
  assert (Hstep : ∃ w1,
    (match dict_get kv.1 rd with
     | Some rig_joint => transfer_channels kv.2 rig_joint ;;; ret tt
     | None => ret tt
     end) w = (Ok tt, w1) ∧
    shape (w_scene w1) = shape (w_scene w) ∧
    ∀ j, ¬ P j → w_scene w1 !! j = w_scene w !! j).
  { destruct (dict_get kv.1 rd) as [rj|] eqn:Hget; [|by exists w].
    destruct (pair_step P kv.2 rj w) as (k & w1 & Hrun & ?); [apply (Hall kv rj); [left | done]|].
    exists w1. by rewrite (bind_ok _ _ _ _ _ Hrun). }
  destruct Hstep as (w1 & Hrun & Hshape & Hframe).
  rewrite (bind_ok _ _ _ _ _ Hrun).
  destruct (IH w1) as (w' & Hrest & Hshape' & Hframe').
  { intros kv' rj Hkv Hget. apply (resolves_pair_shape (w_scene w)); [done|].
    apply Hall; [by right | done]. }
  exists w'. split; [done|]. split; [congruence|].
  intros j Hj. by rewrite Hframe', Hframe.
Qed.

(** The names of a traversal resolve, and to nodes at or below the root. *)
Lemma traversal_in_rig s root i r x :
  NoDup (full <$> s) → cmds.resolve s root = Ok i → s !! i = Some r →
  x ∈ descendant_names s r ++ [root] →
  ∃ j m, cmds.resolve s x = Ok j ∧ s !! j = Some m ∧ n_path r `prefix_of` n_path m.
Proof.
  intros Hnd Hres Hi Hx.
  destruct (traversal_resolves s root i r x Hnd Hres Hi Hx) as (j & Hj & m & Hm & Hpre & _).
  by exists j, m.
Qed.

Lemma matched_in_rig s source_root target_root i_s n_s i_t n_t (d rd : dict) :
  NoDup (full <$> s) →
  cmds.resolve s source_root = Ok i_s → s !! i_s = Some n_s →
  cmds.resolve s target_root = Ok i_t → s !! i_t = Some n_t →
  (∀ k v, (k, v) ∈ d → v ∈ descendant_names s n_s ++ [source_root]) →
  (∀ k v, (k, v) ∈ rd → v ∈ descendant_names s n_t ++ [target_root]) →
  ∀ kv rj, kv ∈ d → dict_get kv.1 rd = Some rj →
    ∃ i r, resolves s (kv.2, rj) (i, r) ∧
           ∃ m, s !! r = Some m ∧ n_path n_t `prefix_of` n_path m.
Proof.
  intros Hnd Hrs His Hrt Hit Hd Hrd [k v] rj Hkv Hget. cbn [fst snd] in *.
  apply dict_get_elem in Hget.
  destruct (traversal_in_rig s source_root i_s n_s v Hnd Hrs His (Hd _ _ Hkv))
    as (i & m & Hi & Hm & _).
  destruct (traversal_in_rig s target_root i_t n_t rj Hnd Hrt Hit (Hrd _ _ Hget))
    as (r & m' & Hr & Hm' & Hpre).
  exists i, r. split; [|by exists m'].
  unfold resolves. cbn [fst snd]. split_and!; [done | done | by exists m | by exists m'].
Qed.

Lemma ignore_namespace_rig_frame `{Host} (w : world)
    (source_root target_root : string) (i_s i_t : nat) (n_s n_t : node) :
  NoDup (full <$> w_scene w) →
  cmds.resolve (w_scene w) source_root = Ok i_s → w_scene w !! i_s = Some n_s →
  cmds.resolve (w_scene w) target_root = Ok i_t → w_scene w !! i_t = Some n_t →
  ∃ w', transfer_animation_ignore_namespace source_root target_root w = (Ok tt, w') ∧
    ∀ j, ¬ (∃ m, w_scene w !! j = Some m ∧ n_path n_t `prefix_of` n_path m) →
         w_scene w' !! j = w_scene w !! j.
Proof.
  intros Hnd Hrs His Hrt Hit.
  set (P := λ r, ∃ m, w_scene w !! r = Some m ∧ n_path n_t `prefix_of` n_path m).
  unfold transfer_animation_ignore_namespace.
  rewrite (bind_ok _ _ _ _ _ (listRelatives_allDescendents_run _ _ _ _
                                (node_named_ok _ _ _ _ Hrs His))).
  rewrite (bind_ok _ _ _ _ _ (listRelatives_allDescendents_run _ _ _ _
                                (node_named_ok _ _ _ _ Hrt Hit))).
  cbv beta zeta. rewrite !or_empty_descendants.
  destruct (unit_loop_frame P
              (namespace_dict (descendant_names (w_scene w) n_s ++ [source_root]))
              (namespace_dict (descendant_names (w_scene w) n_t ++ [target_root])) w)
    as (w' & Hloop & _ & Hframe).
  { apply (matched_in_rig _ source_root target_root i_s n_s i_t n_t); try done.
    - intros k v Hkv. by apply namespace_dict_entry in Hkv as [_ ?].
    - intros k v Hkv. by apply namespace_dict_entry in Hkv as [_ ?]. }
  unfold descendant_names in Hloop. rewrite (bind_ok _ _ _ _ _ Hloop).
  eexists. split; [reflexivity|]. done.
Qed.

(** X8.  On a scene with distinct long names, with both root names denoting one
    node each, [transfer_animation_ignore_namespace] does not raise, and every
    node that is not at or below the target root is afterwards exactly as it
    was: the transfer writes into the target hierarchy only. *)
Theorem ignore_namespace_writes_target_only `{Host} (w : world)
    (source_root target_root : string) (i_s i_t : nat) (n_s n_t : node) :
  NoDup (full <$> w_scene w) →
  cmds.resolve (w_scene w) source_root = Ok i_s → w_scene w !! i_s = Some n_s →
  cmds.resolve (w_scene w) target_root = Ok i_t → w_scene w !! i_t = Some n_t →
  let run := transfer_animation_ignore_namespace source_root target_root w in
  run.1 = Ok tt ∧
  ∀ j m, w_scene w !! j = Some m → ¬ n_path n_t `prefix_of` n_path m →
         w_scene run.2 !! j = Some m.
Proof.
  intros Hnd Hrs His Hrt Hit run. subst run.
  destruct (ignore_namespace_rig_frame w source_root target_root i_s i_t n_s n_t
              Hnd Hrs His Hrt Hit) as (w' & -> & Hframe).
  split; [done|].
  intros j m Hj Hout. cbn [snd]. rewrite Hframe; [done|].
  intros (m' & Hm' & Hpre). by simplify_eq.
Qed.

Lemma dict_of_entry kvs k v : (k, v) ∈ dict_of kvs → (k, v) ∈ kvs.
Proof.
  revert k v. induction kvs as [|kv kvs IH] using rev_ind; intros k v.
  - intros Hin. by apply elem_of_nil in Hin.
  - rewrite dict_of_snoc.
    apply (dict_set_entry (λ k v, (k, v) ∈ kvs ++ [kv])).
    + apply elem_of_app. right. destruct kv. left.
    + intros k' v' Hin. apply elem_of_app. left. by apply IH.
Qed.

(** The values of a long-name index are joints of the traversal. *)
Lemma long_dict_values joints w d w' :
  long_dict joints w = (Ok d, w') → ∀ k v, (k, v) ∈ d → v ∈ joints.
Proof.
  unfold long_dict, bind. destruct (mapM long_key joints w) as [[keys|e] w1]; [|done].
  intros [= <- _] k v Hin. apply dict_of_entry in Hin. by apply elem_of_zip_r in Hin.
Qed.

Lemma transfer_animation_rig_frame `{Host} (w : world)
    (imported_root rig_root : string) (i r : nat) (n nr : node) :
  NoDup (full <$> w_scene w) →
  cmds.resolve (w_scene w) imported_root = Ok i → w_scene w !! i = Some n →
  cmds.resolve (w_scene w) rig_root = Ok r → w_scene w !! r = Some nr →
  ∃ w', transfer_animation imported_root rig_root w = (Ok tt, w') ∧
    ∀ j, ¬ (∃ m, w_scene w !! j = Some m ∧ n_path nr `prefix_of` n_path m) →
         w_scene w' !! j = w_scene w !! j.
Proof.
  intros Hnd Hres Hi Hresr Hr.
  set (P := λ j, ∃ m, w_scene w !! j = Some m ∧ n_path nr `prefix_of` n_path m).
  pose proof (node_named_ok _ _ _ _ Hres Hi) as Hn.
  pose proof (node_named_ok _ _ _ _ Hresr Hr) as Hnr.
  unfold transfer_animation.
  rewrite (bind_ok _ _ _ _ _ (objExists_run _ _)), (bind_ok _ _ _ _ _ (objExists_run _ _)).
  rewrite (resolve_matching _ _ _ Hres), (resolve_matching _ _ _ Hresr).
  rewrite !bool_decide_eq_true_2 by done. cbn [negb orb].
  rewrite (bind_ok _ _ _ _ _ (listRelatives_allDescendents_run _ _ _ _ Hn)).
  rewrite (bind_ok _ _ _ _ _ (listRelatives_allDescendents_run _ _ _ _ Hnr)).
  cbv beta zeta. rewrite !or_empty_descendants, !bind_print.
  set (w2 := emit _ (emit _ w)).
  assert (Hn2 : cmds.node_named imported_root w2 = (Ok (i, n), w2)).
  { unfold w2. by rewrite !node_named_emit, Hn. }
  assert (Hr2 : cmds.node_named rig_root w2 = (Ok (r, nr), w2)).
  { unfold w2. by rewrite !node_named_emit, Hnr. }
  destruct (long_dict_ok _ _ _ _ Hn2) as [imported_dict Hd1].
  destruct (long_dict_ok _ _ _ _ Hr2) as [rig_dict Hd2].
  pose proof (long_dict_values _ _ _ _ Hd1) as Hv1.
  pose proof (long_dict_values _ _ _ _ Hd2) as Hv2.
  rewrite (bind_ok _ _ _ _ _ Hd1), (bind_ok _ _ _ _ _ Hd2).
  assert (Hcount : cmds.keyframe_count imported_root None w2 = (Ok (cmds.count_all n), w2)).
  { unfold cmds.keyframe_count. by rewrite (bind_ok _ _ _ _ _ Hn2). }
  rewrite (bind_ok _ _ _ _ _ Hcount).
  (* the root motion, if any, lands on the rig root *)
  assert (Hroot : ∃ w_mid,
    (if 0 <? cmds.count_all n then
       print "Transferring root motion..." ;;;
       cmds.copyKey imported_root None ;;;
       cmds.pasteKey rig_root None
     else ret tt) w2 = (Ok tt, w_mid) ∧
    shape (w_scene w_mid) = shape (w_scene w) ∧
    ∀ j, ¬ P j → w_scene w_mid !! j = w_scene w !! j).
  { destruct (0 <? cmds.count_all n) eqn:Hpos; [|by exists w2].
    apply Nat.ltb_lt in Hpos.
    set (keyed := filter (λ kv : string * curve, kv.2 ≠ []) (n_curves n)).
    rewrite bind_print. set (w3 := emit _ w2).
    assert (Hn3 : cmds.node_named imported_root w3 = (Ok (i, n), w3)).
    { unfold w3. by rewrite node_named_emit, Hn2. }
    assert (Hcopy : cmds.copyKey imported_root None w3 = (Ok tt, set_clipboard keyed w3)).
    { unfold cmds.copyKey. by rewrite (bind_ok _ _ _ _ _ Hn3). }
    rewrite (bind_ok _ _ _ _ _ Hcopy).
    assert (Hr4 : cmds.node_named rig_root (set_clipboard keyed w3)
                  = (Ok (r, nr), set_clipboard keyed w3)).
    { rewrite (node_named_scene _ w) by done. by rewrite Hnr. }
    unfold cmds.pasteKey. rewrite (bind_ok _ _ _ _ _ Hr4), bind_gets.
    cbn [w_clipboard set_clipboard fst snd].
    rewrite decide_False by (by apply count_all_keyed).
    eexists. split; [reflexivity|]. simpl. split.
    - by apply (shape_insert _ _ nr).
    - intros j Hj. apply list_lookup_insert_ne. intros <-. apply Hj. by exists nr. }
  destruct Hroot as (w_mid & Hroot & Hshape & Hframe).
  rewrite (bind_ok _ _ _ _ _ Hroot).
  destruct (count_loop_frame P imported_dict rig_dict 0 w_mid)
    as (k & w' & Hloop & _ & Hframe').
  { intros kv rj Hkv Hget. apply (resolves_pair_shape (w_scene w)); [done|].
    by apply (matched_in_rig _ imported_root rig_root i n r nr imported_dict rig_dict). }
  rewrite (bind_ok _ _ _ _ _ Hloop). eexists. split; [reflexivity|].
  intros j Hj. cbn [w_scene emit]. by rewrite Hframe', Hframe.
Qed.

(** X4.  On a scene with distinct long names, with both root names denoting one
    node each, [transfer_animation] does not raise, and every node that is not
    at or below the rig root is afterwards exactly as it was: root motion and
    the matched channels all land in the rig's hierarchy. *)
Theorem transfer_animation_writes_rig_only `{Host} (w : world)
    (imported_root rig_root : string) (i r : nat) (n nr : node) :
  NoDup (full <$> w_scene w) →
  cmds.resolve (w_scene w) imported_root = Ok i → w_scene w !! i = Some n →
  cmds.resolve (w_scene w) rig_root = Ok r → w_scene w !! r = Some nr →
  let run := transfer_animation imported_root rig_root w in
  run.1 = Ok tt ∧
  ∀ j m, w_scene w !! j = Some m → ¬ n_path nr `prefix_of` n_path m →
         w_scene run.2 !! j = Some m.
Proof.
  intros Hnd Hres Hi Hresr Hr run. subst run.
  destruct (transfer_animation_rig_frame w imported_root rig_root i r n nr
              Hnd Hres Hi Hresr Hr) as (w' & -> & Hframe).
  split; [done|].
  intros j m Hj Hout. cbn [snd]. rewrite Hframe; [done|].
  intros (m' & Hm' & Hpre). by simplify_eq.
Qed.

Lemma transfers_write_rig_only_scene :
  NoDup (full <$> (rig_a ++ rig_b ++ walk_skeleton)).
Proof. apply (bool_decide_unpack _). by vm_compute. Qed.

Lemma transfer_animation_writes_rig_only_witness :
  let w := world_of (rig_a ++ rig_b ++ walk_skeleton) in
  let run := transfer_animation (H := sample_host) "Root" "A:Root" w in
  run.1 = Ok tt ∧
  w_scene run.2 !! 5 = w_scene w !! 5 ∧ w_scene run.2 !! 8 = w_scene w !! 8 ∧
  chan run.2 0 "translateX" = two_keys.
Proof.
  intros w run.
  destruct (w_scene w !! 6) as [n|] eqn:H6; [|discriminate].
  destruct (w_scene w !! 0) as [nr|] eqn:H0; [|discriminate].
  destruct (transfer_animation_writes_rig_only (H := sample_host) w "Root" "A:Root" 6 0 n nr
              transfers_write_rig_only_scene eq_refl H6 eq_refl H0) as [Hok Hframe].
  injection H0 as <-.
  split_and!; [exact Hok | | | reflexivity].
  - apply (Hframe 5); [reflexivity|]. apply (bool_decide_unpack _). by vm_compute.
  - apply (Hframe 8); [reflexivity|]. apply (bool_decide_unpack _). by vm_compute.
Defined.

Lemma ignore_namespace_writes_target_only_witness :
  let w := world_of (rig_a ++ rig_b ++ walk_skeleton) in
  let run := transfer_animation_ignore_namespace (H := sample_host) "A:Root" "B:Root" w in
  run.1 = Ok tt ∧
  w_scene run.2 !! 2 = w_scene w !! 2 ∧ w_scene run.2 !! 8 = w_scene w !! 8 ∧
  chan run.2 5 "translateX" = two_keys.
Proof.
  intros w run.
  destruct (w_scene w !! 0) as [n|] eqn:H0; [|discriminate].
  destruct (w_scene w !! 3) as [nr|] eqn:H3; [|discriminate].
  destruct (ignore_namespace_writes_target_only (H := sample_host) w "A:Root" "B:Root" 0 3 n nr
              transfers_write_rig_only_scene eq_refl H0 eq_refl H3) as [Hok Hframe].
  injection H3 as <-.
  split_and!; [exact Hok | | | reflexivity].
  - apply (Hframe 2); [reflexivity|]. apply (bool_decide_unpack _). by vm_compute.
  - apply (Hframe 8); [reflexivity|]. apply (bool_decide_unpack _). by vm_compute.
Defined.

(** ** What a matched joint receives *)

(** The curves of a destination after the inner loop: a tracked attribute
    that is keyed on the source has been pasted, the others are as before. *)
Lemma pair_node_curve `{Host} src dst a :
  curve_at (pair_node src dst) a =
    if decide (a ∈ tracked ∧ curve_at src a ≠ [])
    then paste_replace (curve_at src a) (curve_at dst a)
    else curve_at dst a.
Proof.
  unfold pair_node, curve_at at 1. rewrite (fold_paste_lookup _ _ _ _ tracked_NoDup).
  by case_decide.
Qed.

(** X7.  One matched pair whose names resolve: the inner loop leaves on the
    destination joint, for each of the six tracked attributes that is keyed on
    the source joint, the source curve pasted with [option="replace"]; every
    other attribute of the destination and every other node are as before. *)
Theorem pair_receives_keyed_channels `{Host} (w : world) (imported_joint rig_joint : string)
    (i r : nat) (n nr : node) :
  cmds.resolve (w_scene w) imported_joint = Ok i → w_scene w !! i = Some n →
  cmds.resolve (w_scene w) rig_joint = Ok r → w_scene w !! r = Some nr →
  let run := transfer_channels imported_joint rig_joint w in
  (∀ a, chan run.2 r a =
        if decide (a ∈ tracked ∧ curve_at n a ≠ [])
        then paste_replace (curve_at n a) (curve_at nr a)
        else curve_at nr a) ∧
  ∀ j, j ≠ r → w_scene run.2 !! j = w_scene w !! j.
Proof.
  intros Hres Hi Hresr Hr run. subst run.
  destruct (transfer_channels_pair _ _ i r w Hres Hresr) as (k & w' & -> & Hscene);
    [by exists n | by exists nr |].
  cbn [snd]. rewrite Hscene. split.
  - intros a. unfold chan. rewrite Hscene, (apply_pair_target _ _ _ n nr Hi Hr). simpl.
    apply pair_node_curve.
  - intros j Hj. by apply apply_pair_other.
Qed.

Lemma pair_receives_keyed_channels_witness :
  let w := sample_world in
  let run := transfer_channels (H := sample_host)
               "|A:Root|A:Spine|A:Hand" "|B:Root|B:Spine|B:Hand" w in
  cmds.resolve (w_scene w) "|A:Root|A:Spine|A:Hand" = Ok 2 ∧
  cmds.resolve (w_scene w) "|B:Root|B:Spine|B:Hand" = Ok 5 ∧
  chan run.2 5 "translateX" = two_keys ∧ chan run.2 5 "rotateZ" = [(5, 5)%Z] ∧
  w_scene run.2 !! 2 = w_scene w !! 2.
Proof.
  intros w run.
  assert (H1 : cmds.resolve (w_scene w) "|A:Root|A:Spine|A:Hand" = Ok 2) by reflexivity.
  assert (H2 : cmds.resolve (w_scene w) "|B:Root|B:Spine|B:Hand" = Ok 5) by reflexivity.
  destruct (pair_receives_keyed_channels (H := sample_host) w
              "|A:Root|A:Spine|A:Hand" "|B:Root|B:Spine|B:Hand" 2 5 _ _
              H1 eq_refl H2 eq_refl) as [Hchan Hother].
  split_and!; [done | done | | |].
  - subst run. rewrite Hchan. reflexivity.
  - subst run. rewrite Hchan. reflexivity.
  - apply Hother. lia.
Defined.

Lemma Forall2_elem_l {A B} (R : A → B → Prop) l k a :
  Forall2 R l k → a ∈ l → ∃ b, b ∈ k ∧ R a b.
Proof.
  induction 1 as [|a' b l k Hab Hall IH]; intros Ha; [by apply elem_of_nil in Ha|].
  apply elem_of_cons in Ha as [->|Ha].
  - exists b. split; [left | done].
  - destruct (IH Ha) as (b' & Hb' & HR). exists b'. split; [by right | done].
Qed.

(** X9.  On a scene with distinct long names, for two hierarchies that share no
    node, [transfer_animation_ignore_namespace] leaves each matched destination
    joint as the inner loop makes it from the source joint it is matched with
    (every keyed tracked channel of the source pasted on it), and leaves the
    source joints as they were. *)
Theorem ignore_namespace_transfers_matched `{Host} (w : world)
    (source_root target_root : string) (i_s i_t : nat) (n_s n_t : node) :
  let s := w_scene w in
  let run := transfer_animation_ignore_namespace source_root target_root w in
  NoDup (full <$> s) →
  cmds.resolve s source_root = Ok i_s → s !! i_s = Some n_s →
  cmds.resolve s target_root = Ok i_t → s !! i_t = Some n_t →
  apart s n_s n_t →
  ∀ imported_joint rig_joint,
    (imported_joint, rig_joint) ∈
      matched_pairs (namespace_dict (descendant_names s n_s ++ [source_root]))
                    (namespace_dict (descendant_names s n_t ++ [target_root])) →
    ∃ i r n nr,
      cmds.resolve s imported_joint = Ok i ∧ s !! i = Some n ∧
      cmds.resolve s rig_joint = Ok r ∧ s !! r = Some nr ∧
      w_scene run.2 !! i = Some n ∧
      w_scene run.2 !! r = Some (pair_node n nr) ∧
      ∀ a, curve_at (pair_node n nr) a =
           if decide (a ∈ tracked ∧ curve_at n a ≠ [])
           then paste_replace (curve_at n a) (curve_at nr a)
           else curve_at nr a.
Proof.
  intros s run Hwf Hrs His Hrt Hit Hapart ij rj Hpair. subst run.
  pose proof (node_named_ok _ _ _ _ Hrs His) as Hs.
  pose proof (node_named_ok _ _ _ _ Hrt Hit) as Ht.
  set (sps := matched_pairs
                (namespace_dict (descendant_names s n_s ++ [source_root]))
                (namespace_dict (descendant_names s n_t ++ [target_root]))) in *.
  destruct (Forall2_exists
    (λ (sp : string * string) (p : nat * nat),
       in_traversal s source_root n_s sp.1 p.1 ∧ in_traversal s target_root n_t sp.2 p.2) sps)
    as [ps Hps].
  { intros [x y] Hin. apply matched_pairs_elem in Hin as [Hx Hy].
    destruct (traversal_resolves s source_root i_s n_s x Hwf Hrs His Hx) as [i Hi].
    destruct (traversal_resolves s target_root i_t n_t y Hwf Hrt Hit Hy) as [r Hr].
    by exists (i, r). }
  assert (Hres : Forall2 (resolves s) sps ps).
  { eapply Forall2_impl; [exact Hps|]. intros sp p [(H1 & m & Hm & _) (H2 & m' & Hm' & _)].
    unfold resolves. split_and!; [done | done | by exists m | by exists m']. }
  assert (Hnd : NoDup ps.*2).
  { eapply (Forall2_NoDup_2 (in_traversal s target_root n_t)).
    - eapply Forall2_impl; [exact Hps|]. by intros sp p [_ ?].
    - intros a a' b. apply in_traversal_inj.
    - apply matched_pairs_NoDup. }
  destruct (pairs_loop_run sps ps w Hres) as (w1 & Hloop & Hscene).
  assert (Hrun : transfer_animation_ignore_namespace source_root target_root w
                 = (Ok tt, emit (Stdout "Animation successfully transferred to target rig!") w1)).
  { rewrite (ignore_namespace_run _ _ _ _ _ _ _ Hs Ht). fold s. fold sps.
    by rewrite (bind_ok _ _ _ _ _ Hloop). }
  rewrite Hrun. cbn [snd w_scene emit]. rewrite Hscene. fold s.
  (* no source is a destination *)
  assert (Hsrc : ∀ p, p ∈ ps → apply_pairs ps s !! p.1 = s !! p.1).
  { intros p Hp. apply apply_pairs_other. intros Hin.
    apply list_elem_of_fmap in Hin as (q & Heq & Hq).
    destruct (Forall2_elem_r _ _ _ _ Hps Hp) as (sp & _ & (_ & m & Hm & Hpre & _) & _).
    destruct (Forall2_elem_r _ _ _ _ Hps Hq) as (sq & _ & _ & (_ & m' & Hm' & Hpre' & _)).
    rewrite <- Heq in Hm'. assert (m' = m) as -> by congruence.
    apply (Hapart m); [by eapply list_elem_of_lookup_2 | done | done]. }
  destruct (Forall2_elem_l _ _ _ _ Hps Hpair) as ([i r] & Hp & (Hi & n & Hn & _) & (Hr & nr & Hnr & _)).
  cbn [fst snd] in *.
  exists i, r, n, nr. split_and!; try done.
  - pose proof (Hsrc (i, r) Hp) as Hkept. cbn [fst] in Hkept. by rewrite Hkept.
  - by apply (apply_pairs_target ps s i r n nr).
  - intros a. apply pair_node_curve.
Qed.

Lemma ignore_namespace_transfers_matched_witness :
  let w := sample_world in
  let run := transfer_animation_ignore_namespace (H := sample_host) "A:Root" "B:Root" w in
  let n_s := joint ["A:Root"] "a0" [] in
  let n_t := joint ["B:Root"] "b0" [] in
  NoDup (full <$> w_scene w) ∧
  w_scene w !! 0 = Some n_s ∧ w_scene w !! 3 = Some n_t ∧ apart (w_scene w) n_s n_t ∧
  chan run.2 5 "translateX" = two_keys ∧
  w_scene run.2 !! 2 = w_scene w !! 2.
Proof.
  intros w run n_s n_t.
  assert (Hwf : NoDup (full <$> w_scene w)).
  { apply (bool_decide_unpack _). by vm_compute. }
  assert (Hapart : apart (w_scene w) n_s n_t).
  { assert (Hdec : Forall (λ m, bool_decide (n_path n_s `prefix_of` n_path m)
                                && bool_decide (n_path n_t `prefix_of` n_path m) = false)
                     (w_scene w)) by (repeat constructor).
    intros m Hm H1 H2. rewrite Forall_forall in Hdec. specialize (Hdec m Hm).
    rewrite !bool_decide_eq_true_2 in Hdec by done. discriminate. }
  assert (Hpair : ("|A:Root|A:Spine|A:Hand", "|B:Root|B:Spine|B:Hand") ∈
            matched_pairs
              (namespace_dict (descendant_names (w_scene w) n_s ++ ["A:Root"]))
              (namespace_dict (descendant_names (w_scene w) n_t ++ ["B:Root"]))).
  { apply (bool_decide_unpack _). by vm_compute. }
  destruct (ignore_namespace_transfers_matched (H := sample_host) w "A:Root" "B:Root" 0 3
              n_s n_t Hwf eq_refl eq_refl eq_refl eq_refl Hapart _ _ Hpair)
    as (i & r & n & nr & Hi & Hn & Hr & Hnr & Hsrc & Hdst & _).
  vm_compute in Hi. injection Hi as <-. vm_compute in Hr. injection Hr as <-.
  split_and!; [done | done | done | done | | ].
  - subst run. unfold chan. rewrite Hdst. injection Hn as <-. injection Hnr as <-. reflexivity.
  - subst run. rewrite Hsrc. by rewrite Hn.
Defined.

(** ** One file of the batch *)

Lemma shape_skeleton s : shape (skeleton s) = shape s.
Proof. unfold shape, skeleton. rewrite <- list_fmap_compose. by apply list_fmap_ext. Qed.

Lemma skeleton_shape s s' : skeleton s' = skeleton s → shape s' = shape s.
Proof. intros Hs. by rewrite <- (shape_skeleton s'), Hs, shape_skeleton. Qed.

Lemma full_shape s : full <$> s = (λ x, render x.1.1) <$> shape s.
Proof. unfold shape. rewrite <- list_fmap_compose. by apply list_fmap_ext. Qed.

Lemma paths_shape s : n_path <$> s = (λ x, x.1.1) <$> shape s.
Proof. unfold shape. rewrite <- list_fmap_compose. by apply list_fmap_ext. Qed.

Lemma scene_ok_shape s s' : shape s' = shape s → scene_ok s → scene_ok s'.
Proof.
  intros Hs [Hnd Hok]. split.
  - by rewrite full_shape, Hs, <- full_shape.
  - change (Forall (path_ok ∘ n_path) s'). change (Forall (path_ok ∘ n_path) s) in Hok.
    apply Forall_fmap. apply Forall_fmap in Hok.
    by rewrite paths_shape, Hs, <- paths_shape.
Qed.

Lemma resolve_is_Some s x i : cmds.resolve s x = Ok i → is_Some (s !! i).
Proof.
  intros Hres. apply (matching_valid s x). rewrite (resolve_matching _ _ _ Hres). left.
Qed.

(** On a well-formed scene the names [ls] printed for nodes of the scene can
    be selected. *)
Lemma select_listed (ms : list node) w :
  scene_ok (w_scene w) → (∀ m, m ∈ ms → m ∈ w_scene w) →
  (cmds.select (cmds.short_name (w_scene w) <$> ms) w).1 = Ok tt.
Proof.
  intros Hok Hin. unfold cmds.select.
  assert (Hfor : for_ (cmds.short_name (w_scene w) <$> ms)
                   (λ x, bind (cmds.node_named x) (λ _, ret tt)) w = (Ok tt, w)).
  { induction ms as [|m ms IH]; [done|]. rewrite fmap_cons. cbn [for_].
    assert (Hm : m ∈ w_scene w) by (apply Hin; left).
    apply list_elem_of_lookup_1 in Hm as [i Hi].
    rewrite (bind_ok _ _ _ _ _ (bind_ok _ _ _ _ _
               (node_named_ok _ _ _ _ (short_name_resolves _ _ _ Hok Hi) Hi))).
    apply IH. intros m' Hm'. apply Hin. by right. }
  by rewrite (bind_ok _ _ _ _ _ Hfor).
Qed.

Lemma ls_dag_joints_listed x w :
  ∃ ms, cmds.ls_dag_joints x w = (Ok (cmds.short_name (w_scene w) <$> ms), w) ∧
        ∀ m, m ∈ ms → m ∈ w_scene w.
Proof.
  eexists. split; [reflexivity|]. intros m Hm.
  apply list_elem_of_bind in Hm as (r & Hm & Hr).
  apply elem_of_app in Hm as [Hm|Hm].
  - destruct (n_joint r); [|by apply elem_of_nil in Hm].
    apply list_elem_of_singleton in Hm as ->.
    rewrite matching_nodes_filter in Hr. by apply list_elem_of_filter in Hr as [_ ?].
  - by apply list_elem_of_filter in Hm as [_ ?].
Qed.

(** The export returns on a well-formed scene with the plug-in at hand. *)
Lemma export_returns `{Host} w rig_root folder name prefix suffix :
  scene_ok (w_scene w) → w_fbx_loaded w = true →
  ∃ w', export_fbx_animation rig_root folder name prefix suffix w = (Ok tt, w').
Proof.
  intros Hok Hl.
  pose proof (export_catches w rig_root folder name prefix suffix (or_introl Hl)) as Hex.
  destruct (export_fbx_animation rig_root folder name prefix suffix w) as [[[]|e] w'] eqn:Hrun.
  - by exists w'.
  - exfalso. simpl in Hex. enough (Raise e = Ok tt) by done. apply Hex.
    intros js Hjs. destruct (ls_dag_joints_listed rig_root w) as (ms & Hms & Hin).
    rewrite Hms in Hjs. injection Hjs as <-. by apply select_listed.
Qed.

(** The stages of one file on a well-formed scene: the import returns; when
    it returns no root the file is skipped; otherwise both transfers return,
    leaving the file system, the plug-in and the shape of the scene as they
    were, the export returns, and the cleanup ends the run. *)
Lemma process_file_stages `{Host} (w : world)
    (source_folder export_folder source_rig_root target_rig_root prefix suffix fbx_file : string)
    (nodes : list node) (i_s i_t : nat) :
  let fbx_file_path := PyStr.replace "\" "/" (os.path_join source_folder fbx_file) in
  let s1 := w_scene w ++ nodes in
  let w0 := emit (Stdout ("Processing: " +:+ fbx_file_path)) w in
  (∀ l, set_order l ≡ₚ l) →
  w_fbx_loaded w = true →
  mel.lookup_file (w_fs w) fbx_file_path = Some (Some nodes) →
  scene_ok s1 →
  cmds.resolve s1 source_rig_root = Ok i_s →
  cmds.resolve s1 target_rig_root = Ok i_t →
  ∃ ro w1, import_fbx_animation fbx_file_path w0 = (Ok ro, w1) ∧
    match ro with
    | None =>
        process_file source_folder export_folder source_rig_root target_rig_root
          prefix suffix fbx_file w
        = print ("Skipping " +:+ fbx_file +:+ ": No imported skeleton found.") w1
    | Some root =>
        ∃ w3 w4,
          w_fs w3 = w_fs w ∧ w_fbx_loaded w3 = true ∧ shape (w_scene w3) = shape s1 ∧
          export_fbx_animation target_rig_root export_folder (PyStr.splitext fbx_file).1
            (Some prefix) (Some suffix) w3 = (Ok tt, w4) ∧
          process_file source_folder export_folder source_rig_root target_rig_root
            prefix suffix fbx_file w
          = delete_imported_skeleton w4
    end.
Proof.
  intros path s1 w0 Hperm Hl Hfile Hok Hsrc Htgt.
  destruct (import_run w0 path nodes Hperm Hl Hfile Hok)
    as (ro & w1 & Himport & Hs1 & [Hfs1 Hl1] & Hro).
  exists ro, w1. split; [done|].
  unfold process_file. fold path. cbv zeta. rewrite bind_print. fold w0.
  rewrite (bind_ok _ _ _ _ _ Himport).
  destruct ro as [root|]; [|done].
  destruct Hro as (Hne & _ & i & n & Hres & Hi & _).
  assert (Ht : truthy (Some root) = true) by (simpl; by rewrite bool_decide_eq_false_2).
  rewrite Ht. change (default "" (Some root)) with root.
  cbn [w_scene emit w0] in Hs1, Hres, Hi. fold s1 in Hs1, Hres, Hi.
  (* imported skeleton to source rig *)
  destruct (resolve_is_Some _ _ _ Hsrc) as [n_s His].
  destruct (resolve_is_Some _ _ _ Htgt) as [n_t Hit].
  rewrite <- Hs1 in Hres, Hi, Hsrc, His, Htgt, Hit, Hok.
  destruct (transfer_animation_rig_frame w1 root source_rig_root i i_s n n_s
              (proj1 Hok) Hres Hi Hsrc His) as (w2 & Hrun2 & _).
  destruct (keys_only_transfer_animation _ _ _ _ _ Hrun2) as (Hsk2 & Hfs2 & _ & _ & Hl2 & _).
  apply skeleton_shape in Hsk2.
  rewrite (bind_ok _ _ _ _ _ Hrun2).
  (* source rig to target rig *)
  rewrite <- (resolve_shape _ _ source_rig_root Hsk2) in Hsrc.
  rewrite <- (resolve_shape _ _ target_rig_root Hsk2) in Htgt.
  apply (scene_ok_shape _ _ Hsk2) in Hok.
  destruct (resolve_is_Some _ _ _ Hsrc) as [n_s2 His2].
  destruct (resolve_is_Some _ _ _ Htgt) as [n_t2 Hit2].
  destruct (ignore_namespace_rig_frame w2 source_rig_root target_rig_root i_s i_t n_s2 n_t2
              (proj1 Hok) Hsrc His2 Htgt Hit2) as (w3 & Hrun3 & _).
  destruct (keys_only_ignore_namespace _ _ _ _ _ Hrun3) as (Hsk3 & Hfs3 & _ & _ & Hl3 & _).
  apply skeleton_shape in Hsk3.
  rewrite (bind_ok _ _ _ _ _ Hrun3).
  (* export *)
  apply (scene_ok_shape _ _ Hsk3) in Hok.
  destruct (export_returns w3 target_rig_root export_folder (PyStr.splitext fbx_file).1
              (Some prefix) (Some suffix) Hok) as (w4 & Hrun4); [congruence|].
  rewrite (bind_ok _ _ _ _ _ Hrun4).
  unfold w0 in Hfs1. cbn [w_fs emit] in Hfs1.
  exists w3, w4. split_and!; [congruence | congruence | congruence | done | done].
Qed.

(** X18.  When the plug-in is loaded, the file can be read, the scene with the
    nodes of the file has distinct, well-formed long names and both rig roots
    denote one node each, the processing of the file goes through all its
    stages without raising: the batch reaches the next file. *)
Theorem process_file_completes `{Host} (w : world)
    (source_folder export_folder source_rig_root target_rig_root prefix suffix fbx_file : string)
    (nodes : list node) (i_s i_t : nat) :
  let fbx_file_path := PyStr.replace "\" "/" (os.path_join source_folder fbx_file) in
  let s1 := w_scene w ++ nodes in
  (∀ l, set_order l ≡ₚ l) →
  w_fbx_loaded w = true →
  mel.lookup_file (w_fs w) fbx_file_path = Some (Some nodes) →
  scene_ok s1 →
  cmds.resolve s1 source_rig_root = Ok i_s →
  cmds.resolve s1 target_rig_root = Ok i_t →
  (process_file source_folder export_folder source_rig_root target_rig_root
     prefix suffix fbx_file w).1 = Ok tt.
Proof.
  intros path s1 Hperm Hl Hfile Hok Hsrc Htgt.
  destruct (process_file_stages w source_folder export_folder source_rig_root target_rig_root
              prefix suffix fbx_file nodes i_s i_t Hperm Hl Hfile Hok Hsrc Htgt)
    as (ro & w1 & _ & Hrun).
  destruct ro as [root|].
  - destruct Hrun as (w3 & w4 & _ & _ & _ & _ & ->). apply delete_imported_skeleton_ok.
  - by rewrite Hrun.
Qed.

Lemma process_file_completes_witness :
  let s1 := w_scene sample_world ++ walk_skeleton in
  scene_ok s1 ∧
  cmds.resolve s1 "A:Root" = Ok 0 ∧ cmds.resolve s1 "B:Root" = Ok 3 ∧
  (process_file (H := sample_host) "/in" "/out" "A:Root" "B:Root" "Anim_" "_Final"
     "Walk.fbx" sample_world).1 = Ok tt.
Proof.
  intros s1.
  assert (Hperm : ∀ l, @set_order sample_host l ≡ₚ l) by done.
  assert (Hok : scene_ok s1).
  { split; [apply (bool_decide_unpack _); by vm_compute|].
    repeat (apply Forall_cons; split; [split; [done|]; repeat constructor; done|]).
    apply Forall_nil_2. }
  assert (Hsrc : cmds.resolve s1 "A:Root" = Ok 0) by reflexivity.
  assert (Htgt : cmds.resolve s1 "B:Root" = Ok 3) by reflexivity.
  split_and!; [done | done | done |].
  apply (process_file_completes (H := sample_host) sample_world "/in" "/out" "A:Root" "B:Root"
           "Anim_" "_Final" "Walk.fbx" walk_skeleton 0 3 Hperm eq_refl eq_refl Hok Hsrc Htgt).
Defined.

(** X17.  A readable file that brings no joint is skipped: nothing is
    transferred, exported or deleted, the id list is empty, and the nodes the
    file added stay in the scene (the cleanup runs only after an import that
    returned a root).  The names listed for the joints of the scene are assumed
    to be the same before and after the import. *)
Theorem jointless_file_is_left `{Host} (w : world)
    (source_folder export_folder source_rig_root target_rig_root prefix suffix fbx_file : string)
    (nodes : list node) :
  let fbx_file_path := PyStr.replace "\" "/" (os.path_join source_folder fbx_file) in
  let s := w_scene w in
  let s1 := s ++ nodes in
  let run := process_file source_folder export_folder source_rig_root target_rig_root
               prefix suffix fbx_file w in
  (∀ l, set_order l ≡ₚ l) →
  w_fbx_loaded w = true →
  mel.lookup_file (w_fs w) fbx_file_path = Some (Some nodes) →
  scene_ok s1 →
  (∀ m, m ∈ nodes → n_joint m = false) →
  (∀ m, m ∈ s → n_joint m = true → cmds.short_name s1 m = cmds.short_name s m) →
  run.1 = Ok tt ∧ w_scene run.2 = s1 ∧ imported_joint_uuids run.2 = [] ∧
  w_fs run.2 = w_fs w ∧
  Stdout ("Skipping " +:+ fbx_file +:+ ": No imported skeleton found.") ∈ w_out run.2.
Proof.
  intros path s s1 run Hperm Hl Hfile Hok Hnone Hstable. subst run.
  unfold process_file. fold path. cbv zeta. rewrite bind_print.
  set (w0 := emit _ w).
  destruct (import_run w0 path nodes Hperm Hl Hfile Hok)
    as (ro & w1 & Himport & Hs1 & [Hfs _] & Hro).
  rewrite (bind_ok _ _ _ _ _ Himport).
  destruct ro as [root|].
  - exfalso. destruct Hro as (_ & Hbefore & i & n & _ & Hi & Hjoint & _ & Hname & _).
    cbn [w_scene emit w0] in Hi, Hname. fold s s1 in Hi, Hname.
    apply (Hbefore (cmds.short_name s <$> filter (λ n, n_joint n = true) s)); [done|].
    apply list_elem_of_lookup_2 in Hi. apply elem_of_app in Hi as [Hold|Hnew].
    + rewrite Hname, (Hstable n Hold Hjoint). apply list_elem_of_fmap_2.
      by apply list_elem_of_filter.
    + by rewrite (Hnone n Hnew) in Hjoint.
  - cbn [truthy]. unfold print, modify. cbn [fst snd emit w_scene imported_joint_uuids w_fs w_out].
    split_and!; [done | done | done | done | left].
Qed.

Lemma jointless_file_is_left_witness :
  let camera := Node ["Camera"] false "c0" false false ∅ in
  let w := set_fs (Fs ["/in"] [("/in/Cam.fbx", Some [camera])] []) sample_world in
  let run := process_file (H := sample_host) "/in" "/out" "A:Root" "B:Root" "Anim_" "_Final"
               "Cam.fbx" w in
  scene_ok (w_scene w ++ [camera]) ∧
  run.1 = Ok tt ∧ w_scene run.2 = rig_a ++ rig_b ++ [camera] ∧ w_fs run.2 = w_fs w.
Proof.
  intros camera w run.
  assert (Hperm : ∀ l, @set_order sample_host l ≡ₚ l) by done.
  assert (Hok : scene_ok (w_scene w ++ [camera])).
  { split; [apply (bool_decide_unpack _); by vm_compute|].
    repeat (apply Forall_cons; split; [split; [done|]; repeat constructor; done|]).
    apply Forall_nil_2. }
  assert (Hnone : ∀ m, m ∈ [camera] → n_joint m = false).
  { intros m Hm. by apply list_elem_of_singleton in Hm as ->. }
  assert (Hstable : ∀ m, m ∈ w_scene w → n_joint m = true →
            cmds.short_name (w_scene w ++ [camera]) m = cmds.short_name (w_scene w) m).
  { intros m Hm _. repeat (apply elem_of_cons in Hm as [->|Hm]; [reflexivity|]).
    by apply elem_of_nil in Hm. }
  destruct (jointless_file_is_left (H := sample_host) w "/in" "/out" "A:Root" "B:Root"
              "Anim_" "_Final" "Cam.fbx" [camera] Hperm eq_refl eq_refl Hok Hnone Hstable)
    as (H1 & H2 & _ & H4 & _).
  split_and!; [done | exact H1 | exact H2 | exact H4].
Defined.

(** ** The file a job writes *)

(** An export that gets through: the file at the output path is written and
    the other files stay. *)
Lemma export_writes `{Host} w rig_root folder name prefix suffix js :
  let fs := w_fs w in
  let dir := abspath folder in
  let missing := filter (λ d, d ∉ fs_dirs fs) (os.ancestors dir) in
  let out := output_path dir name (default "" prefix) (default "" suffix) in
  cmds.matching (w_scene w) rig_root ≠ [] →
  cmds.ls_dag_joints rig_root w = (Ok js, w) → js ≠ [] →
  cmds.select js w = (Ok tt, set_selection js w) →
  w_fbx_loaded w = true →
  (dir ∈ fs_dirs fs ∨ dir ∈ (fs_files fs).*1) ∨
    ¬ Exists (λ d, d ∈ fs_denied fs) (missing ++ [dir]) →
  out ∉ fs_denied fs →
  ∃ w', export_fbx_animation rig_root folder name prefix suffix w = (Ok tt, w') ∧
        fs_files (w_fs w')
          = (out, Some (js ≫= cmds.matching_nodes (w_scene w)))
              :: filter (λ e, e.1 ≠ out) (fs_files fs).
Proof.
  intros fs dir missing out Hroot Hjs Hne Hsel Hl Hdir Hout.
  rewrite (export_selected _ _ _ _ _ _ _ Hroot Hjs Hne Hsel). fold dir. fold out.
  case_bool_decide as Hex; cbn [negb].
  - rewrite bind_ret. cbn [negb]. rewrite bind_print.
    destruct (export_selection_run out
                (emit (Stdout ("Exporting: " +:+ out)) (set_selection js w)) (or_introl Hl))
      as [opts Hrun].
    rewrite Hrun. cbn [w_fs emit set_selection]. rewrite decide_False by done.
    eexists. split; [reflexivity|]. done.
  - destruct Hdir as [?|Hdir]; [done|].
    pose proof (makedirs_run dir (set_selection js w)) as Hmk.
    cbn [w_fs set_selection] in Hmk. fold fs in Hmk. fold missing in Hmk.
    rewrite decide_False in Hmk by done. rewrite decide_False in Hmk by done.
    rewrite (bind_ok _ _ _ _ _ (try_except_ok _ _ _ _ _ (bind_ok _ _ _ _ _ Hmk))).
    cbn [negb]. rewrite bind_print.
    destruct (export_selection_run out
      (emit (Stdout ("Exporting: " +:+ out))
         (set_fs (Fs (fs_dirs fs ++ missing ++ [dir]) (fs_files fs) (fs_denied fs))
            (set_selection js w))) (or_introl Hl)) as [opts Hrun].
    rewrite Hrun. cbn [w_fs emit set_selection set_fs fs_denied].
    rewrite decide_False by done. eexists. split; [reflexivity|]. done.
Qed.

Lemma fs_kept_trans w1 w2 w3 : w_fs w2 = w_fs w1 → w_fs w3 = w_fs w2 → w_fs w3 = w_fs w1.
Proof. congruence. Qed.

(** The cleanup does not touch the file system. *)
Lemma delete_keeps_fs : frames (λ w w', w_fs w' = w_fs w) delete_imported_skeleton.
Proof.
  set (R := λ w w' : world, w_fs w' = w_fs w).
  assert (Hrefl : ∀ w, R w w) by done.
  assert (Htrans : ∀ w1 w2 w3, R w1 w2 → R w2 w3 → R w1 w3) by apply fs_kept_trans.
  assert (Hprint : ∀ s, frames R (print s)) by (intros s; by apply frame_modify).
  assert (Hwarn : ∀ s, frames R (cmds_warning s)) by (intros s; by apply frame_modify).
  unfold delete_imported_skeleton.
  apply (frame_bind _ Htrans); [apply Hprint|]. intros _.
  apply (frame_bind _ Htrans); [by apply frame_gets|]. intros [|u rest]; [apply Hwarn|].
  apply (frame_bind _ Htrans); [apply Hprint|]. intros _.
  apply (frame_bind _ Htrans); [apply Hprint|]. intros _.
  apply (frame_bind _ Htrans).
  2:{ intros [|]; [by apply frame_ret|].
      apply (frame_bind _ Htrans); [by apply frame_modify | intros _; apply Hprint]. }
  apply (frame_try _ Htrans).
  2:{ intros e. apply (frame_bind _ Htrans); [apply Hwarn | intros _; by apply frame_ret]. }
  unfold delete_root.
  apply (frame_bind _ Htrans); [by apply frame_gets|]. intros l.
  apply (frame_bind _ Htrans).
  { apply frame_pure; [done|]. intros w r w' Hf. by apply find_by_uuid_scene in Hf as [-> _]. }
  intros ro. destruct (negb (truthy ro)).
  { apply (frame_bind _ Htrans); [apply Hprint | intros _; by apply frame_ret]. }
  cbv zeta.
  apply (frame_bind _ Htrans); [apply Hprint|]. intros _.
  apply (frame_bind _ Htrans).
  { apply (frame_bind _ Htrans); [by apply frame_node_named | intros x; by apply frame_ret]. }
  intros locked.
  apply (frame_bind _ Htrans).
  { destruct locked as [|[|] ?]; [by apply frame_raise | | by apply frame_ret].
    apply (frame_bind _ Htrans); [apply Hprint|]. intros _.
    apply (frame_bind _ Htrans); [by apply frame_node_named|]. intros x. by apply frame_modify. }
  intros _.
  apply (frame_bind _ Htrans); [apply Hprint|]. intros _.
  apply (frame_bind _ Htrans).
  { apply (frame_bind _ Htrans); [by apply frame_node_named|]. intros x. cbv zeta.
    destruct (n_locked x.2); [by apply frame_raise|].
    destruct (n_readonly x.2); [apply Hwarn | by apply frame_modify]. }
  intros _.
  apply (frame_bind _ Htrans); [by apply frame_gets|]. intros e.
  apply (frame_bind _ Htrans); [destruct e; apply Hprint | intros _; by apply frame_ret].
Qed.

(** X19.  One file, end to end.  When the plug-in is loaded, the file can be
    read and its import returns a root, the scene with the nodes of the file
    has distinct, well-formed long names, the source rig root denotes one node
    and the target rig root one joint, and the export folder and the output
    path can be written, then the processing of the file returns normally and
    leaves the file system with the file at [abspath(export_folder)] joined
    with [<prefix><animation_name><suffix>.fbx] written and every other file as
    before. *)
Theorem process_file_writes_output `{Host} (w : world)
    (source_folder export_folder source_rig_root target_rig_root prefix suffix fbx_file : string)
    (nodes : list node) (i_s i_t : nat) (n_t : node) (root : string) :
  let fbx_file_path := PyStr.replace "\" "/" (os.path_join source_folder fbx_file) in
  let s1 := w_scene w ++ nodes in
  let fs := w_fs w in
  let dir := abspath export_folder in
  let missing := filter (λ d, d ∉ fs_dirs fs) (os.ancestors dir) in
  let out := output_path dir (PyStr.splitext fbx_file).1 prefix suffix in
  let run := process_file source_folder export_folder source_rig_root target_rig_root
               prefix suffix fbx_file w in
  (∀ l, set_order l ≡ₚ l) →
  w_fbx_loaded w = true →
  mel.lookup_file fs fbx_file_path = Some (Some nodes) →
  scene_ok s1 →
  cmds.resolve s1 source_rig_root = Ok i_s →
  cmds.resolve s1 target_rig_root = Ok i_t → s1 !! i_t = Some n_t → n_joint n_t = true →
  (dir ∈ fs_dirs fs ∨ dir ∈ (fs_files fs).*1) ∨
    ¬ Exists (λ d, d ∈ fs_denied fs) (missing ++ [dir]) →
  out ∉ fs_denied fs →
  (import_fbx_animation fbx_file_path (emit (Stdout ("Processing: " +:+ fbx_file_path)) w)).1
    = Ok (Some root) →
  run.1 = Ok tt ∧
  ∃ payload, fs_files (w_fs run.2)
             = (out, Some payload) :: filter (λ e, e.1 ≠ out) (fs_files fs).
Proof.
  intros path s1 fs dir missing out run Hperm Hl Hfile Hok Hsrc Htgt Hit Hjoint Hdir Hout Hroot.
  subst run.
  destruct (process_file_stages w source_folder export_folder source_rig_root target_rig_root
              prefix suffix fbx_file nodes i_s i_t Hperm Hl Hfile Hok Hsrc Htgt)
    as (ro & w1 & Himport & Hrun).
  fold path in Himport, Hroot. rewrite Himport in Hroot. injection Hroot as ->.
  destruct Hrun as (w3 & w4 & Hfs3 & Hl3 & Hshape & Hexport & ->).
  split; [apply delete_imported_skeleton_ok|].
  (* the export at the end of the transfers *)
  destruct (shape_lookup _ _ _ _ Hshape Hit) as (n_t3 & Hit3 & _ & _ & Hj3).
  unfold s1 in Htgt. rewrite <- (resolve_shape _ _ target_rig_root Hshape) in Htgt.
  apply (scene_ok_shape _ _ Hshape) in Hok.
  pose proof (ls_dag_joints_run target_rig_root w3 i_t n_t3 Htgt Hit3) as Hjs.
  rewrite Hj3 in Hjs. specialize (Hjs Hjoint).
  set (ms := n_t3 :: filter _ (w_scene w3)) in Hjs.
  assert (Hsel : cmds.select (cmds.short_name (w_scene w3) <$> ms) w3
                 = (Ok tt, set_selection (cmds.short_name (w_scene w3) <$> ms) w3)).
  { pose proof (select_listed ms w3 Hok) as Hs.
    destruct (select_run (cmds.short_name (w_scene w3) <$> ms) w3) as [?|[e He]]; [done|].
    rewrite He in Hs. exfalso. enough (Raise e = Ok tt) by done. apply Hs.
    intros m Hm. apply elem_of_cons in Hm as [->|Hm].
    - by apply (list_elem_of_lookup_2 _ i_t).
    - by apply list_elem_of_filter in Hm as [_ ?]. }
  destruct (export_writes w3 target_rig_root export_folder (PyStr.splitext fbx_file).1
              (Some prefix) (Some suffix) _ ltac:(by rewrite (resolve_matching _ _ _ Htgt))
              Hjs ltac:(done) Hsel Hl3) as (w4' & Hexport' & Hfiles).
  { rewrite Hfs3. exact Hdir. }
  { rewrite Hfs3. exact Hout. }
  rewrite Hexport in Hexport'. injection Hexport' as <-.
  destruct (delete_imported_skeleton w4) as [r w5] eqn:Hdel.
  cbn [snd]. rewrite (delete_keeps_fs _ _ _ Hdel), Hfiles, Hfs3.
  by eexists.
Qed.

Lemma process_file_writes_output_witness :
  let w := sample_world in
  let run := process_file (H := sample_host) "/in" "/out" "A:Root" "B:Root" "Anim_" "_Final"
               "Walk.fbx" w in
  scene_ok (w_scene w ++ walk_skeleton) ∧
  (import_fbx_animation (H := sample_host) "/in/Walk.fbx"
     (emit (Stdout "Processing: /in/Walk.fbx") w)).1 = Ok (Some "Root") ∧
  run.1 = Ok tt ∧
  (fs_files (w_fs run.2)).*1 = ["/out/Anim_Walk_Final.fbx"; "/in/Walk.fbx"; "/in/Run.fbx"].
Proof.
  intros w run.
  assert (Hperm : ∀ l, @set_order sample_host l ≡ₚ l) by done.
  assert (Hok : scene_ok (w_scene w ++ walk_skeleton)).
  { split; [apply (bool_decide_unpack _); by vm_compute|].
    repeat (apply Forall_cons; split; [split; [done|]; repeat constructor; done|]).
    apply Forall_nil_2. }
  assert (Hdir : ¬ Exists (λ d, d ∈ fs_denied (w_fs w))
      (filter (λ d, d ∉ fs_dirs (w_fs w)) (os.ancestors "/out") ++ ["/out"])).
  { intros Hex. apply Exists_exists in Hex as (d & _ & Hd). by apply elem_of_nil in Hd. }
  assert (Hroot : (import_fbx_animation (H := sample_host) "/in/Walk.fbx"
                     (emit (Stdout "Processing: /in/Walk.fbx") w)).1 = Ok (Some "Root"))
    by reflexivity.
  destruct (process_file_writes_output (H := sample_host) w "/in" "/out" "A:Root" "B:Root"
              "Anim_" "_Final" "Walk.fbx" walk_skeleton 0 3 _ "Root"
              Hperm eq_refl eq_refl Hok eq_refl eq_refl eq_refl eq_refl
              (or_intror Hdir) (not_elem_of_nil _) Hroot) as (Hrun & payload & Hfiles).
  split_and!; [done | done | exact Hrun |].
  subst run. rewrite Hfiles. reflexivity.
Defined.
